(** * Agent management backend: contact ingestion, fair-share distribution,
      item status tracking and aggregate reports.

    Shallow embedding of
      - models/list.js   (List schema, pre-save hook, updateItemStatus,
                          distributeItems),
      - models/agent.js  (Agent counters, incrementAssignedCount,
                          findActiveAgents),
      - controllers/listController.js (uploadAndDistribute,
                          getAllDistributions, getAgentLists,
                          getDistributions, updateItemStatus, getList,
                          deleteList, getDashboardStats),
      - controllers/agentController.js (deleteAgent, the mobile pattern)
                          and the getAgentStats static it reports.

    Conventions of the embedding.
      - A JS string is a [string]; its characters stand for code units.
      - A JS array is a [list]; [items.length] is [length items].
      - A decoded row (an object keyed by the lower-cased header) is a
        [gmap string string]: property access is lookup, a missing key is
        [undefined].
      - A Mongo ObjectId is an [N]; [new Date()] reads a clock value that
        the operations take as an argument; [uuidv4()] is an argument too.
      - Item counters of a List are array lengths, hence [nat]; the Agent
        counters go through [Math.max(0, x - y)], hence [Z].
      - The two collections are the fields of [DB]; asynchronous calls are
        sequenced as written (every one is awaited), with errors threaded
        by a small state-and-exception monad. *)

From stdpp Require Import base list strings gmap pretty sorting.
From Stdlib Require Import Ascii ZArith Lia.

(** ** JavaScript string helpers *)

Module JS.

(** [\s] of a JS regular expression and the white space of
    [String.prototype.trim], restricted to the code units below 256:
    TAB, LF, VT, FF, CR, SPACE and NBSP. *)
Definition isWhiteSpace (c : ascii) : bool :=
  let n := nat_of_ascii c in
  ((9 <=? n) && (n <=? 13)) || (n =? 32) || (n =? 160).

(** [\d] *)
Definition isDigit (c : ascii) : bool :=
  let n := nat_of_ascii c in (48 <=? n) && (n <=? 57).

Definition isEmpty (s : string) : bool :=
  match s with EmptyString => true | String _ _ => false end.

Fixpoint trimStart (s : string) : string :=
  match s with
  | EmptyString => EmptyString
  | String c r => if isWhiteSpace c then trimStart r else s
  end.

Fixpoint trimEnd (s : string) : string :=
  match s with
  | EmptyString => EmptyString
  | String c r =>
      let r' := trimEnd r in
      if isWhiteSpace c && isEmpty r' then EmptyString else String c r'
  end.

(** [s.trim()] *)
Definition trim (s : string) : string := trimEnd (trimStart s).

Fixpoint all (p : ascii → bool) (s : string) : bool :=
  match s with
  | EmptyString => true
  | String c r => p c && all p r
  end.

(** [arr.join(sep)] on an array of strings *)
Fixpoint join (sep : string) (l : list string) : string :=
  match l with
  | [] => ""
  | [x] => x
  | x :: r => x +:+ sep +:+ join sep r
  end.

(** The line feed of the ["\n"] literals. *)
Definition nl : string := String (ascii_of_nat 10) EmptyString.

(** [s.repeat(n)] for a one-character [s]; used to build long cells. *)
Fixpoint repeatChar (c : ascii) (n : nat) : string :=
  match n with
  | O => EmptyString
  | S k => String c (repeatChar c k)
  end.

(** [arr.slice(start, end)] for [0 <= start <= end]; an [end] beyond the
    array is clamped, as in JS. *)
Definition slice {A} (start end_ : nat) (l : list A) : list A :=
  take (end_ - start) (drop start l).

(** [arr.slice(start, end)] for any two integers: a negative index counts
    from the end, both are clamped to the array, and an [end] that does not
    lie after [start] gives the empty array. *)
Definition sliceIndex (len k : Z) : Z :=
  if (k <? 0)%Z then Z.max (len + k) 0 else Z.min k len.

Definition sliceZ {A} (start end_ : Z) (l : list A) : list A :=
  let len := Z.of_nat (length l) in
  take (Z.to_nat (sliceIndex len end_ - sliceIndex len start))
       (drop (Z.to_nat (sliceIndex len start)) l).

(** [Math.ceil(n / d)] for an integer [n >= 0] and an integer [d > 0]. *)
Definition ceilQuot (n : nat) (d : positive) : Z :=
  ((Z.of_nat n + Z.pos d - 1) / Z.pos d)%Z.

End JS.

(** ** The phone pattern [/^[+]?[\d\s()-]+$/]

    The class [[\d\s()-]] does not contain [+], so a leading [+] can only
    be consumed by the optional prefix; the rest must be one or more class
    characters up to the end of the string. *)

Definition phoneClass (c : ascii) : bool :=
  JS.isDigit c || JS.isWhiteSpace c
  || (nat_of_ascii c =? 40) || (nat_of_ascii c =? 41) || (nat_of_ascii c =? 45).

Definition phoneBody (s : string) : bool :=
  negb (JS.isEmpty s) && JS.all phoneClass s.

Definition phonePattern (s : string) : bool :=
  match s with
  | String c r => if (nat_of_ascii c =? 43) then phoneBody r else phoneBody s
  | EmptyString => false
  end.

(** ** Data model (models/list.js, models/agent.js) *)

Definition ObjectId := N.
Definition Date := Z.
Bind Scope N_scope with ObjectId.
Bind Scope Z_scope with Date.

Inductive Status := pending | contacted | completed | failed.

Global Instance Status_eq_dec : EqDecision Status.
Proof. solve_decision. Defined.

(** The plain object pushed to [validatedData] by the controller. *)
Record ContactRecord := mkContact {
  c_firstName : string;
  c_phone : string;
  c_notes : string
}.

(** A sub-document of [listItemSchema]. *)
Record ListItem := mkItem {
  item_id : ObjectId;
  firstName : string;
  phone : string;
  notes : string;
  status : Status;
  contactedAt : option Date;
  completedAt : option Date
}.

(** A document of [listSchema]. There is no other numeric path than the
    three counters. *)
Record ListDoc := mkList {
  list_id : ObjectId;
  uploadId : string;
  fileName : string;
  originalFileName : string;
  agentId : ObjectId;
  items : list ListItem;
  totalItems : nat;
  completedItems : nat;
  pendingItems : nat;
  uploadedBy : ObjectId;
  createdAt : Date;
  lastUpdated : Date
}.

(** The paths of [agentSchema] that the list code reads or writes. *)
Record Agent := mkAgent {
  agent_id : ObjectId;
  name : string;
  email : string;
  isActive : bool;
  assignedListsCount : Z;
  totalItemsAssigned : Z;
  agent_createdAt : Date
}.

(** The database: the two collections in storage order, and the source of
    fresh ObjectIds. *)
Record DB := mkDB {
  lists : list ListDoc;
  agents : list Agent;
  nextId : ObjectId
}.

(** What an operation can throw. A Mongoose validation failure keeps the
    failing paths and the messages the schema declares for them. *)
Inductive Error :=
  | Thrown (message : string)
  | ValidationError (failures : list (string * string)).


(** ** Sequencing of awaited calls

    [M A] is a computation over the database that either returns a value or
    throws; what was written before the throw stays written. *)

Definition M (A : Type) : Type := DB → (Error + A) * DB.

Definition ret {A} (a : A) : M A := λ db, (inr a, db).

Definition throw {A} (e : Error) : M A := λ db, (inl e, db).

Definition bind {A B} (c : M A) (k : A → M B) : M B :=
  λ db, match c db with
        | (inl e, db') => (inl e, db')
        | (inr a, db') => k a db'
        end.

Notation "'await' x ':=' c 'in' k" := (bind c (λ x, k))
  (at level 10, x name, c at level 100, k at level 200,
   format "'[v' 'await'  x  ':='  c  'in' '/' k ']'").

Notation "'await_' c 'in' k" := (bind c (λ _, k))
  (at level 10, c at level 100, k at level 200,
   format "'[v' 'await_'  c  'in' '/' k ']'").

(** ** Mongoose behaviour the schema declarations ask for *)

(** [new List(listData)]: every element of [items] is cast to a
    sub-document. The [trim: true] setters run on the three strings, the
    status takes its default and both dates stay undefined; the
    sub-document gets an ObjectId of its own. *)
Definition castItem (id : ObjectId) (c : ContactRecord) : ListItem :=
  {| item_id := id;
     firstName := JS.trim (c_firstName c);
     phone := JS.trim (c_phone c);
     notes := JS.trim (c_notes c);
     status := pending;
     contactedAt := None;
     completedAt := None |}.

Definition castItems (base : ObjectId) (l : list ContactRecord) : list ListItem :=
  imap (λ k c, castItem (base + N.of_nat k)%N c) l.

(** The contact an item was cast from, up to trimming. *)
Definition contactOf (it : ListItem) : ContactRecord :=
  {| c_firstName := firstName it; c_phone := phone it; c_notes := notes it |}.

(** The object literal [listData] of distributeItems. *)
Record ListData := mkListData {
  ld_uploadId : string;
  ld_fileName : string;
  ld_originalFileName : string;
  ld_agentId : ObjectId;
  ld_items : list ContactRecord;
  ld_uploadedBy : ObjectId
}.

(** [new this(listData)]: the document takes the next ObjectId and its
    items the ones after it; the three counters start at their default 0. *)
Definition newList (now : Date) (d : ListData) : M ListDoc := λ db,
  let id := nextId db in
  let doc :=
    {| list_id := id;
       uploadId := ld_uploadId d;
       fileName := ld_fileName d;
       originalFileName := ld_originalFileName d;
       agentId := ld_agentId d;
       items := castItems (id + 1)%N (ld_items d);
       totalItems := 0;
       completedItems := 0;
       pendingItems := 0;
       uploadedBy := ld_uploadedBy d;
       createdAt := now;
       lastUpdated := now |} in
  (inr doc,
   {| lists := lists db; agents := agents db;
      nextId := (id + 1 + N.of_nat (length (ld_items d)))%N |}).

(** Validators of [listItemSchema], per path; a path reports its first
    failing validator. The status enum cannot fail on a [Status]. *)
Definition itemPath (i : nat) (field : string) : string :=
  "items." +:+ pretty i +:+ "." +:+ field.

Definition validateItem (i : nat) (it : ListItem) : list (string * string) :=
  (if JS.isEmpty (firstName it)
   then [(itemPath i "firstName", "First name is required")]
   else if 100 <? String.length (firstName it)
   then [(itemPath i "firstName", "First name cannot exceed 100 characters")]
   else [])
  ++
  (if JS.isEmpty (phone it)
   then [(itemPath i "phone", "Phone number is required")]
   else if negb (phonePattern (phone it))
   then [(itemPath i "phone", "Please enter a valid phone number")]
   else [])
  ++
  (if 500 <? String.length (notes it)
   then [(itemPath i "notes", "Notes cannot exceed 500 characters")]
   else []).

Definition requiredString (path : string) (v : string) : list (string * string) :=
  if JS.isEmpty v then [(path, "Path `" +:+ path +:+ "` is required.")] else [].

(** Validators of [listSchema]: the required strings, then every item. *)
Definition validate (l : ListDoc) : list (string * string) :=
  requiredString "uploadId" (uploadId l)
  ++ requiredString "fileName" (fileName l)
  ++ requiredString "originalFileName" (originalFileName l)
  ++ concat (imap validateItem (items l)).

(** ** models/list.js *)

(** [listSchema.pre("save", ...)] *)
Definition preSave (now : Date) (l : ListDoc) : ListDoc :=
  {| list_id := list_id l;
     uploadId := uploadId l;
     fileName := fileName l;
     originalFileName := originalFileName l;
     agentId := agentId l;
     items := items l;
     totalItems := length (items l);
     completedItems := length (filter (λ it, status it = completed) (items l));
     pendingItems := length (filter (λ it, status it = pending) (items l));
     uploadedBy := uploadedBy l;
     createdAt := createdAt l;
     lastUpdated := now |}.

(** Writing a document back: the stored copy with the same [_id] is
    replaced. *)
Definition replaceList (l : ListDoc) (ls : list ListDoc) : list ListDoc :=
  (λ d, if bool_decide (list_id d = list_id l) then l else d) <$> ls.

(** [doc.save()]: validation first, then the pre-save hook, then the write
    (an insert for a new document). A validation failure rejects and
    nothing is written. A document that is not new was read from the
    collection by the caller and is still there; Mongoose validates its
    modified paths only, which gives the same verdict as validating all
    of it, the stored rest having passed when it was saved. *)
Definition save (isNew : bool) (now : Date) (l : ListDoc) : M ListDoc := λ db,
  match validate l with
  | [] =>
      let l' := preSave now l in
      (inr l',
       {| lists := if isNew then lists db ++ [l'] else replaceList l' (lists db);
          agents := agents db;
          nextId := nextId db |})
  | e :: es => (inl (ValidationError (e :: es)), db)
  end.

(** The [additionalData] argument of updateItemStatus, as far as it names
    paths of the item schema: an absent key is [None]. A key holding
    [undefined] for a date is [Some None]. *)
Record ItemPatch := mkPatch {
  p_firstName : option string;
  p_phone : option string;
  p_notes : option string;
  p_status : option Status;
  p_contactedAt : option (option Date);
  p_completedAt : option (option Date)
}.

Definition noPatch : ItemPatch :=
  {| p_firstName := None; p_phone := None; p_notes := None;
     p_status := None; p_contactedAt := None; p_completedAt := None |}.

(** [Object.assign(item, additionalData)]; the string setters trim. *)
Definition assignPatch (it : ListItem) (p : ItemPatch) : ListItem :=
  {| item_id := item_id it;
     firstName := from_option JS.trim (firstName it) (p_firstName p);
     phone := from_option JS.trim (phone it) (p_phone p);
     notes := from_option JS.trim (notes it) (p_notes p);
     status := default (status it) (p_status p);
     contactedAt := default (contactedAt it) (p_contactedAt p);
     completedAt := default (completedAt it) (p_completedAt p) |}.

Definition setStatus (st : Status) (it : ListItem) : ListItem :=
  {| item_id := item_id it; firstName := firstName it; phone := phone it;
     notes := notes it; status := st;
     contactedAt := contactedAt it; completedAt := completedAt it |}.

Definition setContactedAt (d : Date) (it : ListItem) : ListItem :=
  {| item_id := item_id it; firstName := firstName it; phone := phone it;
     notes := notes it; status := status it;
     contactedAt := Some d; completedAt := completedAt it |}.

Definition setCompletedAt (d : Date) (it : ListItem) : ListItem :=
  {| item_id := item_id it; firstName := firstName it; phone := phone it;
     notes := notes it; status := status it;
     contactedAt := contactedAt it; completedAt := Some d |}.

(** [!item.contactedAt]: a Date object is truthy, [undefined] is not. *)
Definition unset (d : option Date) : bool :=
  match d with None => true | Some _ => false end.

(** Lines 124-131: the status assignment and the two guarded stamps. *)
Definition stampStatus (now : Date) (st : Status) (it : ListItem) : ListItem :=
  let item := setStatus st it in
  if bool_decide (st = contacted) && unset (contactedAt item)
  then setContactedAt now item
  else if bool_decide (st = completed) && unset (completedAt item)
  then setCompletedAt now item
  else item.

Definition withItems (its : list ListItem) (l : ListDoc) : ListDoc :=
  {| list_id := list_id l;
     uploadId := uploadId l;
     fileName := fileName l;
     originalFileName := originalFileName l;
     agentId := agentId l;
     items := its;
     totalItems := totalItems l;
     completedItems := completedItems l;
     pendingItems := pendingItems l;
     uploadedBy := uploadedBy l;
     createdAt := createdAt l;
     lastUpdated := lastUpdated l |}.

(** [this.items.id(itemId)]: the first sub-document with that [_id]. *)
Definition itemsId (itemId : ObjectId) (its : list ListItem) : option (nat * ListItem) :=
  list_find (λ it, item_id it = itemId) its.

(** [listSchema.methods.updateItemStatus] *)
Definition updateItemStatus (this : ListDoc) (itemId : ObjectId) (st : Status)
    (additionalData : ItemPatch) (now : Date) : M ListDoc :=
  match itemsId itemId (items this) with
  | None => throw (Thrown "Item not found")
  | Some (i, item) =>
      let item' := assignPatch (stampStatus now st item) additionalData in
      save false now (withItems (<[i := item']> (items this)) this)
  end.

(** [listSchema.methods.getCompletionPercentage] is a rounding of a
    quotient of doubles and is left out. *)

(** ** models/agent.js *)

(** [agent.save()] for a document that was loaded from the collection:
    the stored copy with the same [_id] takes the new values. *)
Definition replaceAgent (a : Agent) (ags : list Agent) : list Agent :=
  (λ b, if bool_decide (agent_id b = agent_id a) then a else b) <$> ags.

Definition saveAgent (a : Agent) : M Agent := λ db,
  (inr a,
   {| lists := lists db; agents := replaceAgent a (agents db);
      nextId := nextId db |}).

(** [agentSchema.methods.incrementAssignedCount] *)
Definition incrementAssignedCount (this : Agent) (itemsCount : Z) : M Agent :=
  saveAgent
    {| agent_id := agent_id this;
       name := name this;
       email := email this;
       isActive := isActive this;
       assignedListsCount := assignedListsCount this + 1;
       totalItemsAssigned := totalItemsAssigned this + itemsCount;
       agent_createdAt := agent_createdAt this |}.

(** [sort({ createdAt: 1 })]: ascending creation time. *)
Definition createdBefore (a b : Agent) : Prop :=
  (agent_createdAt a ≤ agent_createdAt b)%Z.

Global Instance createdBefore_dec : RelDecision createdBefore.
Proof. intros a b. unfold createdBefore. apply _. Defined.

(** The query [find({ isActive: true }).sort({ createdAt: 1 })]. *)
Definition activeAgents (db : DB) : list Agent :=
  merge_sort createdBefore (filter (λ a, isActive a = true) (agents db)).

(** [agentSchema.statics.findActiveAgents] *)
Definition findActiveAgents : M (list Agent) := λ db, (inr (activeAgents db), db).

(** The [uploadData] object literal of the controller. *)
Record UploadData := mkUploadData {
  ud_uploadId : string;
  ud_fileName : string;
  ud_originalFileName : string;
  ud_uploadedBy : ObjectId
}.

(** The body of the [for] loop of distributeItems, from index [i] on, with
    the running [currentIndex] and the [distributions] pushed so far. *)
Fixpoint distributeLoop (items : list ContactRecord) (itemsPerAgent remainder : nat)
    (uploadData : UploadData) (now : Date) (i currentIndex : nat)
    (agents : list Agent) (distributions : list ListDoc) : M (list ListDoc) :=
  match agents with
  | [] => ret distributions
  | agent :: rest =>
      let itemCount := itemsPerAgent + (if i <? remainder then 1 else 0) in
      let agentItems := JS.slice currentIndex (currentIndex + itemCount) items in
      if 0 <? length agentItems then
        let listData :=
          {| ld_uploadId := ud_uploadId uploadData;
             ld_fileName := ud_fileName uploadData;
             ld_originalFileName := ud_originalFileName uploadData;
             ld_agentId := agent_id agent;
             ld_items := agentItems;
             ld_uploadedBy := ud_uploadedBy uploadData |} in
        await list := newList now listData in
        await saved := save true now list in
        await_ incrementAssignedCount agent (Z.of_nat (length agentItems)) in
        distributeLoop items itemsPerAgent remainder uploadData now
          (S i) (currentIndex + itemCount) rest (distributions ++ [saved])
      else
        distributeLoop items itemsPerAgent remainder uploadData now
          (S i) (currentIndex + itemCount) rest distributions
  end.

(** [listSchema.statics.distributeItems]. With no agent the quotient is
    not a number in JS, and the loop body never runs. *)
Definition distributeItems (items : list ContactRecord) (agents : list Agent)
    (uploadData : UploadData) (now : Date) : M (list ListDoc) :=
  let itemsPerAgent := length items / length agents in
  let remainder := length items mod length agents in
  distributeLoop items itemsPerAgent remainder uploadData now 0 0 agents [].

(** ** controllers/listController.js *)

(** What a handler sends: [res.json({success: true, data})] or
    [res.status(code).json({success: false, message})]. *)
Inductive Response (A : Type) :=
  | Success (data : A)
  | Failure (code : nat) (e : Error).
Arguments Success {A} data.
Arguments Failure {A} code e.

(** A decoded row: lower-cased, trimmed header name to cell text. *)
Abbreviation Row := (gmap string string).

Module Controller.

(** [!v] for a cell: [undefined] and the empty string are falsy. *)
Definition falsy (v : option string) : bool :=
  match v with
  | None => true
  | Some s => JS.isEmpty s
  end.

Definition requiredFields : list string := ["firstname"; "phone"; "notes"].

(** Lines 74-76: [!data[0] || !data[0].hasOwnProperty(field)] *)
Definition lacksField (data : list Row) (field : string) : bool :=
  match head data with
  | None => true
  | Some row0 => bool_decide (row0 !! field = None)
  end.

Definition missingFields (data : list Row) : list string :=
  filter (λ field, lacksField data field = true) requiredFields.

Definition rowError (rowNumber : nat) (reason : string) : string :=
  "Row " +:+ pretty rowNumber +:+ ": " +:+ reason.

(** The callback of [data.forEach]: the message it pushes to [errors],
    or the object it pushes to [validatedData]. *)
Definition validateRow (index : nat) (row : Row) : string + ContactRecord :=
  let rowNumber := index + 2 in
  if falsy (row !! "firstname")
     || JS.isEmpty (JS.trim (default "" (row !! "firstname")))
  then inl (rowError rowNumber "FirstName is required")
  else if falsy (row !! "phone")
          || JS.isEmpty (JS.trim (default "" (row !! "phone")))
  then inl (rowError rowNumber "Phone is required")
  else
    let phone := JS.trim (default "" (row !! "phone")) in
    if negb (phonePattern phone)
    then inl (rowError rowNumber "Invalid phone number format")
    else inr {| c_firstName := JS.trim (default "" (row !! "firstname"));
                c_phone := phone;
                c_notes := JS.trim (default "" (row !! "notes")) |}.

(** [data.forEach((row, index) => ...)] from [index] on, with the two
    arrays it fills. *)
Fixpoint forEachRow (index : nat) (data : list Row)
    (validatedData : list ContactRecord) (errors : list string)
    : list ContactRecord * list string :=
  match data with
  | [] => (validatedData, errors)
  | row :: rest =>
      match validateRow index row with
      | inl e => forEachRow (S index) rest validatedData (errors ++ [e])
      | inr c => forEachRow (S index) rest (validatedData ++ [c]) errors
      end
  end.

(** The uploaded file as multer describes it. *)
Record File := mkFile {
  filename : string;
  originalname : string
}.

Record Summary := mkSummary {
  sum_agentId : ObjectId;
  sum_agentName : string;
  sum_agentEmail : string;
  itemsCount : nat
}.

Record UploadResult := mkUploadResult {
  res_uploadId : string;
  res_totalItems : nat;
  res_totalAgents : nat;
  res_distributions : list Summary
}.

(** Lines 151-158; [agents.find(...)] yielding [undefined] makes the
    property read throw a TypeError. *)
Definition summarize (agents : list Agent) (dist : ListDoc) : M Summary :=
  match list_find (λ a, agent_id a = agentId dist) agents with
  | None => throw (Thrown "Cannot read properties of undefined (reading 'name')")
  | Some (_, a) =>
      ret {| sum_agentId := agentId dist;
             sum_agentName := name a;
             sum_agentEmail := email a;
             itemsCount := totalItems dist |}
  end.

Fixpoint mapM {A B} (f : A → M B) (l : list A) : M (list B) :=
  match l with
  | [] => ret []
  | x :: r =>
      await y := f x in
      await ys := mapM f r in
      ret (y :: ys)
  end.

(** Lines 72-169, on the rows [data] that the parsing stage decoded. *)
Definition ingest (data : list Row) (file : File) (user : ObjectId)
    (uuid : string) (now : Date) : M UploadResult :=
  let missing := missingFields data in
  if 0 <? length missing then
    throw (Thrown ("Missing required columns: " +:+ JS.join ", " missing
                   +:+ ". Expected: FirstName, Phone, Notes"))
  else
    let '(validatedData, errors) := forEachRow 0 data [] [] in
    if 0 <? length errors then
      throw (Thrown ("Data validation failed:" +:+ JS.nl +:+ JS.join JS.nl errors))
    else if length validatedData =? 0 then
      throw (Thrown "No valid data rows found in the file")
    else
      await agents := findActiveAgents in
      if length agents =? 0 then
        throw (Thrown "No active agents available for distribution")
      else
        let uploadData :=
          {| ud_uploadId := uuid;
             ud_fileName := filename file;
             ud_originalFileName := originalname file;
             ud_uploadedBy := user |} in
        await distributions := distributeItems validatedData agents uploadData now in
        await summary := mapM (summarize agents) distributions in
        ret {| res_uploadId := uuid;
               res_totalItems := length validatedData;
               res_totalAgents := length agents;
               res_distributions := summary |}.

(** [uploadAndDistribute]: the outer [catch] answers 400 with the
    message of whatever was thrown. *)
Definition uploadAndDistribute (data : list Row) (file : File) (user : ObjectId)
    (uuid : string) (now : Date) (db : DB) : Response UploadResult * DB :=
  match ingest data file user uuid now db with
  | (inr r, db') => (Success r, db')
  | (inl e, db') => (Failure 400 e, db')
  end.

(** [List.findById]: the position in the collection and the document. *)
Definition findListById (listId : ObjectId) (db : DB) : option (nat * ListDoc) :=
  list_find (λ l, list_id l = listId) (lists db).

Definition findAgentById (id : ObjectId) (db : DB) : option Agent :=
  snd <$> list_find (λ a, agent_id a = id) (agents db).

(** [validStatuses.includes(status)] and the enum value it names. *)
Definition parseStatus (s : string) : option Status :=
  if bool_decide (s = "pending") then Some pending
  else if bool_decide (s = "contacted") then Some contacted
  else if bool_decide (s = "completed") then Some completed
  else if bool_decide (s = "failed") then Some failed
  else None.

(** The handler [updateItemStatus] (lines 467-527). *)
Definition updateItemStatus (listId itemId : ObjectId) (status : string)
    (notes : option string) (now : Date) (db : DB) : Response ListDoc * DB :=
  match parseStatus status with
  | None =>
      (Failure 400
         (Thrown ("Invalid status. Must be one of: "
                  +:+ JS.join ", " ["pending"; "contacted"; "completed"; "failed"])),
       db)
  | Some st =>
      match findListById listId db with
      | None => (Failure 404 (Thrown "List not found"), db)
      | Some (_, list) =>
          let additionalData :=
            {| p_firstName := None; p_phone := None;
               p_notes := if falsy notes then None else notes;
               p_status := None; p_contactedAt := None; p_completedAt := None |} in
          match updateItemStatus list itemId st additionalData now db with
          | (inr l, db') => (Success l, db')
          | (inl (Thrown "Item not found"), db') =>
              (Failure 404 (Thrown "Item not found"), db')
          | (inl _, db') => (Failure 500 (Thrown "Failed to update item status"), db')
          end
      end
  end.

(** The handler [deleteList] (lines 594-637). *)
Definition deleteList (listId : ObjectId) (db : DB) : Response unit * DB :=
  match findListById listId db with
  | None => (Failure 404 (Thrown "List not found"), db)
  | Some (pos, list) =>
      let db1 :=
        match findAgentById (agentId list) db with
        | Some agent =>
            snd (saveAgent
                   {| agent_id := agent_id agent;
                      name := name agent;
                      email := email agent;
                      isActive := isActive agent;
                      assignedListsCount := Z.max 0 (assignedListsCount agent - 1);
                      totalItemsAssigned :=
                        Z.max 0 (totalItemsAssigned agent - Z.of_nat (totalItems list));
                      agent_createdAt := agent_createdAt agent |} db)
        | None => db
        end in
      (Success (),
       {| lists := delete pos (lists db1);
          agents := agents db1;
          nextId := nextId db1 |})
  end.

(** *** Aggregation pipelines *)

(** A field reference ["$path"] evaluated on a List document, for the
    numeric accumulators: the schema has three numeric paths, any other
    path is missing from every document. *)
Definition numericField (path : string) (l : ListDoc) : option Z :=
  if bool_decide (path = "totalItems") then Some (Z.of_nat (totalItems l))
  else if bool_decide (path = "completedItems") then Some (Z.of_nat (completedItems l))
  else if bool_decide (path = "pendingItems") then Some (Z.of_nat (pendingItems l))
  else None.

(** [{ $sum: "$path" }] over the documents of a group; a missing or
    non-numeric value adds nothing. *)
Definition sumField (path : string) (docs : list ListDoc) : Z :=
  foldr (λ d acc, default 0 (numericField path d) + acc)%Z 0%Z docs.

(** Lines 206-221: the [$match] stage built from the [status] query
    parameter. *)
Definition matchFilter (status : option string) (l : ListDoc) : bool :=
  match status with
  | None => true
  | Some s =>
      if JS.isEmpty s || bool_decide (s = "all") then true
      else if bool_decide (s = "completed")
      then completedItems l =? totalItems l
      else if bool_decide (s = "in_progress")
      then (0 <? completedItems l) && (completedItems l <? totalItems l)
      else if bool_decide (s = "pending")
      then completedItems l =? 0
      else true
  end.

(** One output document of the [$group] and [$addFields] stages of
    getAllDistributions. [fileSize] is not a path of the schema and is
    left out. *)
Record Distribution := mkDistribution {
  d_id : string;
  d_fileName : string;
  d_originalName : string;
  d_uploadDate : Date;
  d_totalItems : Z;
  d_completedItems : Z;
  d_inProgressItems : Z;
  d_pendingItems : Z;
  d_assignedAgents : nat;
  d_status : string;
  d_uploadedBy : ObjectId;
  d_lists : list ListDoc
}.

(** Lines 253-265: the nested [$cond]. *)
Definition overallStatus (completedItems totalItems : Z) : string :=
  if (completedItems =? totalItems)%Z then "completed"
  else if (0 <? completedItems)%Z then "in_progress"
  else "pending".

(** The accumulators of one group, whose first member is [first]. *)
Definition groupOf (key : string) (first : ListDoc) (members : list ListDoc)
    : Distribution :=
  {| d_id := key;
     d_fileName := fileName first;
     d_originalName := originalFileName first;
     d_uploadDate := createdAt first;
     d_totalItems := sumField "totalItems" members;
     d_completedItems := sumField "completedItems" members;
     d_inProgressItems := sumField "inProgressItems" members;
     d_pendingItems := sumField "pendingItems" members;
     d_assignedAgents := length (remove_dups (agentId <$> members));
     d_status := overallStatus (sumField "completedItems" members)
                               (sumField "totalItems" members);
     d_uploadedBy := uploadedBy first;
     d_lists := members |}.

(** [$group] by ["$uploadId"]: one document per distinct key. *)
Definition groupByUpload (docs : list ListDoc) : list Distribution :=
  omap (λ key,
          match filter (λ l, uploadId l = key) docs with
          | [] => None
          | first :: rest => Some (groupOf key first (first :: rest))
          end)
       (remove_dups (uploadId <$> docs)).

Definition newerFirst (a b : Distribution) : Prop :=
  (d_uploadDate b ≤ d_uploadDate a)%Z.

Global Instance newerFirst_dec : RelDecision newerFirst.
Proof. intros a b. unfold newerFirst. apply _. Defined.

(** [getAllDistributions]: [$match], [$group], [$addFields], [$sort],
    [$skip], [$limit]; [skip] is [(page - 1) * limit]. The answer also
    carries the number of groups. *)
Definition getAllDistributions (status : option string) (skip limit : nat)
    (db : DB) : Response (list Distribution * nat) :=
  let matched := filter (λ l, matchFilter status l = true) (lists db) in
  let groups := groupByUpload matched in
  Success (take limit (drop skip (merge_sort newerFirst groups)),
           length (remove_dups (uploadId <$> matched))).

(** The [stats] object of getAgentLists, getDistributions and
    getDashboardStats. *)
Record Stats := mkStats {
  s_totalItems : Z;
  s_completedItems : Z;
  s_inProgressItems : Z;
  s_pendingItems : Z;
  s_totalLists : Z
}.

(** [$group] with [_id: null]: one document, or none for no input. *)
Definition groupAll (docs : list ListDoc) : list Stats :=
  match docs with
  | [] => []
  | _ :: _ =>
      [ {| s_totalItems := sumField "totalItems" docs;
           s_completedItems := sumField "completedItems" docs;
           s_inProgressItems := sumField "inProgressItems" docs;
           s_pendingItems := sumField "pendingItems" docs;
           s_totalLists := Z.of_nat (length docs) |} ]
  end.

Definition zeroStats : Stats :=
  {| s_totalItems := 0; s_completedItems := 0; s_inProgressItems := 0;
     s_pendingItems := 0; s_totalLists := 0 |}.

(** [List.schema.obj.agentId.cast(agentId)] (line 353). [schema.obj] is
    the object literal that was given to [new mongoose.Schema]; its
    [agentId] entry is the options object [{type, ref, required, index}]
    of list.js 57-62, which has no [cast] property, so the call throws a
    TypeError whatever the argument. *)
Definition schemaObjAgentIdCast (agentId : ObjectId) : Error + ObjectId :=
  inl (Thrown "List.schema.obj.agentId.cast is not a function").

(** Lines 352-373: the [$match] and [$group] stages of the per-agent
    pipeline, and [stats[0] || {...zeros}]. *)
Definition agentStats (agent : ObjectId) (db : DB) : Stats :=
  default zeroStats (head (groupAll (filter (λ l, agentId l = agent) (lists db)))).

(** The handler [getAgentLists] (lines 327-398), as to its stats. The two
    queries before the pipeline only read; the pipeline is built with the
    cast above, and the [catch] of lines 391-397 answers whatever is
    thrown with 500. *)
Definition getAgentLists (agent : ObjectId) (db : DB) : Response Stats :=
  match schemaObjAgentIdCast agent with
  | inr id => Success (agentStats id db)
  | inl _ => Failure 500 (Thrown "Failed to fetch agent lists")
  end.

(** [getDistributions]: the Sub-Lists of one upload and their stats. *)
Definition getDistributions (upload : string) (db : DB)
    : Response (list ListDoc * Stats) :=
  let distributions := filter (λ l, uploadId l = upload) (lists db) in
  if length distributions =? 0
  then Failure 404 (Thrown "No distributions found for this upload")
  else Success (distributions, default zeroStats (head (groupAll distributions))).

(** [x || 0] on a number that may be undefined. *)
Definition orZero (x : option Z) : Z := default 0%Z x.

Record DashboardStats := mkDashboardStats {
  ds_totalItems : Z;
  ds_completedItems : Z;
  ds_inProgressItems : Z;
  ds_pendingItems : Z;
  ds_totalLists : Z;
  ds_activeDistributions : nat
}.

(** [getDashboardStats], without [lastUpload] and without
    [completionRate], a rounded quotient of doubles. *)
Definition getDashboardStats (db : DB) : Response DashboardStats :=
  let stats := groupAll (lists db) in
  Success
    {| ds_totalItems := orZero (s_totalItems <$> head stats);
       ds_completedItems := orZero (s_completedItems <$> head stats);
       ds_inProgressItems := orZero (s_inProgressItems <$> head stats);
       ds_pendingItems := orZero (s_pendingItems <$> head stats);
       ds_totalLists := orZero (s_totalLists <$> head stats);
       ds_activeDistributions := length (remove_dups (uploadId <$> lists db)) |}.

(** *** getList *)

(** The string a status is stored and queried as. *)
Definition statusName (st : Status) : string :=
  match st with
  | pending => "pending"
  | contacted => "contacted"
  | completed => "completed"
  | failed => "failed"
  end.

Record Pagination := mkPagination {
  currentPage : Z;
  totalPages : Z;
  pageTotalItems : nat;
  hasNext : bool;
  hasPrev : bool
}.

(** Lines 553-557: the items left by the [status] query parameter; an
    absent or empty parameter keeps them all. *)
Definition filteredItems (query : option string) (doc : ListDoc) : list ListItem :=
  if falsy query then items doc
  else filter (λ it, statusName (status it) = default "" query) (items doc).

(** The handler [getList] (lines 532-589) for an integer [page] and a
    positive integer [limit]; [completionPercentage] is left out. *)
Definition getList (listId : ObjectId) (page : Z) (limit : positive)
    (query : option string) (db : DB) : Response (ListDoc * Pagination) :=
  match findListById listId db with
  | None => Failure 404 (Thrown "List not found")
  | Some (_, list) =>
      let filtered := filteredItems query list in
      let skip := ((page - 1) * Z.pos limit)%Z in
      let paginatedItems := JS.sliceZ skip (skip + Z.pos limit) filtered in
      let totalItems := length filtered in
      let totalPages := JS.ceilQuot totalItems limit in
      Success (withItems paginatedItems list,
               {| currentPage := page;
                  totalPages := totalPages;
                  pageTotalItems := totalItems;
                  hasNext := (page <? totalPages)%Z;
                  hasPrev := (1 <? page)%Z |})
  end.

End Controller.

(** ** controllers/agentController.js and the statics of models/agent.js
       that it calls, as far as they use the counters *)

Module AgentController.

Record AgentStats := mkAgentStats {
  st_totalAgents : Z;
  st_activeAgents : Z;
  st_totalAssignedItems : Z
}.

(** [agentSchema.statics.getAgentStats]: one [$group] over the whole
    collection, or the zero object when there is no agent. *)
Definition getAgentStats (db : DB) : AgentStats :=
  match agents db with
  | [] => {| st_totalAgents := 0; st_activeAgents := 0; st_totalAssignedItems := 0 |}
  | _ :: _ =>
      {| st_totalAgents := Z.of_nat (length (agents db));
         st_activeAgents :=
           foldr (λ a acc, (if isActive a then 1 else 0) + acc)%Z 0%Z (agents db);
         st_totalAssignedItems :=
           foldr (λ a acc, totalItemsAssigned a + acc)%Z 0%Z (agents db) |}
  end.

(** The handler [deleteAgent] for a well-formed id. *)
Definition deleteAgent (id : ObjectId) (db : DB) : Response unit * DB :=
  match list_find (λ a, agent_id a = id) (agents db) with
  | None => (Failure 404 (Thrown "Agent not found"), db)
  | Some (pos, agent) =>
      if (0 <? assignedListsCount agent)%Z then
        (Failure 400
           (Thrown "Cannot delete agent with assigned lists. Please reassign or remove lists first."),
         db)
      else
        (Success (),
         {| lists := lists db; agents := delete pos (agents db); nextId := nextId db |})
  end.

(** [mobileRegex.test(mobile)] for [/^\+[1-9]\d{1,14}$/] (createAgent
    lines 117-118, updateAgent line 236, the schema's [match]). *)
Definition mobilePattern (s : string) : bool :=
  match s with
  | String p (String d rest) =>
      (nat_of_ascii p =? 43)
      && (49 <=? nat_of_ascii d) && (nat_of_ascii d <=? 57)
      && (1 <=? String.length rest) && (String.length rest <=? 14)
      && JS.all JS.isDigit rest
  | _ => false
  end.

End AgentController.

(** * Vocabulary of the statements *)

(** What [trimStart] returns is empty or starts with a visible
    character. *)
Definition startsVisible (s : string) : Prop :=
  match s with
  | EmptyString => True
  | String c _ => JS.isWhiteSpace c = false
  end.

(** The contact that the cast of [c] stores. *)
Definition castContact (c : ContactRecord) : ContactRecord :=
  {| c_firstName := JS.trim (c_firstName c);
     c_phone := JS.trim (c_phone c);
     c_notes := JS.trim (c_notes c) |}.

(** The three strings of an item pass their validators. *)
Definition itemOk (it : ListItem) : bool :=
  negb (JS.isEmpty (firstName it)) && negb (100 <? String.length (firstName it))
  && negb (JS.isEmpty (phone it)) && phonePattern (phone it)
  && negb (500 <? String.length (notes it)).

(** A contact whose cast passes the item validators. *)
Definition contactOk (c : ContactRecord) : bool := itemOk (castItem 0%N c).

(** The three required strings of an upload are there. *)
Definition uploadOk (u f o : string) : bool :=
  negb (JS.isEmpty u) && negb (JS.isEmpty f) && negb (JS.isEmpty o).

(** The counters of a Sub-List agree with its items. *)
Definition counters_ok (l : ListDoc) : Prop :=
  totalItems l = length (items l)
  ∧ completedItems l = length (filter (λ it, status it = completed) (items l))
  ∧ pendingItems l = length (filter (λ it, status it = pending) (items l)).

(** What incrementAssignedCount leaves in the agent document. *)
Definition bump (a : Agent) (k : nat) : Agent :=
  {| agent_id := agent_id a;
     name := name a;
     email := email a;
     isActive := isActive a;
     assignedListsCount := assignedListsCount a + 1;
     totalItemsAssigned := totalItemsAssigned a + Z.of_nat k;
     agent_createdAt := agent_createdAt a |}.

(** The document that [new this(listData)] builds for agent [a] and the
    slice [sl] when the next ObjectId is [id]. *)
Definition docFor (ud : UploadData) (now : Date) (a : Agent)
    (sl : list ContactRecord) (id : ObjectId) : ListDoc :=
  {| list_id := id;
     uploadId := ud_uploadId ud;
     fileName := ud_fileName ud;
     originalFileName := ud_originalFileName ud;
     agentId := agent_id a;
     items := castItems (id + 1)%N sl;
     totalItems := 0;
     completedItems := 0;
     pendingItems := 0;
     uploadedBy := ud_uploadedBy ud;
     createdAt := now;
     lastUpdated := now |}.

(** The required strings and the contacts of a slice pass the schema. *)
Definition sliceOk (ud : UploadData) (sl : list ContactRecord) : Prop :=
  uploadOk (ud_uploadId ud) (ud_fileName ud) (ud_originalFileName ud) = true
  ∧ Forall (λ c, contactOk c = true) sl.

(** [l] is the Sub-List saved for the agent and slice of [p]. *)
Definition persistedAs (ud : UploadData) (now : Date) (l : ListDoc)
    (p : Agent * list ContactRecord) : Prop :=
  (∃ id, l = preSave now (docFor ud now p.1 p.2 id)) ∧ sliceOk ud p.2.

(** The agent and the [agentItems] of every iteration of the loop, from
    index [i] and [currentIndex = cur] on. *)
Fixpoint shares (items : list ContactRecord) (base rem i cur : nat)
    (ags : list Agent) : list (Agent * list ContactRecord) :=
  match ags with
  | [] => []
  | a :: rest =>
      let cnt := base + (if i <? rem then 1 else 0) in
      (a, JS.slice cur (cur + cnt) items) :: shares items base rem (S i) (cur + cnt) rest
  end.

(** The iterations that enter the [if (agentItems.length > 0)] branch. *)
Definition nonEmptyShares (l : list (Agent * list ContactRecord)) :=
  filter (λ p, 0 < length p.2) l.

Definition applyShare (ags : list Agent) (p : Agent * list ContactRecord) : list Agent :=
  replaceAgent (bump p.1 (length p.2)) ags.

(** The size and the first index of the share of position [i] when [N]
    items go to [M] agents. *)
Definition shareSize (N M i : nat) : nat :=
  N / M + (if i <? N mod M then 1 else 0).

Definition shareStart (N M i : nat) : nat :=
  i * (N / M) + i `min` (N mod M).

Definition shareOf {A} (items : list A) (M i : nat) : list A :=
  take (shareSize (length items) M i) (drop (shareStart (length items) M i) items).

(** Every agent with the share of its position. *)
Definition fairShares (items : list ContactRecord) (agents : list Agent)
    : list (Agent * list ContactRecord) :=
  imap (λ i a, (a, shareOf items (length agents) i)) agents.

(** A contact that the row validator produced. *)
Definition validated (c : ContactRecord) : Prop :=
  ∃ index row, Controller.validateRow index row = inr c.

(** What a Sub-List shows of its share, and what a share promises. *)
Definition listView (l : ListDoc) : ObjectId * list ContactRecord :=
  (agentId l, contactOf <$> items l).

Definition shareView (p : Agent * list ContactRecord) : ObjectId * list ContactRecord :=
  (agent_id p.1, p.2).

(** The requests that write to the List collection. *)
Inductive Request :=
  | Upload (data : list Row) (file : Controller.File) (user : ObjectId)
           (uuid : string) (now : Date)
  | UpdateItem (listId itemId : ObjectId) (status : string)
               (notes : option string) (now : Date)
  | DeleteList (listId : ObjectId).

(** The database after a request has been answered. *)
Definition handle (db : DB) (req : Request) : DB :=
  match req with
  | Upload data file user uuid now =>
      (Controller.uploadAndDistribute data file user uuid now db).2
  | UpdateItem listId itemId status notes now =>
      (Controller.updateItemStatus listId itemId status notes now db).2
  | DeleteList listId => (Controller.deleteList listId db).2
  end.

(** A patch that leaves the status and both dates alone, as the one the
    handler builds from the request body. *)
Definition statusNeutral (p : ItemPatch) : Prop :=
  p_status p = None ∧ p_contactedAt p = None ∧ p_completedAt p = None.

(** The message a row pushes to [errors], if it does; the contact it
    pushes to [validatedData], if it does. *)
Definition rowError (o : string + ContactRecord) : option string :=
  match o with inl e => Some e | inr _ => None end.

Definition rowContact (o : string + ContactRecord) : option ContactRecord :=
  match o with inl _ => None | inr c => Some c end.

(** All messages, and all contacts, of the rows in order. *)
Definition rowErrors (data : list Row) : list string :=
  omap rowError (imap Controller.validateRow data).

Definition rowContacts (data : list Row) : list ContactRecord :=
  omap rowContact (imap Controller.validateRow data).

Definition validationReasons : list string :=
  ["FirstName is required"; "Phone is required"; "Invalid phone number format"].

(** The notes cell of a row after trimming. *)
Definition trimmedNotes (row : Row) : string :=
  JS.trim (default "" (row !! "notes")).

(** The Sub-Lists of the upload [key] that pass the [$match] stage. *)
Definition batchMembers (status : option string) (key : string) (db : DB)
    : list ListDoc :=
  filter (λ l, uploadId l = key) (filter (λ l, Controller.matchFilter status l = true) (lists db)).

(** The sum of a counter over Sub-Lists. *)
Definition sumOf (counter : ListDoc → nat) (docs : list ListDoc) : Z :=
  Z.of_nat (sum_list (counter <$> docs)).

(** ** Regular expressions of the source, as syntax *)

(** An element of a character class. *)
Inductive charset :=
  | Digit
  | Space
  | Lit (c : ascii)
  | Range (lo hi : ascii).

Definition inSet (c : ascii) (s : charset) : bool :=
  match s with
  | Digit => JS.isDigit c
  | Space => JS.isWhiteSpace c
  | Lit x => nat_of_ascii c =? nat_of_ascii x
  | Range lo hi => (nat_of_ascii lo <=? nat_of_ascii c) && (nat_of_ascii c <=? nat_of_ascii hi)
  end.

(** The operators the two patterns use: a class [[...]], juxtaposition,
    [r?], [r+] and [r{lo,hi}]. *)
Inductive regex :=
  | Class (l : list charset)
  | Seq (r1 r2 : regex)
  | Opt (r : regex)
  | Plus (r : regex)
  | Rep (lo hi : nat) (r : regex).

(** [iter r k s]: [s] is [k] matches of [r] in a row; [matches r s]: the
    anchored pattern [^r$] accepts [s]. *)
Inductive matches : regex → string → Prop :=
  | matches_class l c :
      existsb (inSet c) l = true → matches (Class l) (String c EmptyString)
  | matches_seq r1 r2 s1 s2 :
      matches r1 s1 → matches r2 s2 → matches (Seq r1 r2) (s1 +:+ s2)
  | matches_opt_none r : matches (Opt r) EmptyString
  | matches_opt_some r s : matches r s → matches (Opt r) s
  | matches_plus_one r s : matches r s → matches (Plus r) s
  | matches_plus_more r s1 s2 :
      matches r s1 → matches (Plus r) s2 → matches (Plus r) (s1 +:+ s2)
  | matches_rep lo hi r k s :
      lo ≤ k → k ≤ hi → iter r k s → matches (Rep lo hi r) s
with iter : regex → nat → string → Prop :=
  | iter_0 r : iter r 0 EmptyString
  | iter_S r k s1 s2 : matches r s1 → iter r k s2 → iter r (S k) (s1 +:+ s2).

(** [/^[+]?[\d\s()-]+$/] (models/list.js line 16, listController.js line
    105). *)
Definition phoneRegex : regex :=
  Seq (Opt (Class [Lit "+"]))
      (Plus (Class [Digit; Space; Lit "("; Lit ")"; Lit "-"])).

(** [/^\+[1-9]\d{1,14}$/] (agentController.js lines 117 and 236,
    models/agent.js line 29). *)
Definition mobileRegex : regex :=
  Seq (Class [Lit "+"]) (Seq (Class [Range "1" "9"]) (Rep 1 14 (Class [Digit]))).

(** ** Pages of getList *)

(** The items that getList answers for page [p], and the pagination
    object beside them. *)
Definition pageItems (listId : ObjectId) (limit : positive)
    (query : option string) (db : DB) (p : Z) : list ListItem :=
  match Controller.getList listId p limit query db with
  | Success (l, _) => items l
  | Failure _ _ => []
  end.

Definition pageInfo (listId : ObjectId) (limit : positive)
    (query : option string) (db : DB) (p : Z) : option Controller.Pagination :=
  match Controller.getList listId p limit query db with
  | Success (_, pg) => Some pg
  | Failure _ _ => None
  end.

(** ** Consistency of the two collections *)

(** The Sub-Lists assigned to an agent. *)
Definition listsOf (id : ObjectId) (db : DB) : list ListDoc :=
  filter (λ l, agentId l = id) (lists db).

(** The two counters of an agent say what is stored for it. *)
Definition agentCountersOk (db : DB) (a : Agent) : Prop :=
  assignedListsCount a = Z.of_nat (length (listsOf (agent_id a) db))
  ∧ totalItemsAssigned a = sumOf totalItems (listsOf (agent_id a) db).

(** Ids are unique and below the next fresh one, the counters of every
    Sub-List and of every agent are right, and every Sub-List belongs to a
    stored agent. *)
Record consistent (db : DB) : Prop := mkConsistent {
  agent_ids_unique : NoDup (agent_id <$> agents db);
  list_ids_unique : NoDup (list_id <$> lists db);
  list_ids_used : Forall (λ l, (list_id l < nextId db)%N) (lists db);
  lists_counted : Forall counters_ok (lists db);
  agents_counted : Forall (agentCountersOk db) (agents db);
  lists_assigned : Forall (λ l, agentId l ∈ agent_id <$> agents db) (lists db)
}.

(** The requests that write to either collection. *)
Inductive Command :=
  | OnLists (req : Request)
  | DeleteAgent (id : ObjectId).

Definition serve (db : DB) (c : Command) : DB :=
  match c with
  | OnLists req => handle db req
  | DeleteAgent id => (AgentController.deleteAgent id db).2
  end.

(** ** The response of an upload *)

(** The line of the response for the share of an agent. *)
Definition summaryOf (p : Agent * list ContactRecord) : Controller.Summary :=
  {| Controller.sum_agentId := agent_id p.1;
     Controller.sum_agentName := name p.1;
     Controller.sum_agentEmail := email p.1;
     Controller.itemsCount := length p.2 |}.

(** ** What list requests leave alone, and what the counters leave out *)

(** The paths of an agent document other than the two counters. *)
Definition profile (a : Agent) : ObjectId * string * string * bool * Date :=
  (agent_id a, name a, email a, isActive a, agent_createdAt a).

(** An item that is neither pending nor completed. *)
Definition underWay (it : ListItem) : Prop :=
  status it = contacted ∨ status it = failed.

Global Instance underWay_dec it : Decision (underWay it).
Proof. unfold underWay. apply _. Defined.

(** ** Worked inputs *)

(** A row whose notes cell holds 501 characters, a database with one
    active agent, and the file the row came in. *)
Definition longNotesRow : Row :=
  <["firstname" := "Ann"]>
    (<["phone" := "+1 (555) 010-0199"]>
       (<["notes" := JS.repeatChar "x" 501]> ∅)).

Definition oneAgentDb : DB :=
  {| lists := [];
     agents := [ {| agent_id := 1%N; name := "Bo"; email := "bo@example.org";
                    isActive := true; assignedListsCount := 0%Z;
                    totalItemsAssigned := 0%Z; agent_createdAt := 10%Z |} ];
     nextId := 100%N |}.

Definition contactsFile : Controller.File :=
  {| Controller.filename := "1700000000-contacts.csv";
     Controller.originalname := "contacts.csv" |}.

(** Seven rows, three active agents created in the order 2, 3, 1. *)
Definition contactRow (first phone notes : string) : Row :=
  <["firstname" := first]> (<["phone" := phone]> (<["notes" := notes]> ∅)).

Definition sevenRows : list Row :=
  [ contactRow "Ada" "+44 20 7946 0001" "call after 5";
    contactRow " Bob " "(555) 010-0002" "";
    contactRow "Cy" "555-0003" "  vip ";
    contactRow "Di" "5550004" "";
    contactRow "Ed" "+1 555 0005" "";
    contactRow "Flo" "555 0006" "";
    contactRow "Gus" "555-0007" "" ].

Definition sevenContacts : list ContactRecord := rowContacts sevenRows.

Definition agentNo (id : ObjectId) (created : Date) : Agent :=
  {| agent_id := id; name := "agent"; email := "agent@example.org";
     isActive := true; assignedListsCount := 0; totalItemsAssigned := 0;
     agent_createdAt := created |}.

Definition threeAgents : list Agent :=
  [agentNo 2 10; agentNo 3 20; agentNo 1 30].

Definition threeAgentDb : DB :=
  {| lists := []; agents := [agentNo 1 30; agentNo 2 10; agentNo 3 20];
     nextId := 100 |}.

Definition batchOne : UploadData :=
  {| ud_uploadId := "batch-1"; ud_fileName := "1700000000-contacts.csv";
     ud_originalFileName := "contacts.csv"; ud_uploadedBy := 7 |}.

(** The database after the seven rows were uploaded, and after one item
    of the first Sub-List was marked as contacted. *)
Definition afterUpload : DB :=
  (Controller.uploadAndDistribute sevenRows contactsFile 7 "batch-1" 50 threeAgentDb).2.

Definition firstList : ListDoc :=
  default (preSave 0 (docFor batchOne 0 (agentNo 2 10) [] 0)) (head (lists afterUpload)).

(** A batch of two Sub-Lists with ten items, four of them completed. *)
Definition itemWith (id : ObjectId) (st : Status) : ListItem :=
  {| item_id := id; firstName := "Ann"; phone := "555-0100"; notes := "";
     status := st; contactedAt := None; completedAt := None |}.

Definition listWith (id agent : ObjectId) (its : list ListItem) : ListDoc :=
  preSave 60
    {| list_id := id; uploadId := "batch-9"; fileName := "f.csv";
       originalFileName := "f.csv"; agentId := agent; items := its;
       totalItems := 0; completedItems := 0; pendingItems := 0;
       uploadedBy := 7; createdAt := 60; lastUpdated := 60 |}.

Definition tenItemsFirst : ListDoc :=
  listWith 200 1 [itemWith 201 completed; itemWith 202 completed;
                  itemWith 203 completed; itemWith 204 pending;
                  itemWith 205 pending].

Definition tenItemsSecond : ListDoc :=
  listWith 210 2 [itemWith 211 completed; itemWith 212 pending;
                  itemWith 213 pending; itemWith 214 pending;
                  itemWith 215 pending].

Definition tenItemsDb : DB :=
  {| lists := [tenItemsFirst; tenItemsSecond];
     agents := [ {| agent_id := 1; name := "Bo"; email := "bo@example.org";
                    isActive := true; assignedListsCount := 1;
                    totalItemsAssigned := 3; agent_createdAt := 10 |};
                 agentNo 2 20 ];
     nextId := 300 |}.

Definition tenItemsPage : list Controller.Distribution :=
  match Controller.getAllDistributions None 0 10 tenItemsDb with
  | Success (ds, _) => ds
  | Failure _ _ => []
  end.

Definition tenItemsBatch : Controller.Distribution :=
  Controller.groupOf "batch-9" tenItemsFirst [tenItemsFirst; tenItemsSecond].

(** The first Sub-List of the upload, its first item marked as contacted
    at time 60 and then again at time 90. *)
Definition contactedOnce : (Error + ListDoc) * DB :=
  updateItemStatus firstList 101 contacted noPatch 60 afterUpload.

Definition firstListContacted : ListDoc :=
  match contactedOnce.1 with inr l => l | inl _ => firstList end.

Definition contactedTwice : (Error + ListDoc) * DB :=
  updateItemStatus firstListContacted 101 contacted noPatch 90 contactedOnce.2.

(** A batch of five items in two Sub-Lists: one untouched, one with an
    item completed. *)
Definition untouchedList : ListDoc :=
  listWith 410 1 [itemWith 411 pending; itemWith 412 pending].

Definition startedList : ListDoc :=
  listWith 420 2 [itemWith 421 completed; itemWith 422 pending;
                  itemWith 423 pending].

Definition partlyDoneDb : DB :=
  {| lists := [untouchedList; startedList];
     agents := [ {| agent_id := 1; name := "Bo"; email := "bo@example.org";
                    isActive := true; assignedListsCount := 1;
                    totalItemsAssigned := 2; agent_createdAt := 10 |};
                 {| agent_id := 2; name := "Cy"; email := "cy@example.org";
                    isActive := true; assignedListsCount := 1;
                    totalItemsAssigned := 3; agent_createdAt := 20 |} ];
     nextId := 500 |}.

(** * Properties *)

(** ** Strings *)

Section Trim.

Lemma isEmpty_true s : JS.isEmpty s = true ↔ s = "".
Proof. destruct s; simpl; split; congruence. Qed.

Lemma trimStart_startsVisible s : startsVisible (JS.trimStart s).
Proof.
  induction s as [|c r IH]; simpl; [done|].
  destruct (JS.isWhiteSpace c) eqn:Hc; [done|]. simpl. done.
Qed.

Lemma trimStart_fixed s : startsVisible s → JS.trimStart s = s.
Proof. destruct s as [|c r]; simpl; [done|]. by intros ->. Qed.

Lemma trimEnd_startsVisible s : startsVisible s → startsVisible (JS.trimEnd s).
Proof.
  destruct s as [|c r]; simpl; [done|]. intros Hc. rewrite Hc. simpl. done.
Qed.

Lemma trimEnd_idemp s : JS.trimEnd (JS.trimEnd s) = JS.trimEnd s.
Proof.
  induction s as [|c r IH]; simpl; [done|].
  destruct (JS.isWhiteSpace c && JS.isEmpty (JS.trimEnd r)) eqn:Hc; [done|].
  simpl. rewrite IH, Hc. done.
Qed.

Lemma trim_idemp s : JS.trim (JS.trim s) = JS.trim s.
Proof.
  unfold JS.trim.
  rewrite (trimStart_fixed (JS.trimEnd (JS.trimStart s))).
  - apply trimEnd_idemp.
  - apply trimEnd_startsVisible, trimStart_startsVisible.
Qed.

End Trim.

(** ** The schema *)

Section Schema.

Lemma contactOf_castItems base l :
  contactOf <$> castItems base l = castContact <$> l.
Proof.
  unfold castItems. rewrite fmap_imap.
  rewrite <- (imap_const castContact l). apply imap_ext. done.
Qed.

Lemma length_castItems base l : length (castItems base l) = length l.
Proof. apply length_imap. Qed.

Lemma castItems_pending base l :
  Forall (λ it, status it = pending ∧ contactedAt it = None ∧ completedAt it = None)
         (castItems base l).
Proof.
  apply Forall_forall. intros it Hit.
  apply elem_of_lookup_imap in Hit as (i & c & -> & _). done.
Qed.

Lemma validateItem_nil i it : validateItem i it = [] ↔ itemOk it = true.
Proof.
  unfold validateItem, itemOk.
  destruct (JS.isEmpty (firstName it)), (100 <? String.length (firstName it)),
    (JS.isEmpty (phone it)), (phonePattern (phone it)),
    (500 <? String.length (notes it)); simpl; split; congruence.
Qed.

Lemma concat_imap_validateItem_nil (its : list ListItem) (k : nat) :
  concat (imap (λ i, validateItem (k + i)) its) = []
  ↔ Forall (λ it, itemOk it = true) its.
Proof.
  revert k. induction its as [|it its IH]; intros k; simpl.
  - split; [constructor | done].
  - rewrite Forall_cons. rewrite <- validateItem_nil with (i := k + 0).
    rewrite <- (IH (S k)). split.
    + intros H. apply app_eq_nil in H as [H1 H2]. split; [done|].
      rewrite <- H2. f_equal. apply imap_ext. intros. simpl. f_equal. lia.
    + intros [H1 H2]. rewrite H1. simpl. rewrite <- H2. f_equal.
      apply imap_ext. intros. simpl. f_equal. lia.
Qed.

Lemma requiredString_nil p v : requiredString p v = [] ↔ JS.isEmpty v = false.
Proof. unfold requiredString. destruct (JS.isEmpty v); split; congruence. Qed.

(** The document passes validation exactly when its required strings are
    non-empty and every item passes. *)
Lemma validate_nil l :
  validate l = []
  ↔ uploadOk (uploadId l) (fileName l) (originalFileName l) = true
    ∧ Forall (λ it, itemOk it = true) (items l).
Proof.
  unfold validate, uploadOk.
  rewrite <- (concat_imap_validateItem_nil (items l) 0).
  rewrite !app_nil, !requiredString_nil, !andb_true_iff, !negb_true_iff.
  tauto.
Qed.

Lemma itemOk_castItems base l :
  Forall (λ it, itemOk it = true) (castItems base l)
  ↔ Forall (λ c, contactOk c = true) l.
Proof.
  rewrite !Forall_forall. split.
  - intros H c Hc. apply list_elem_of_lookup in Hc as [i Hi].
    apply (H (castItem (base + N.of_nat i)%N c)).
    unfold castItems.
    apply (elem_of_lookup_imap_2 (λ k c, castItem (base + N.of_nat k)%N c) l c i Hi).
  - intros H it Hit. apply elem_of_lookup_imap in Hit as (i & c & -> & Hi).
    apply (H c). apply list_elem_of_lookup. eauto.
Qed.

End Schema.

(** ** The distribution loop *)

Section Loop.

Variables (items : list ContactRecord) (base rem : nat).
Variables (ud : UploadData) (now : Date).

Lemma validate_docFor a sl id :
  validate (docFor ud now a sl id) = [] ↔ sliceOk ud sl.
Proof.
  rewrite validate_nil. unfold sliceOk. simpl.
  by rewrite itemOk_castItems.
Qed.

Lemma newList_run a sl db :
  newList now
    {| ld_uploadId := ud_uploadId ud;
       ld_fileName := ud_fileName ud;
       ld_originalFileName := ud_originalFileName ud;
       ld_agentId := agent_id a;
       ld_items := sl;
       ld_uploadedBy := ud_uploadedBy ud |} db
  = (inr (docFor ud now a sl (nextId db)),
     {| lists := lists db; agents := agents db;
        nextId := (nextId db + 1 + N.of_nat (length sl))%N |}).
Proof. reflexivity. Qed.

(** Every run of the loop saves Sub-Lists for a prefix of the non-empty
    shares, bumps exactly their agents, and returns normally only when
    the prefix is everything. *)
Lemma distributeLoop_run ags : ∀ i cur dists db r db',
  distributeLoop items base rem ud now i cur ags dists db = (r, db') →
  ∃ done new,
    done `prefix_of` nonEmptyShares (shares items base rem i cur ags)
    ∧ Forall2 (persistedAs ud now) new done
    ∧ lists db' = lists db ++ new
    ∧ agents db' = foldl applyShare (agents db) done
    ∧ match r with
      | inr ds => ds = dists ++ new
                  ∧ done = nonEmptyShares (shares items base rem i cur ags)
      | inl e => ∃ p fs, (done ++ [p]) `prefix_of`
                            nonEmptyShares (shares items base rem i cur ags)
                         ∧ e = ValidationError fs ∧ ¬ sliceOk ud p.2
      end.
Proof.
  induction ags as [|a rest IH]; intros i cur dists db r db' Hrun.
  - simpl in Hrun. injection Hrun as <- <-.
    exists [], []. simpl. rewrite !app_nil_r.
    repeat split; done.
  - cbn [distributeLoop] in Hrun.
    set (cnt := base + (if i <? rem then 1 else 0)) in *.
    set (sl := JS.slice cur (cur + cnt) items) in *.
    unfold nonEmptyShares. simpl. fold cnt. fold sl.
    destruct (0 <? length sl) eqn:Hne.
    + apply Nat.ltb_lt in Hne.
      rewrite filter_cons_True by (simpl; lia).
      unfold bind at 1 in Hrun. rewrite newList_run in Hrun.
      unfold bind at 1 in Hrun. unfold save at 1 in Hrun.
      destruct (validate (docFor ud now a sl (nextId db))) as [|f fs] eqn:Hval.
      * apply validate_docFor in Hval.
        unfold bind at 1 in Hrun. cbn [incrementAssignedCount saveAgent] in Hrun.
        apply IH in Hrun as (done & new & Hpre & Hper & Hlists & Hags & Hr).
        exists ((a, sl) :: done), (preSave now (docFor ud now a sl (nextId db)) :: new).
        simpl in Hlists, Hags. split; [by apply prefix_cons|].
        split; [constructor; [split; [by eexists|done]|done]|].
        split; [by rewrite Hlists, <- app_assoc|].
        split; [done|].
        destruct r as [e|ds].
        -- destruct Hr as (p & fs & Hp & -> & Hbad).
           exists p, fs. split; [by apply prefix_cons|done].
        -- destruct Hr as [-> ->]. by rewrite <- app_assoc.
      * injection Hrun as <- <-.
        exists [], []. simpl. rewrite app_nil_r.
        split; [apply prefix_nil|]. split; [constructor|].
        split; [done|]. split; [done|].
        exists (a, sl), (f :: fs). split; [|split; [done|]].
        -- apply prefix_cons, prefix_nil.
        -- simpl. intros Hok. apply validate_docFor with (a := a) (id := nextId db) in Hok.
           congruence.
    + apply Nat.ltb_ge in Hne.
      rewrite filter_cons_False by (simpl; lia).
      by apply IH in Hrun.
Qed.

End Loop.

(** ** Fair shares in closed form *)

Section FairShares.

Lemma shareStart_S N M i :
  shareStart N M (S i) = shareStart N M i + shareSize N M i.
Proof.
  unfold shareStart, shareSize.
  destruct (i <? N mod M) eqn:Hi.
  - apply Nat.ltb_lt in Hi. nia.
  - apply Nat.ltb_ge in Hi. nia.
Qed.

Lemma shareStart_0 N M : shareStart N M 0 = 0.
Proof. unfold shareStart. lia. Qed.

Lemma shareStart_all N M : 1 ≤ M → shareStart N M M = N.
Proof.
  intros HM. unfold shareStart.
  pose proof (Nat.mod_upper_bound N M ltac:(lia)) as Hlt.
  pose proof (Nat.div_mod_eq N M) as Hdm.
  rewrite Nat.min_r by lia. lia.
Qed.

Lemma shareStart_mono N M i j : i ≤ j → shareStart N M i ≤ shareStart N M j.
Proof.
  induction 1 as [|j _ IH]; [done|]. rewrite shareStart_S. lia.
Qed.

Lemma shareEnd_bound N M i :
  1 ≤ M → i < M → shareStart N M i + shareSize N M i ≤ N.
Proof.
  intros HM Hi. rewrite <- shareStart_S.
  rewrite <- (shareStart_all N M HM) at 2. apply shareStart_mono. lia.
Qed.

Lemma length_shareOf {A} (items : list A) M i :
  1 ≤ M → i < M → length (shareOf items M i) = shareSize (length items) M i.
Proof.
  intros HM Hi. unfold shareOf. rewrite length_take, length_drop.
  pose proof (shareEnd_bound (length items) M i HM Hi). lia.
Qed.

(** An agent's share is empty exactly when there are fewer items than
    agents and the agent sits at position [N] or later. *)
Lemma shareSize_0 N M i : 1 ≤ M → shareSize N M i = 0 ↔ N < M ∧ N ≤ i.
Proof.
  intros HM. unfold shareSize.
  destruct (Nat.lt_ge_cases N M) as [Hlt|Hge].
  - rewrite Nat.div_small, Nat.mod_small by done.
    destruct (i <? N) eqn:Hi.
    + apply Nat.ltb_lt in Hi. lia.
    + apply Nat.ltb_ge in Hi. lia.
  - assert (1 ≤ N / M) by (apply Nat.div_le_lower_bound; lia). lia.
Qed.

(** Consecutive shares concatenate to a contiguous stretch of the
    input. *)
Lemma concat_shareOf {A} (items : list A) M i k :
  concat ((λ j, shareOf items M j) <$> seq i k)
  = take (shareStart (length items) M (i + k) - shareStart (length items) M i)
         (drop (shareStart (length items) M i) items).
Proof.
  revert i. induction k as [|k IH]; intros i; simpl.
  - rewrite Nat.add_0_r, Nat.sub_diag. done.
  - rewrite IH. unfold shareOf at 1.
    rewrite (shareStart_S _ _ i), <- drop_drop, take_take_drop.
    f_equal.
    pose proof (shareStart_mono (length items) M (S i) (S i + k) ltac:(lia)) as Hm.
    rewrite shareStart_S in Hm.
    replace (i + S k) with (S i + k) by lia. lia.
Qed.

Lemma concat_shareOf_all {A} (items : list A) M :
  1 ≤ M → concat ((λ j, shareOf items M j) <$> seq 0 M) = items.
Proof.
  intros HM. rewrite concat_shareOf. simpl.
  rewrite shareStart_0, shareStart_all by done.
  rewrite Nat.sub_0_r. simpl. by rewrite firstn_all.
Qed.

Lemma sum_shareSize N M : 1 ≤ M → sum_list (shareSize N M <$> seq 0 M) = N.
Proof.
  intros HM.
  assert (Hgen : ∀ k i, sum_list (shareSize N M <$> seq i k)
                        = shareStart N M (i + k) - shareStart N M i).
  { induction k as [|k IH]; intros i; simpl.
    - rewrite Nat.add_0_r. lia.
    - rewrite IH. replace (i + S k) with (S i + k) by lia.
      pose proof (shareStart_mono N M (S i) (S i + k) ltac:(lia)) as Hm.
      rewrite shareStart_S in Hm |- *. lia. }
  rewrite Hgen. simpl. rewrite shareStart_0, shareStart_all by done. lia.
Qed.

(** The loop's running index is the closed-form start, and its slices
    are the closed-form shares. *)
Lemma shares_closed (items : list ContactRecord) M ags i :
  shares items (length items / M) (length items mod M) i
         (shareStart (length items) M i) ags
  = imap (λ k a, (a, shareOf items M (i + k))) ags.
Proof.
  revert i. induction ags as [|a rest IH]; intros i; [done|].
  cbn [shares]. rewrite imap_cons. f_equal.
  - unfold JS.slice, shareOf, shareSize. rewrite Nat.add_0_r. do 2 f_equal. lia.
  - fold (shareSize (length items) M i). rewrite <- shareStart_S, IH.
    apply imap_ext. intros k b _. simpl. do 2 f_equal. lia.
Qed.

Lemma shares_fair (items : list ContactRecord) (agents : list Agent) :
  shares items (length items / length agents) (length items mod length agents)
         0 0 agents
  = fairShares items agents.
Proof.
  pose proof (shares_closed items (length agents) agents 0) as H.
  rewrite shareStart_0 in H. exact H.
Qed.

End FairShares.

(** ** Validated contacts *)

Section Validated.

Lemma validateRow_inr index row c :
  Controller.validateRow index row = inr c →
  c_firstName c = JS.trim (default "" (row !! "firstname"))
  ∧ c_phone c = JS.trim (default "" (row !! "phone"))
  ∧ c_notes c = JS.trim (default "" (row !! "notes"))
  ∧ c_firstName c ≠ "" ∧ c_phone c ≠ "" ∧ phonePattern (c_phone c) = true.
Proof.
  unfold Controller.validateRow.
  destruct (Controller.falsy (row !! "firstname")
            || JS.isEmpty (JS.trim (default "" (row !! "firstname")))) eqn:H1;
    [discriminate|].
  destruct (Controller.falsy (row !! "phone")
            || JS.isEmpty (JS.trim (default "" (row !! "phone")))) eqn:H2;
    [discriminate|].
  destruct (phonePattern (JS.trim (default "" (row !! "phone")))) eqn:H3;
    [|discriminate].
  simpl. intros [= <-]. simpl.
  apply orb_false_iff in H1 as [_ H1]. apply orb_false_iff in H2 as [_ H2].
  repeat split; try done.
  - intros E. rewrite E in H1. discriminate.
  - intros E. rewrite E in H2. discriminate.
Qed.

Lemma validated_cast c : validated c → castContact c = c.
Proof.
  intros (index & row & H). apply validateRow_inr in H as (H1 & H2 & H3 & _).
  destruct c as [f p n]. simpl in *. subst. unfold castContact. simpl.
  by rewrite !trim_idemp.
Qed.

Lemma persistedAs_view ud now l p :
  persistedAs ud now l p → Forall validated p.2 → listView l = shareView p.
Proof.
  intros [[id ->] _] Hv. unfold listView, shareView. simpl.
  rewrite contactOf_castItems. f_equal.
  rewrite <- (list_fmap_id p.2) at 2. apply Forall_fmap_ext_1.
  eapply Forall_impl; [exact Hv|]. intros c Hc. by apply validated_cast.
Qed.

Lemma persisted_views ud now new done :
  Forall2 (persistedAs ud now) new done →
  Forall (λ p, Forall validated p.2) done →
  listView <$> new = shareView <$> done.
Proof.
  induction 1 as [|l p new done Hlp _ IH]; [done|].
  rewrite Forall_cons. intros [Hp Hrest]. simpl.
  f_equal; [by eapply persistedAs_view | by apply IH].
Qed.

(** A share is a stretch of the input, so it inherits what holds of
    every item. *)
Lemma fairShares_Forall (P : ContactRecord → Prop) items agents p :
  Forall P items → p ∈ fairShares items agents → Forall P p.2.
Proof.
  intros HP Hp. apply elem_of_lookup_imap in Hp as (i & a & -> & _). simpl.
  unfold shareOf. by apply Forall_take, Forall_drop.
Qed.

Lemma prefix_nonEmptyShares_Forall (P : ContactRecord → Prop) items agents done :
  Forall P items →
  done `prefix_of` nonEmptyShares (fairShares items agents) →
  Forall (λ p, Forall P p.2) done.
Proof.
  intros HP [k Hk]. apply Forall_forall. intros p Hp.
  apply (fairShares_Forall P items agents); [done|].
  assert (p ∈ nonEmptyShares (fairShares items agents)) as Hin
    by (rewrite Hk; apply elem_of_app; by left).
  unfold nonEmptyShares in Hin. by apply list_elem_of_filter in Hin as [_ ?].
Qed.

Lemma prefix_fmap {A B} (f : A → B) (l1 l2 : list A) :
  l1 `prefix_of` l2 → f <$> l1 `prefix_of` f <$> l2.
Proof. intros [k ->]. rewrite fmap_app. by apply prefix_app_r. Qed.

End Validated.

(** ** C1: fair shares *)

(** C1. For N validated contacts and M >= 1 agents, distributeItems gives
    the agent at position i the contiguous slice of the input that starts
    where the previous one ended, of size floor(N/M)+1 when i < N mod M and
    floor(N/M) otherwise: the slices taken in order rebuild the input,
    their sizes sum to N, and the Sub-Lists that a run saves are, in agent
    order, the non-empty ones of these slices (all of them when the run
    returns, which it does whenever the contacts pass the schema). *)
Theorem distributeItems_fair_slices
    (items : list ContactRecord) (agents : list Agent) (ud : UploadData)
    (now : Date) (db : DB) (r : Error + list ListDoc) (db' : DB) :
  1 ≤ length agents →
  Forall validated items →
  distributeItems items agents ud now db = (r, db') →
  (∀ i, i < length agents →
     length (shareOf items (length agents) i)
     = if decide (i < length items mod length agents)
       then length items / length agents + 1
       else length items / length agents)
  ∧ concat ((λ i, shareOf items (length agents) i) <$> seq 0 (length agents)) = items
  ∧ sum_list ((λ i, length (shareOf items (length agents) i))
                <$> seq 0 (length agents)) = length items
  ∧ ∃ new,
      lists db' = lists db ++ new
      ∧ listView <$> new
        `prefix_of` shareView <$> nonEmptyShares (fairShares items agents)
      ∧ (∀ ds, r = inr ds →
           ds = new
           ∧ listView <$> ds = shareView <$> nonEmptyShares (fairShares items agents))
      ∧ (sliceOk ud items → ∃ ds, r = inr ds).
Proof.
  intros HM Hval Hrun.
  split; [|split; [|split]].
  - intros i Hi. rewrite length_shareOf by done. unfold shareSize.
    destruct (decide _) as [Hlt|Hge].
    + apply Nat.ltb_lt in Hlt. by rewrite Hlt.
    + apply Nat.nlt_ge, Nat.ltb_ge in Hge. rewrite Hge. lia.
  - by apply concat_shareOf_all.
  - transitivity (sum_list (shareSize (length items) (length agents)
                             <$> seq 0 (length agents)));
      [|by apply sum_shareSize].
    f_equal. apply list_eq. intros i. rewrite !list_lookup_fmap.
    destruct (seq 0 (length agents) !! i) as [j|] eqn:Hj; [|done]. simpl.
    apply lookup_seq in Hj as [-> Hj]. f_equal. by apply length_shareOf.
  - unfold distributeItems in Hrun.
    apply distributeLoop_run in Hrun as (done & new & Hpre & Hper & Hlists & _ & Hr).
    rewrite shares_fair in Hpre, Hr.
    assert (listView <$> new = shareView <$> done) as Hview.
    { eapply persisted_views; [exact Hper|].
      by eapply prefix_nonEmptyShares_Forall. }
    exists new. split; [done|]. split; [|split].
    + rewrite Hview. by apply prefix_fmap.
    + intros ds ->. destruct Hr as [Hds Hdone]. simpl in Hds. subst ds.
      split; [done|]. rewrite Hview. by f_equal.
    + intros [Hu Hc]. destruct r as [e|ds]; [|eexists; reflexivity].
      destruct Hr as (p & fs & Hp & _ & Hbad). exfalso. apply Hbad.
      split; [done|].
      assert (Forall (λ q, Forall (λ c, contactOk c = true) q.2) (done ++ [p])) as HF
        by (by eapply prefix_nonEmptyShares_Forall).
      apply Forall_app in HF as [_ HF]. rewrite Forall_singleton in HF. exact HF.
Qed.

(** ** C7: Sub-Lists and agent counters *)

Section AgentCounters.

Lemma filter_none {A} (P : A → Prop) `{∀ x, Decision (P x)} (l : list A) :
  Forall (λ x, ¬ P x) l → filter P l = [].
Proof.
  induction 1 as [|x l Hx _ IH]; [done|]. by rewrite filter_cons_False.
Qed.

Lemma nil_iff_length {A} (l : list A) : l = [] ↔ length l = 0.
Proof. destruct l; simpl; split; (done || lia). Qed.

Lemma filter_key_unique {A B} `{EqDecision B} (f : A → B) (v : B) (l : list A) :
  NoDup (f <$> l) →
  filter (λ x, f x = v) l = [] ∨ ∃ x, filter (λ x, f x = v) l = [x].
Proof.
  induction l as [|x l IH]; [by left|].
  rewrite fmap_cons, NoDup_cons. intros [Hx Hl].
  destruct (decide (f x = v)) as [Hv|Hv].
  - right. exists x. rewrite filter_cons_True by done. f_equal.
    apply filter_none. apply Forall_forall. intros y Hy Hfy. apply Hx.
    rewrite Hv, <- Hfy. by apply list_elem_of_fmap_2.
  - rewrite filter_cons_False by done. by apply IH.
Qed.

Lemma lookup_applyShare ags p j b :
  ags !! j = Some b →
  applyShare ags p !! j
  = Some (if bool_decide (agent_id b = agent_id p.1)
          then bump p.1 (length p.2) else b).
Proof. intros H. unfold applyShare, replaceAgent. by rewrite list_lookup_fmap, H. Qed.

(** After the increments of [done], a stored agent holds the bumped
    document of the share that names it, if there is one. *)
Lemma foldl_applyShare_lookup (done : list (Agent * list ContactRecord)) :
  NoDup ((λ p, agent_id p.1) <$> done) →
  ∀ ags j b, ags !! j = Some b →
    foldl applyShare ags done !! j
    = Some (match filter (λ p, agent_id p.1 = agent_id b) done with
            | [] => b
            | p :: _ => bump p.1 (length p.2)
            end).
Proof.
  induction done as [|p rest IH]; intros Hnd ags j b Hb; [done|].
  rewrite fmap_cons, NoDup_cons in Hnd. destruct Hnd as [Hp Hrest].
  simpl. erewrite IH; [|done|by apply lookup_applyShare].
  case_bool_decide as Hid.
  - rewrite filter_cons_True by done.
    rewrite (filter_none _ rest); [done|].
    apply Forall_forall. intros q Hq Hqid. apply Hp. simpl in Hqid.
    rewrite <- Hqid. by apply (list_elem_of_fmap_2 (λ p, agent_id p.1)).
  - by rewrite filter_cons_False by done.
Qed.

Lemma fst_fairShares items agents : fst <$> fairShares items agents = agents.
Proof.
  unfold fairShares. rewrite fmap_imap.
  rewrite <- (list_fmap_id agents) at 2. rewrite <- imap_const.
  by apply imap_ext.
Qed.

Lemma prefix_nonEmptyShares_sublist l (done : list (Agent * list ContactRecord)) :
  done `prefix_of` nonEmptyShares l → done `sublist_of` l.
Proof.
  intros [k Hk]. transitivity (nonEmptyShares l).
  - rewrite Hk. by apply sublist_inserts_r.
  - apply sublist_filter.
Qed.

Lemma persistedAs_agentId ud now l p :
  persistedAs ud now l p → agentId l = agent_id p.1.
Proof. by intros [[id ->] _]. Qed.

Lemma persistedAs_items ud now l p :
  persistedAs ud now l p →
  length (items l) = length p.2
  ∧ contactOf <$> items l = castContact <$> p.2
  ∧ counters_ok l
  ∧ uploadId l = ud_uploadId ud.
Proof.
  intros [[id ->] _]. simpl. rewrite length_castItems, contactOf_castItems.
  repeat split; done.
Qed.

End AgentCounters.

(** C7. In every run of distributeItems over agents with distinct ids, a
    Sub-List is saved only for a non-empty share: an agent whose share is
    empty (there are fewer items than agents and the agent sits at position
    N or later) gets none, every other agent gets exactly one when the run
    returns; and the stored document of each agent ends with
    assignedListsCount raised by the number of Sub-Lists saved for it (0 or
    1) and totalItemsAssigned raised by their item count. *)
Theorem distributeItems_sublists_and_counters
    (contacts : list ContactRecord) (team : list Agent) (ud : UploadData)
    (now : Date) (db : DB) (r : Error + list ListDoc) (db' : DB) :
  1 ≤ length team →
  NoDup (agent_id <$> team) →
  distributeItems contacts team ud now db = (r, db') →
  ∃ new,
    lists db' = lists db ++ new
    ∧ (∀ ds, r = inr ds → ds = new)
    ∧ Forall (λ l, 0 < length (items l) ∧ totalItems l = length (items l)) new
    ∧ ∀ i a, team !! i = Some a →
        let mine := filter (λ l, agentId l = agent_id a) new in
        (shareOf contacts (length team) i = []
         ↔ length contacts < length team ∧ length contacts ≤ i)
        ∧ length mine ≤ 1
        ∧ Forall (λ l, length (items l)
                       = length (shareOf contacts (length team) i)) mine
        ∧ (shareOf contacts (length team) i = [] → mine = [])
        ∧ (∀ ds, r = inr ds → shareOf contacts (length team) i ≠ [] → length mine = 1)
        ∧ ∀ j, (agents db) !! j = Some a →
            ∃ a', (agents db') !! j = Some a'
              ∧ assignedListsCount a'
                = (assignedListsCount a + Z.of_nat (length mine))%Z
              ∧ totalItemsAssigned a'
                = (totalItemsAssigned a
                   + Z.of_nat (sum_list ((λ l, length (items l)) <$> mine)))%Z.
Proof.
  intros HM Hnd Hrun. unfold distributeItems in Hrun.
  apply distributeLoop_run in Hrun as (got & new & Hpre & Hper & Hlists & Hags & Hr).
  rewrite shares_fair in Hpre, Hr.
  pose proof (prefix_nonEmptyShares_sublist _ _ Hpre) as Hsub.
  assert (NoDup ((λ p, agent_id p.1) <$> got)) as Hndg.
  { eapply sublist_NoDup; [|apply (fmap_sublist (λ p, agent_id p.1)), Hsub].
    replace ((λ p : Agent * list ContactRecord, agent_id p.1)
               <$> fairShares contacts team)
      with (agent_id <$> team); [done|].
    rewrite <- (fst_fairShares contacts team) at 1.
    by rewrite <- list_fmap_compose. }
  assert (∀ p, p ∈ got → 0 < length p.2 ∧ p ∈ fairShares contacts team) as Hgot.
  { intros p Hp. destruct Hpre as [k Hk].
    assert (p ∈ nonEmptyShares (fairShares contacts team)) as Hin
      by (rewrite Hk; apply elem_of_app; by left).
    by apply list_elem_of_filter in Hin. }
  exists new. split; [done|]. split; [|split].
  { intros ds ->. by destruct Hr as [-> _]. }
  { apply Forall_forall. intros l Hl.
    apply list_elem_of_lookup in Hl as [k Hk].
    destruct (Forall2_lookup_l _ _ _ _ _ Hper Hk) as (p & Hp & Hlp).
    apply persistedAs_items in Hlp as (Hlen & _ & (Htot & _) & _).
    split; [|done]. rewrite Hlen.
    apply Hgot, list_elem_of_lookup. eauto. }
  intros i a Hia mine.
  assert (Forall2 (persistedAs ud now) mine
            (filter (λ p, agent_id p.1 = agent_id a) got)) as Hmine.
  { apply Forall2_filter; [|done]. intros l p Hlp.
    by rewrite (persistedAs_agentId _ _ _ _ Hlp). }
  assert (∀ p, p ∈ got → agent_id p.1 = agent_id a
               → p = (a, shareOf contacts (length team) i)) as Hsame.
  { intros p Hp Hid. apply Hgot in Hp as [_ Hp].
    apply elem_of_lookup_imap in Hp as (i' & a' & -> & Hi'). simpl in Hid.
    assert (i' = i) as ->.
    { eapply (NoDup_lookup _ _ _ _ Hnd); rewrite list_lookup_fmap.
      - rewrite Hi'. simpl. by rewrite Hid.
      - by rewrite Hia. }
    congruence. }
  assert (i < length team) as Hi by (by eapply lookup_lt_Some).
  destruct (filter_key_unique (λ p, agent_id p.1) (agent_id a) got Hndg)
    as [Hnone|[p Hone]].
  - (* no Sub-List was saved for this agent *)
    rewrite Hnone in Hmine. apply Forall2_nil_inv_r in Hmine.
    split; [|split; [|split; [|split; [|split]]]].
    + rewrite nil_iff_length, length_shareOf, shareSize_0 by done. done.
    + rewrite Hmine. simpl. lia.
    + rewrite Hmine. constructor.
    + done.
    + intros ds -> Hne. exfalso. destruct Hr as [_ Hgoteq].
      assert ((a, shareOf contacts (length team) i) ∈ got) as Hin.
      { rewrite Hgoteq. apply list_elem_of_filter. split.
        - simpl. destruct (shareOf contacts (length team) i); [done|simpl; lia].
        - by apply (elem_of_lookup_imap_2
                      (λ i a, (a, shareOf contacts (length team) i)) team a i). }
      assert ((a, shareOf contacts (length team) i)
                ∈ filter (λ p, agent_id p.1 = agent_id a) got) as Hin'
        by (by apply list_elem_of_filter).
      rewrite Hnone in Hin'. by apply elem_of_nil in Hin'.
    + intros j Hj. exists a. rewrite Hags.
      rewrite (foldl_applyShare_lookup got Hndg _ j a Hj), Hnone, Hmine.
      simpl. split; [done|]. lia.
  - (* exactly one Sub-List was saved for this agent *)
    assert (p ∈ got ∧ agent_id p.1 = agent_id a) as [Hpg Hpid].
    { assert (p ∈ filter (λ p, agent_id p.1 = agent_id a) got) as Hin
        by (rewrite Hone; apply elem_of_cons; by left).
      apply list_elem_of_filter in Hin. tauto. }
    pose proof (Hsame p Hpg Hpid) as ->.
    apply Hgot in Hpg as [Hlen _]. simpl in Hlen.
    rewrite Hone in Hmine.
    apply Forall2_cons_inv_r in Hmine as (l & rest & Hlp & Hrest & Hm).
    apply Forall2_nil_inv_r in Hrest as ->.
    apply persistedAs_items in Hlp as (Hl & _).
    simpl in Hl.
    split; [|split; [|split; [|split; [|split]]]].
    + rewrite nil_iff_length, length_shareOf, shareSize_0 by done. done.
    + rewrite Hm. simpl. lia.
    + rewrite Hm. by repeat constructor.
    + intros Hempty. rewrite Hempty in Hlen. simpl in Hlen. lia.
    + intros ds _ _. by rewrite Hm.
    + intros j Hj. exists (bump a (length (shareOf contacts (length team) i))).
      rewrite Hags.
      rewrite (foldl_applyShare_lookup got Hndg _ j a Hj), Hone, Hm.
      simpl. rewrite Hl. split; [done|]. split; [lia|]. f_equal. lia.
Qed.

(** ** C2: the cached counters *)

Section Counters.

Lemma preSave_counters_ok now l : counters_ok (preSave now l).
Proof. by repeat split. Qed.

Lemma Forall_replaceList (P : ListDoc → Prop) l ls :
  P l → Forall P ls → Forall P (replaceList l ls).
Proof.
  intros Hl Hls. unfold replaceList. apply Forall_fmap.
  eapply Forall_impl; [exact Hls|]. intros d Hd. simpl.
  by case_bool_decide.
Qed.

(** A save that goes through stores the recomputed document; a rejected
    save stores nothing. *)
Lemma save_run isNew now l db r db' :
  save isNew now l db = (r, db') →
  (validate l = [] ∧ r = inr (preSave now l)
   ∧ lists db' = (if isNew then lists db ++ [preSave now l]
                  else replaceList (preSave now l) (lists db))
   ∧ agents db' = agents db)
  ∨ (∃ fs, validate l = fs ∧ fs ≠ [] ∧ r = inl (ValidationError fs) ∧ db' = db).
Proof.
  unfold save. destruct (validate l) as [|f fs] eqn:Hv; intros [= <- <-].
  - left. done.
  - right. by exists (f :: fs).
Qed.

Lemma save_counters isNew now l db r db' :
  save isNew now l db = (r, db') →
  Forall counters_ok (lists db) →
  Forall counters_ok (lists db') ∧ ∀ l', r = inr l' → counters_ok l'.
Proof.
  intros Hrun Hdb.
  apply save_run in Hrun as [(_ & -> & Hl & _)|(fs & _ & _ & -> & ->)].
  - split; [|intros l' [= <-]; apply preSave_counters_ok].
    rewrite Hl. destruct isNew.
    + apply Forall_app. split; [done|].
      apply Forall_singleton, preSave_counters_ok.
    + apply Forall_replaceList; [apply preSave_counters_ok|done].
  - split; [done|]. intros l' [=].
Qed.

Lemma updateItemStatus_counters this itemId st patch now db r db' :
  updateItemStatus this itemId st patch now db = (r, db') →
  Forall counters_ok (lists db) →
  Forall counters_ok (lists db') ∧ ∀ l', r = inr l' → counters_ok l'.
Proof.
  unfold updateItemStatus.
  destruct (itemsId itemId (items this)) as [[i item]|].
  - apply save_counters.
  - intros [= <- <-] Hdb. split; [done|]. intros l' [=].
Qed.

Lemma distributeItems_counters contacts team ud now db r db' :
  distributeItems contacts team ud now db = (r, db') →
  Forall counters_ok (lists db) →
  Forall counters_ok (lists db') ∧ ∀ ds, r = inr ds → Forall counters_ok ds.
Proof.
  intros Hrun Hdb. unfold distributeItems in Hrun.
  apply distributeLoop_run in Hrun as (got & new & _ & Hper & Hlists & _ & Hr).
  assert (Forall counters_ok new) as Hnew.
  { apply Forall_forall. intros l Hl.
    apply list_elem_of_lookup in Hl as [k Hk].
    destruct (Forall2_lookup_l _ _ _ _ _ Hper Hk) as (p & _ & Hlp).
    by apply persistedAs_items in Hlp as (_ & _ & Hc & _). }
  split.
  - rewrite Hlists. by apply Forall_app.
  - intros ds ->. by destruct Hr as [-> _].
Qed.

Lemma mapM_summarize_db ags ds db :
  (Controller.mapM (Controller.summarize ags) ds db).2 = db.
Proof.
  revert db. induction ds as [|d ds IH]; intros db; [done|].
  simpl. unfold bind at 1. unfold Controller.summarize at 1.
  destruct (list_find _ ags) as [[k a]|]; [|done].
  simpl. unfold bind at 1. specialize (IH db).
  destruct (Controller.mapM _ ds db) as [[e|ys] db1]; simpl in *; by subst.
Qed.

(** The steps of ingest, one after the other. *)
Lemma ingest_unfold data file user uuid now db :
  Controller.ingest data file user uuid now db
  = if 0 <? length (Controller.missingFields data) then
      (inl (Thrown ("Missing required columns: "
                    +:+ JS.join ", " (Controller.missingFields data)
                    +:+ ". Expected: FirstName, Phone, Notes")), db)
    else if 0 <? length (Controller.forEachRow 0 data [] []).2 then
      (inl (Thrown ("Data validation failed:" +:+ JS.nl
                    +:+ JS.join JS.nl (Controller.forEachRow 0 data [] []).2)), db)
    else if length (Controller.forEachRow 0 data [] []).1 =? 0 then
      (inl (Thrown "No valid data rows found in the file"), db)
    else if length (activeAgents db) =? 0 then
      (inl (Thrown "No active agents available for distribution"), db)
    else
      match distributeItems (Controller.forEachRow 0 data [] []).1 (activeAgents db)
              {| ud_uploadId := uuid;
                 ud_fileName := Controller.filename file;
                 ud_originalFileName := Controller.originalname file;
                 ud_uploadedBy := user |} now db with
      | (inl e, db1) => (inl e, db1)
      | (inr ds, db1) =>
          match Controller.mapM (Controller.summarize (activeAgents db)) ds db1 with
          | (inl e, db2) => (inl e, db2)
          | (inr summary, db2) =>
              (inr {| Controller.res_uploadId := uuid;
                      Controller.res_totalItems :=
                        length (Controller.forEachRow 0 data [] []).1;
                      Controller.res_totalAgents := length (activeAgents db);
                      Controller.res_distributions := summary |}, db2)
          end
      end.
Proof.
  unfold Controller.ingest.
  destruct (0 <? length (Controller.missingFields data)); [done|].
  destruct (Controller.forEachRow 0 data [] []) as [validatedData errors]. simpl.
  destruct (0 <? length errors); [done|].
  destruct (length validatedData =? 0); [done|].
  unfold bind, findActiveAgents.
  destruct (length (activeAgents db) =? 0); done.
Qed.

(** Whatever ingest answers, the lists it leaves behind are the old
    ones followed by what distributeItems saved. *)
Lemma ingest_lists data file user uuid now db :
  lists (Controller.ingest data file user uuid now db).2 = lists db
  ∨ ∃ contacts team ud r db1,
      distributeItems contacts team ud now db = (r, db1)
      ∧ lists (Controller.ingest data file user uuid now db).2 = lists db1.
Proof.
  rewrite ingest_unfold.
  destruct (0 <? length (Controller.missingFields data)); [by left|].
  destruct (0 <? length (Controller.forEachRow 0 data [] []).2); [by left|].
  destruct (length (Controller.forEachRow 0 data [] []).1 =? 0); [by left|].
  destruct (length (activeAgents db) =? 0); [by left|].
  right.
  match goal with
  | |- context [distributeItems ?c ?t ?u now db] =>
      exists c, t, u; destruct (distributeItems c t u now db) as [[e|ds] db1] eqn:Hd
  end.
  - by exists (inl e), db1.
  - exists (inr ds), db1. split; [done|].
    pose proof (mapM_summarize_db (activeAgents db) ds db1) as Hs.
    destruct (Controller.mapM _ ds db1) as [[e|ys] db2]; simpl in *; by subst.
Qed.

Lemma handle_counters db req :
  Forall counters_ok (lists db) → Forall counters_ok (lists (handle db req)).
Proof.
  intros Hdb. destruct req as [data file user uuid now
                              |listId itemId status notes now|listId]; simpl.
  - unfold Controller.uploadAndDistribute.
    destruct (ingest_lists data file user uuid now db)
      as [Hsame|(contacts & team & ud & r & db1 & Hd & Hl)].
    + destruct (Controller.ingest _ _ _ _ _ db) as [[e|res] db2]; simpl in *;
        by rewrite Hsame.
    + apply distributeItems_counters in Hd as [Hd _]; [|done].
      destruct (Controller.ingest _ _ _ _ _ db) as [[e|res] db2]; simpl in *;
        by rewrite Hl.
  - unfold Controller.updateItemStatus.
    destruct (Controller.parseStatus status) as [st|]; [|done].
    destruct (Controller.findListById listId db) as [[pos list]|]; [|done].
    match goal with
    | |- context [updateItemStatus ?l ?i ?s ?p ?n ?d] =>
        destruct (updateItemStatus l i s p n d) as [[e|l'] db1] eqn:Hu
    end.
    + apply updateItemStatus_counters in Hu as [Hu _]; [|done].
      destruct e as [m|fs]; [|done].
      repeat (match goal with
              | |- context [match ?x with _ => _ end] => destruct x
              end; try done).
    + by apply updateItemStatus_counters in Hu as [Hu _].
  - unfold Controller.deleteList.
    destruct (Controller.findListById listId db) as [[pos list]|]; [|done].
    simpl. apply Forall_delete.
    by destruct (Controller.findAgentById (agentId list) db).
Qed.

End Counters.

(** C2. After every request that writes Sub-Lists (an upload, an item
    status update, a deletion), every stored Sub-List has
    totalItems = items.length, completedItems = the number of completed
    items and pendingItems = the number of pending items; and the document
    that a successful save returns carries the counters recomputed from its
    item array alone, whatever the counters said before. *)
Theorem counters_recomputed_on_every_save (db : DB) (reqs : list Request) :
  Forall counters_ok (lists db) →
  Forall counters_ok (lists (foldl handle db reqs))
  ∧ (∀ isNew now l l' db1 db2,
       save isNew now l db1 = (inr l', db2) →
       counters_ok l' ∧ items l' = items l
       ∧ ∀ l2, items l2 = items l →
           totalItems (preSave now l2) = totalItems l'
           ∧ completedItems (preSave now l2) = completedItems l'
           ∧ pendingItems (preSave now l2) = pendingItems l')
  ∧ (∀ this itemId st patch now db1 l' db2,
       updateItemStatus this itemId st patch now db1 = (inr l', db2) →
       counters_ok l')
  ∧ (∀ contacts team ud now db1 ds db2,
       distributeItems contacts team ud now db1 = (inr ds, db2) →
       Forall counters_ok ds ∧ ∃ old, lists db2 = old ++ ds).
Proof.
  intros Hdb. split; [|split; [|split]].
  - revert db Hdb. induction reqs as [|req reqs IH]; intros db Hdb; [done|].
    simpl. apply IH. by apply handle_counters.
  - intros isNew now l l' db1 db2 Hsave.
    apply save_run in Hsave as [(_ & [= ->] & _)|(fs & _ & _ & [=] & _)].
    split; [apply preSave_counters_ok|]. split; [done|].
    intros l2 Hl2. simpl. by rewrite Hl2.
  - intros this itemId st patch now db1 l' db2 Hu.
    unfold updateItemStatus in Hu.
    destruct (itemsId itemId (items this)) as [[i item]|]; [|discriminate].
    apply save_run in Hu as [(_ & [= ->] & _)|(fs & _ & _ & [=] & _)].
    apply preSave_counters_ok.
  - intros contacts team ud now db1 ds db2 Hd. unfold distributeItems in Hd.
    apply distributeLoop_run in Hd as (got & new & _ & Hper & Hlists & _ & Hds & _).
    simpl in Hds. subst ds. split; [|by exists (lists db1)].
    apply Forall_forall. intros l Hl.
    apply list_elem_of_lookup in Hl as [k Hk].
    destruct (Forall2_lookup_l _ _ _ _ _ Hper Hk) as (p & _ & Hlp).
    by apply persistedAs_items in Hlp as (_ & _ & Hc & _).
Qed.

(** ** C4: re-applying a status *)

Section Idempotence.

Lemma stampStatus_fields now st it :
  status (stampStatus now st it) = st
  ∧ item_id (stampStatus now st it) = item_id it
  ∧ contactedAt (stampStatus now st it)
    = (if bool_decide (st = contacted)
       then Some (default now (contactedAt it)) else contactedAt it)
  ∧ completedAt (stampStatus now st it)
    = (if bool_decide (st = completed)
       then Some (default now (completedAt it)) else completedAt it).
Proof.
  unfold stampStatus.
  destruct st, (contactedAt it) as [c|] eqn:Hc, (completedAt it) as [d|] eqn:Hd;
    simpl; rewrite ?Hc, ?Hd; simpl; rewrite ?Hc, ?Hd; done.
Qed.

Lemma assignPatch_neutral it p :
  statusNeutral p →
  status (assignPatch it p) = status it
  ∧ item_id (assignPatch it p) = item_id it
  ∧ contactedAt (assignPatch it p) = contactedAt it
  ∧ completedAt (assignPatch it p) = completedAt it.
Proof. intros (H1 & H2 & H3). unfold assignPatch. simpl. by rewrite H1, H2, H3. Qed.

(** Stamping a status that the item already went through changes
    nothing. *)
Lemma stampStatus_again t1 t2 st it :
  stampStatus t2 st (stampStatus t1 st it) = stampStatus t1 st it.
Proof.
  unfold stampStatus.
  destruct st, (contactedAt it) as [c|] eqn:Hc, (completedAt it) as [d|] eqn:Hd;
    simpl; rewrite ?Hc, ?Hd; simpl; rewrite ?Hc, ?Hd; done.
Qed.

Lemma stampStatus_same_dates t st it :
  status it = st →
  (st = contacted → is_Some (contactedAt it)) →
  (st = completed → is_Some (completedAt it)) →
  stampStatus t st it = it.
Proof.
  intros <- Hc Hd. destruct it as [id f p n s c d]. simpl in *.
  unfold stampStatus. simpl.
  destruct s; simpl; try done.
  - destruct Hc as [x ->]; done.
  - destruct Hd as [x ->]; done.
Qed.

Lemma count_status_insert (s : Status) (l : list ListItem) i it it' :
  l !! i = Some it → status it' = status it →
  length (filter (λ x, status x = s) (<[i := it']> l))
  = length (filter (λ x, status x = s) l).
Proof.
  intros Hi Hst.
  rewrite insert_take_drop by (by eapply lookup_lt_Some).
  rewrite <- (take_drop_middle l i it Hi) at 3.
  rewrite !filter_app, !length_app. f_equal.
  destruct (decide (status it = s)) as [Hs|Hs].
  - rewrite !filter_cons_True by congruence. done.
  - rewrite !filter_cons_False by congruence. done.
Qed.

Lemma itemsId_insert itemId (l : list ListItem) i it it' :
  itemsId itemId l = Some (i, it) → item_id it' = itemId →
  itemsId itemId (<[i := it']> l) = Some (i, it').
Proof.
  unfold itemsId. intros Hf Hid.
  apply list_find_Some in Hf as (Hi & _ & Hlt).
  apply list_find_Some. split; [|split; [done|]].
  - apply list_lookup_insert_eq. by eapply lookup_lt_Some.
  - intros j y Hj Hji. rewrite list_lookup_insert_ne in Hj by lia. by eapply Hlt.
Qed.

Lemma assignPatch_again it p : assignPatch (assignPatch it p) p = assignPatch it p.
Proof.
  destruct p as [pf pp pn ps pc pd]. unfold assignPatch. simpl.
  destruct pf, pp, pn, ps, pc, pd; done.
Qed.

Lemma assignPatch_noPatch it : assignPatch it noPatch = it.
Proof. by destruct it. Qed.

Lemma itemsId_found itemId l i it :
  itemsId itemId l = Some (i, it) → l !! i = Some it ∧ item_id it = itemId.
Proof. unfold itemsId. intros H. apply list_find_Some in H. tauto. Qed.

End Idempotence.

(** C4. Let a status update succeed, and let the same status be applied
    to the same item again, neither call overriding the status or the
    dates through its extra fields. The first call stamps contactedAt
    (completedAt) only if the item enters "contacted" ("completed") with
    the date still unset. After the second call the stored Sub-List has
    the same contactedAt and completedAt for the item and the same three
    counters: either the save is rejected and nothing is written, or it
    goes through with these values unchanged; it goes through whenever the
    extra fields are the same as in the first call or absent. *)
Theorem updateItemStatus_same_status_idempotent
    (l0 l1 : ListDoc) (itemId : ObjectId) (st : Status) (p1 p2 : ItemPatch)
    (t1 t2 : Date) (db0 db1 db2 : DB) (r2 : Error + ListDoc) :
  statusNeutral p1 → statusNeutral p2 →
  updateItemStatus l0 itemId st p1 t1 db0 = (inr l1, db1) →
  updateItemStatus l1 itemId st p2 t2 db1 = (r2, db2) →
  ∃ i it0 it1,
    itemsId itemId (items l0) = Some (i, it0)
    ∧ itemsId itemId (items l1) = Some (i, it1)
    ∧ status it1 = st
    ∧ contactedAt it1
      = (if bool_decide (st = contacted)
         then Some (default t1 (contactedAt it0)) else contactedAt it0)
    ∧ completedAt it1
      = (if bool_decide (st = completed)
         then Some (default t1 (completedAt it0)) else completedAt it0)
    ∧ match r2 with
      | inr l2 =>
          ∃ it2, itemsId itemId (items l2) = Some (i, it2)
                 ∧ status it2 = st
                 ∧ contactedAt it2 = contactedAt it1
                 ∧ completedAt it2 = completedAt it1
                 ∧ totalItems l2 = totalItems l1
                 ∧ completedItems l2 = completedItems l1
                 ∧ pendingItems l2 = pendingItems l1
      | inl _ => db2 = db1
      end
    ∧ (p2 = p1 ∨ p2 = noPatch → ∃ l2, r2 = inr l2).
Proof.
  intros Hp1 Hp2 H1 H2.
  unfold updateItemStatus in H1.
  destruct (itemsId itemId (items l0)) as [[i it0]|] eqn:Hf0; [|discriminate].
  pose proof (itemsId_found _ _ _ _ Hf0) as [Hi0 Hid0].
  set (it1 := assignPatch (stampStatus t1 st it0) p1) in *.
  apply save_run in H1 as [(Hv1 & [= ->] & _)|(fs & _ & _ & [=] & _)].
  destruct (stampStatus_fields t1 st it0) as (Hs & Hid & Hc & Hd).
  destruct (assignPatch_neutral (stampStatus t1 st it0) p1 Hp1) as (Hs1 & Hid1 & Hc1 & Hd1).
  fold it1 in Hs1, Hid1, Hc1, Hd1.
  rewrite Hs in Hs1. rewrite Hid, Hid0 in Hid1. rewrite Hc in Hc1. rewrite Hd in Hd1.
  assert (itemsId itemId (<[i := it1]> (items l0)) = Some (i, it1)) as Hf1
    by (by apply (itemsId_insert _ _ _ it0)).
  pose proof (itemsId_found _ _ _ _ Hf1) as [Hi1 _].
  assert (stampStatus t2 st it1 = it1) as Hstamp.
  { apply stampStatus_same_dates; [done| |].
    - intros ->. rewrite Hc1. simpl. by eexists.
    - intros ->. rewrite Hd1. simpl. by eexists. }
  exists i, it0, it1.
  split; [done|]. split; [exact Hf1|]. split; [done|]. split; [done|]. split; [done|].
  unfold updateItemStatus in H2. cbn [items preSave withItems] in H2.
  rewrite Hf1, Hstamp in H2.
  destruct (assignPatch_neutral it1 p2 Hp2) as (Hs2 & Hid2 & Hc2 & Hd2).
  apply save_run in H2 as [(Hv2 & -> & _)|(fs & Hv2 & Hne & -> & ->)].
  - split; [|intros _; by eexists].
    exists (assignPatch it1 p2). cbn [items preSave withItems totalItems
                                      completedItems pendingItems].
    split; [apply (itemsId_insert _ _ _ it1); [done|congruence]|].
    split; [congruence|]. split; [done|]. split; [done|].
    rewrite length_insert.
    rewrite !(count_status_insert _ _ i it1 (assignPatch it1 p2)) by done.
    done.
  - split; [done|]. intros Hsame. exfalso. apply Hne. rewrite <- Hv2.
    assert (assignPatch it1 p2 = it1) as ->.
    { destruct Hsame as [-> | ->]; [apply assignPatch_again|apply assignPatch_noPatch]. }
    rewrite list_insert_id by done. exact Hv1.
Qed.

(** ** C3, C6: row validation *)

Section Rows.

Lemma forEachRow_from k data v e :
  Controller.forEachRow k data v e
  = (v ++ omap rowContact (imap (λ i, Controller.validateRow (k + i)) data),
     e ++ omap rowError (imap (λ i, Controller.validateRow (k + i)) data)).
Proof.
  revert k v e. induction data as [|row rest IH]; intros k v e.
  - simpl. by rewrite !app_nil_r.
  - cbn [Controller.forEachRow]. rewrite imap_cons, Nat.add_0_r.
    assert (imap ((λ i, Controller.validateRow (k + i)) ∘ S) rest
            = imap (λ i, Controller.validateRow (S k + i)) rest) as ->.
    { apply imap_ext. intros i r _. simpl. f_equal. lia. }
    destruct (Controller.validateRow k row) as [msg|c]; rewrite IH; simpl;
      by rewrite <- !app_assoc.
Qed.

Lemma forEachRow_all data :
  Controller.forEachRow 0 data [] [] = (rowContacts data, rowErrors data).
Proof. by rewrite forEachRow_from. Qed.

Lemma elem_of_rowErrors data msg :
  msg ∈ rowErrors data
  ↔ ∃ i row, data !! i = Some row ∧ Controller.validateRow i row = inl msg.
Proof.
  unfold rowErrors. rewrite list_elem_of_omap. split.
  - intros (o & Ho & Hmsg). apply elem_of_lookup_imap in Ho as (i & row & -> & Hi).
    exists i, row. split; [done|].
    destruct (Controller.validateRow i row); simpl in Hmsg; congruence.
  - intros (i & row & Hi & Hv). exists (inl msg). split; [|done].
    rewrite <- Hv. by apply (elem_of_lookup_imap_2 Controller.validateRow).
Qed.

(** Every message names the row by its index plus two. *)
Lemma validateRow_inl i row msg :
  Controller.validateRow i row = inl msg →
  ∃ reason, reason ∈ validationReasons
            ∧ msg = "Row " +:+ pretty (i + 2) +:+ ": " +:+ reason.
Proof.
  unfold Controller.validateRow, Controller.rowError, validationReasons.
  repeat match goal with
         | |- context [if ?b then _ else _] => destruct b
         end; intros [= <-]; eexists; (split; [|reflexivity]); set_solver.
Qed.

(** When no row fails, every row contributes its contact. *)
Lemma rowErrors_nil data :
  rowErrors data = [] →
  imap Controller.validateRow data = inr <$> rowContacts data
  ∧ length (rowContacts data) = length data.
Proof.
  unfold rowErrors, rowContacts.
  generalize Controller.validateRow as f.
  induction data as [|row rest IH]; intros f; [done|].
  rewrite imap_cons. simpl.
  destruct (f 0 row) as [msg|c]; simpl; [discriminate|].
  intros H. destruct (IH _ H) as [IH1 IH2].
  split; [by f_equal|by f_equal].
Qed.

End Rows.

(** C3. If one or more rows fail the first-name or phone rules, the upload
    is answered with a failure and the database is left as it was, so no
    Sub-List is created; when the required columns are present the
    failure carries the messages of all failing rows, in row order; and
    every message names its row by the 0-based index plus 2, so the first
    data row is reported as row 2. *)
Theorem uploadAndDistribute_rejects_invalid_rows
    (data : list Row) (file : Controller.File) (user : ObjectId)
    (uuid : string) (now : Date) (db : DB) :
  (∃ i row msg, data !! i = Some row ∧ Controller.validateRow i row = inl msg) →
  (∃ e, Controller.uploadAndDistribute data file user uuid now db
        = (Failure 400 e, db))
  ∧ (Controller.missingFields data = [] →
     Controller.uploadAndDistribute data file user uuid now db
     = (Failure 400 (Thrown ("Data validation failed:" +:+ JS.nl
                             +:+ JS.join JS.nl (rowErrors data))), db))
  ∧ (∀ msg, msg ∈ rowErrors data
            ↔ ∃ i row, data !! i = Some row
                       ∧ Controller.validateRow i row = inl msg)
  ∧ (∀ i row msg, Controller.validateRow i row = inl msg →
       ∃ reason, reason ∈ validationReasons
                 ∧ msg = "Row " +:+ pretty (i + 2) +:+ ": " +:+ reason)
  ∧ (∀ row msg, Controller.validateRow 0 row = inl msg →
       ∃ reason, msg = "Row 2: " +:+ reason).
Proof.
  intros (i & row & msg & Hi & Hv).
  assert ((0 <? length (rowErrors data)) = true) as Herr.
  { apply Nat.ltb_lt.
    assert (msg ∈ rowErrors data) as Hin by (apply elem_of_rowErrors; eauto).
    destruct (rowErrors data); [by apply elem_of_nil in Hin|simpl; lia]. }
  split; [|split; [|split; [|split]]].
  - unfold Controller.uploadAndDistribute. rewrite ingest_unfold, forEachRow_all.
    simpl. rewrite Herr.
    destruct (0 <? length (Controller.missingFields data)); by eexists.
  - intros Hm. unfold Controller.uploadAndDistribute.
    rewrite ingest_unfold, forEachRow_all, Hm. simpl. by rewrite Herr.
  - apply elem_of_rowErrors.
  - apply validateRow_inl.
  - intros row0 msg0 H0. apply validateRow_inl in H0 as (reason & _ & ->).
    by exists reason.
Qed.

Section EmptyInput.

Lemma missingFields_nil_data data :
  Controller.missingFields data = [] → 0 < length data.
Proof.
  destruct data as [|row rest]; [|simpl; lia].
  unfold Controller.missingFields, Controller.lacksField. simpl. discriminate.
Qed.

Lemma distributeItems_error contacts team ud now db e db1 :
  distributeItems contacts team ud now db = (inl e, db1) →
  ∃ fs, e = ValidationError fs.
Proof.
  intros Hd. unfold distributeItems in Hd.
  apply distributeLoop_run in Hd as (got & new & _ & _ & _ & _ & p & fs & _ & -> & _).
  by exists fs.
Qed.

Lemma mapM_summarize_error ags ds db e db1 :
  Controller.mapM (Controller.summarize ags) ds db = (inl e, db1) →
  e = Thrown "Cannot read properties of undefined (reading 'name')".
Proof.
  revert db. induction ds as [|d ds IH]; intros db; [discriminate|].
  simpl. unfold bind at 1. unfold Controller.summarize at 1.
  destruct (list_find _ ags) as [[k a]|]; [|by intros [= <- _]].
  simpl. unfold bind at 1. specialize (IH db).
  destruct (Controller.mapM _ ds db) as [[e'|ys] db2]; [|discriminate].
  intros [= <- <-]. by apply IH.
Qed.

(** The throw of line 122 is never reached: an input without rows stops
    at the column check, and an input with rows and no row error has a
    contact for every row. *)
Lemma no_valid_rows_unreachable data file user uuid now db :
  (Controller.uploadAndDistribute data file user uuid now db).1
  ≠ Failure 400 (Thrown "No valid data rows found in the file").
Proof.
  unfold Controller.uploadAndDistribute. rewrite ingest_unfold, forEachRow_all.
  cbn [fst snd].
  destruct (0 <? length (Controller.missingFields data)) eqn:Hm; [simpl; discriminate|].
  destruct (0 <? length (rowErrors data)) eqn:He; [simpl; discriminate|].
  apply Nat.ltb_ge in Hm, He.
  assert (Controller.missingFields data = []) as Hm' by (apply nil_length_inv; lia).
  assert (rowErrors data = []) as He' by (apply nil_length_inv; lia).
  apply missingFields_nil_data in Hm'. apply rowErrors_nil in He' as [_ He'].
  destruct (length (rowContacts data) =? 0) eqn:Hz;
    [apply Nat.eqb_eq in Hz; lia|].
  destruct (length (activeAgents db) =? 0); [simpl; discriminate|].
  match goal with
  | |- context [distributeItems ?c ?t ?u now db] =>
      destruct (distributeItems c t u now db) as [[e|ds] db1] eqn:Hd
  end.
  - apply distributeItems_error in Hd as [fs ->]. simpl. discriminate.
  - destruct (Controller.mapM _ ds db1) as [[e|ys] db2] eqn:Hs; [|simpl; discriminate].
    apply mapM_summarize_error in Hs as ->. simpl. discriminate.
Qed.

End EmptyInput.

(** C6, on the code: the ingestion of a file without data rows is
    answered with the missing-columns message, which names all three
    columns; and no ingestion at all is answered with the no-data message
    of line 122. *)
Theorem uploadAndDistribute_no_rows
    (file : Controller.File) (user : ObjectId) (uuid : string) (now : Date)
    (db : DB) :
  Controller.uploadAndDistribute [] file user uuid now db
  = (Failure 400
       (Thrown "Missing required columns: firstname, phone, notes. Expected: FirstName, Phone, Notes"),
     db)
  ∧ ∀ data, (Controller.uploadAndDistribute data file user uuid now db).1
            ≠ Failure 400 (Thrown "No valid data rows found in the file").
Proof.
  split.
  - reflexivity.
  - intros data. apply no_valid_rows_unreachable.
Qed.

(** ** C5: notes *)

Section Notes.

Lemma distributeItems_run contacts team ud now db r db' :
  distributeItems contacts team ud now db = (r, db') →
  ∃ got new,
    got `prefix_of` nonEmptyShares (fairShares contacts team)
    ∧ Forall2 (persistedAs ud now) new got
    ∧ lists db' = lists db ++ new
    ∧ match r with
      | inr ds => ds = new ∧ got = nonEmptyShares (fairShares contacts team)
      | inl e => ∃ fs, e = ValidationError fs
      end.
Proof.
  intros Hd. unfold distributeItems in Hd.
  apply distributeLoop_run in Hd as (got & new & Hpre & Hper & Hlists & _ & Hr).
  rewrite shares_fair in Hpre, Hr. exists got, new.
  split; [done|]. split; [done|]. split; [done|].
  destruct r as [e|ds].
  - destruct Hr as (p & fs & _ & -> & _). by exists fs.
  - done.
Qed.

Lemma concat_nonEmptyShares (l : list (Agent * list ContactRecord)) :
  concat (snd <$> nonEmptyShares l) = concat (snd <$> l).
Proof.
  unfold nonEmptyShares. induction l as [|[a sl] l IH]; [done|].
  destruct sl as [|c sl].
  - rewrite filter_cons_False by (simpl; lia). rewrite fmap_cons. exact IH.
  - rewrite filter_cons_True by (simpl; lia). rewrite !fmap_cons.
    cbn [concat]. by f_equal.
Qed.

Lemma concat_fairShares contacts team :
  1 ≤ length team → concat (snd <$> fairShares contacts team) = contacts.
Proof.
  intros HM. unfold fairShares. rewrite fmap_imap.
  transitivity (concat ((λ i, shareOf contacts (length team) i)
                          <$> seq 0 (length team)));
    [|by apply concat_shareOf_all].
  f_equal. rewrite <- (imap_seq_0 team (λ i, shareOf contacts (length team) i)).
  by apply imap_ext.
Qed.

Lemma concat_fmap_fmap {A B} (f : A → B) (ls : list (list A)) :
  concat ((λ l : list A, f <$> l) <$> ls) = f <$> concat ls.
Proof.
  induction ls as [|l ls IH]; [done|].
  rewrite fmap_cons. cbn [concat]. by rewrite fmap_app, IH.
Qed.

Lemma rowContacts_validated data : Forall validated (rowContacts data).
Proof.
  apply Forall_forall. intros c Hc. unfold rowContacts in Hc.
  apply list_elem_of_omap in Hc as (o & Ho & Hoc).
  apply elem_of_lookup_imap in Ho as (i & row & -> & _).
  exists i, row. destruct (Controller.validateRow i row); simpl in Hoc; congruence.
Qed.

Lemma rowContacts_notes data :
  rowErrors data = [] →
  c_notes <$> rowContacts data = trimmedNotes <$> data.
Proof.
  intros He. apply rowErrors_nil in He as [He Hlen].
  apply list_eq. intros i. rewrite !list_lookup_fmap.
  assert (imap Controller.validateRow data !! i = (inr <$> rowContacts data) !! i) as Hi
    by (by rewrite He).
  rewrite list_lookup_imap, list_lookup_fmap in Hi.
  destruct (data !! i) as [row|], (rowContacts data !! i) as [c|];
    simpl in *; try done.
  injection Hi as Hi. apply validateRow_inr in Hi as (_ & _ & Hn & _).
  by rewrite Hn.
Qed.

(** A contact that the schema refuses makes every run fail. *)
Lemma distributeItems_rejects contacts team ud now db r db1 c :
  1 ≤ length team →
  c ∈ contacts → contactOk c = false →
  distributeItems contacts team ud now db = (r, db1) →
  ∃ fs, r = inl (ValidationError fs).
Proof.
  intros HM Hc Hbad Hd.
  apply distributeItems_run in Hd as (got & new & _ & Hper & _ & Hr).
  destruct r as [e|ds]; [destruct Hr as [fs ->]; by exists fs|].
  destruct Hr as [_ ->]. exfalso.
  assert (Forall (λ p, sliceOk ud p.2) (nonEmptyShares (fairShares contacts team)))
    as Hok.
  { eapply Forall2_Forall_r; [exact Hper|].
    apply Forall_forall. intros l _ p [_ Hp]. exact Hp. }
  assert (Forall (λ c, contactOk c = true)
            (concat (snd <$> nonEmptyShares (fairShares contacts team)))) as Hall.
  { clear Hper. induction Hok as [|p ps [_ Hp] _ IH]; [constructor|].
    rewrite fmap_cons. cbn [concat]. apply Forall_app. by split. }
  rewrite concat_nonEmptyShares, concat_fairShares in Hall by done.
  rewrite Forall_forall in Hall. specialize (Hall c Hc). congruence.
Qed.

End Notes.

(** C5 does not hold with truncation: this row passes the first-name and
    phone rules, its notes reach the validated contact at their full 501
    characters, and the upload is answered with the schema's complaint
    about the notes; no Sub-List is stored. *)
Lemma long_notes_fail_the_upload :
  (∃ c, Controller.validateRow 0 longNotesRow = inr c
        ∧ String.length (c_notes c) = 501)
  ∧ ∃ db',
      Controller.uploadAndDistribute [longNotesRow] contactsFile 7%N "batch-1" 0%Z
                                     oneAgentDb
      = (Failure 400
           (ValidationError [("items.0.notes", "Notes cannot exceed 500 characters")]),
         db')
      ∧ lists db' = [].
Proof.
  split.
  - eexists. split; vm_compute; reflexivity.
  - eexists. split; vm_compute; reflexivity.
Qed.

(** C5, amended. For an upload whose rows all pass the first-name and
    phone rules, the notes of every validated contact are the trimmed
    notes cell (the empty string for a missing cell), at their full
    length; a row whose trimmed notes are longer than 500 characters makes
    the upload fail, by the schema validation of the save of its Sub-List
    when there are active agents; and when the upload succeeds, every
    trimmed notes cell is at most 500 characters long and the notes stored
    in the new Sub-Lists are, in row order, exactly the trimmed cells. *)
Theorem notes_trimmed_not_truncated
    (data : list Row) (file : Controller.File) (user : ObjectId)
    (uuid : string) (now : Date) (db : DB) :
  Controller.missingFields data = [] →
  rowErrors data = [] →
  c_notes <$> (Controller.forEachRow 0 data [] []).1 = trimmedNotes <$> data
  ∧ ((∃ row, row ∈ data ∧ 500 < String.length (trimmedNotes row)) →
     ∃ e db', Controller.uploadAndDistribute data file user uuid now db
              = (Failure 400 e, db')
              ∧ (activeAgents db ≠ [] → ∃ fs, e = ValidationError fs))
  ∧ (∀ res db', Controller.uploadAndDistribute data file user uuid now db
                = (Success res, db') →
       Forall (λ row, String.length (trimmedNotes row) ≤ 500) data
       ∧ ∃ new, lists db' = lists db ++ new
                ∧ concat ((λ l, notes <$> items l) <$> new) = trimmedNotes <$> data).
Proof.
  intros Hm He.
  pose proof (rowContacts_notes data He) as Hnotes.
  pose proof (rowErrors_nil data He) as [_ Hlen].
  pose proof (missingFields_nil_data data Hm) as Hdata.
  assert (∀ c, c ∈ rowContacts data → contactOk c = true →
               String.length (c_notes c) ≤ 500) as Hshort.
  { intros c Hc Hok. unfold contactOk, itemOk in Hok. simpl in Hok.
    rewrite !andb_true_iff in Hok.
    destruct Hok as (_ & Hn). apply negb_true_iff, Nat.ltb_ge in Hn.
    pose proof (rowContacts_validated data) as Hv. rewrite Forall_forall in Hv.
    apply Hv, validated_cast in Hc. unfold castContact in Hc.
    destruct c as [f p n]. simpl in *. injection Hc as _ _ Hc. by rewrite Hc in Hn. }
  unfold Controller.uploadAndDistribute.
  rewrite ingest_unfold, forEachRow_all, Hm, He. cbn [fst snd length Nat.ltb Nat.leb].
  destruct (length (rowContacts data) =? 0) eqn:Hz; [apply Nat.eqb_eq in Hz; lia|].
  split; [done|]. split.
  - intros (row & Hrow & Hlong).
    destruct (length (activeAgents db) =? 0) eqn:Ha.
    { eexists _, _. split; [reflexivity|]. intros Hags.
      apply Nat.eqb_eq, nil_length_inv in Ha. done. }
    apply Nat.eqb_neq in Ha.
    assert (∃ c, c ∈ rowContacts data ∧ contactOk c = false) as (c & Hc & Hbad).
    { apply list_elem_of_lookup in Hrow as [i Hi].
      assert ((trimmedNotes <$> data) !! i = Some (trimmedNotes row)) as Hi'
        by (by rewrite list_lookup_fmap, Hi).
      rewrite <- Hnotes, list_lookup_fmap in Hi'.
      destruct (rowContacts data !! i) as [c|] eqn:Hci; [|done].
      injection Hi' as Hi'. exists c. split; [apply list_elem_of_lookup; eauto|].
      destruct (contactOk c) eqn:Hok; [|done].
      exfalso. apply Hshort in Hok; [|apply list_elem_of_lookup; eauto].
      rewrite Hi' in Hok. lia. }
    match goal with
    | |- context [distributeItems ?c ?t ?u now db] =>
        destruct (distributeItems c t u now db) as [r db1] eqn:Hd
    end.
    eapply distributeItems_rejects in Hd as [fs ->]; [|lia|done..].
    exists (ValidationError fs), db1. split; [done|]. intros _. by exists fs.
  - intros res db'.
    destruct (length (activeAgents db) =? 0) eqn:Ha; [discriminate|].
    apply Nat.eqb_neq in Ha.
    match goal with
    | |- context [distributeItems ?c ?t ?u now db] =>
        destruct (distributeItems c t u now db) as [[e|ds] db1] eqn:Hd
    end; [discriminate|].
    pose proof (mapM_summarize_db (activeAgents db) ds db1) as Hs.
    destruct (Controller.mapM _ ds db1) as [[e|ys] db2]; [discriminate|].
    simpl in Hs. intros [= _ <-]. subst db2.
    split.
    + apply Forall_forall. intros row Hrow.
      apply list_elem_of_lookup in Hrow as [i Hi].
      assert ((trimmedNotes <$> data) !! i = Some (trimmedNotes row)) as Hi'
        by (by rewrite list_lookup_fmap, Hi).
      rewrite <- Hnotes, list_lookup_fmap in Hi'.
      destruct (rowContacts data !! i) as [c|] eqn:Hci; [|done].
      injection Hi' as Hi'. rewrite <- Hi'.
      assert (c ∈ rowContacts data) as Hc by (apply list_elem_of_lookup; eauto).
      apply Hshort; [done|].
      destruct (contactOk c) eqn:Hok; [done|].
      eapply distributeItems_rejects in Hd as [fs [=]]; [lia|done..].
    + apply distributeItems_run in Hd as (got & new & Hpre & Hper & Hlists & -> & ->).
      exists new. split; [done|].
      assert (listView <$> new
              = shareView <$> nonEmptyShares (fairShares (rowContacts data) (activeAgents db)))
        as Hview.
      { eapply persisted_views; [exact Hper|].
        eapply prefix_nonEmptyShares_Forall; [apply rowContacts_validated|done]. }
      transitivity (c_notes <$> concat (snd <$> (listView <$> new))).
      * rewrite <- concat_fmap_fmap. f_equal.
        rewrite <- !list_fmap_compose. apply list_fmap_ext. intros _ l _. simpl.
        rewrite <- list_fmap_compose. by apply list_fmap_ext.
      * rewrite Hview.
        replace (snd <$> (shareView <$> nonEmptyShares
                            (fairShares (rowContacts data) (activeAgents db))))
          with (snd <$> nonEmptyShares (fairShares (rowContacts data) (activeAgents db)))
          by (rewrite <- list_fmap_compose; by apply list_fmap_ext).
        rewrite concat_nonEmptyShares, concat_fairShares by lia. done.
Qed.

(** ** C8, C10: aggregate reports *)

Section Aggregates.

Lemma sumField_cons path d docs :
  Controller.sumField path (d :: docs)
  = (default 0 (Controller.numericField path d) + Controller.sumField path docs)%Z.
Proof. reflexivity. Qed.

Lemma numericField_paths d :
  Controller.numericField "totalItems" d = Some (Z.of_nat (totalItems d))
  ∧ Controller.numericField "completedItems" d = Some (Z.of_nat (completedItems d))
  ∧ Controller.numericField "pendingItems" d = Some (Z.of_nat (pendingItems d))
  ∧ Controller.numericField "inProgressItems" d = None.
Proof. repeat split; reflexivity. Qed.

Lemma sumField_totalItems docs :
  Controller.sumField "totalItems" docs = sumOf totalItems docs.
Proof.
  unfold sumOf. induction docs as [|d docs IH]; [done|].
  rewrite sumField_cons, IH, (proj1 (numericField_paths d)).
  rewrite fmap_cons. cbn [sum_list_with sum_list default].
  unfold sum_list, id in *. lia.
Qed.

Lemma sumField_completedItems docs :
  Controller.sumField "completedItems" docs = sumOf completedItems docs.
Proof.
  unfold sumOf. induction docs as [|d docs IH]; [done|].
  rewrite sumField_cons, IH, (proj1 (proj2 (numericField_paths d))).
  rewrite fmap_cons. cbn [sum_list_with sum_list default].
  unfold sum_list, id in *. lia.
Qed.

Lemma sumField_pendingItems docs :
  Controller.sumField "pendingItems" docs = sumOf pendingItems docs.
Proof.
  unfold sumOf. induction docs as [|d docs IH]; [done|].
  rewrite sumField_cons, IH, (proj1 (proj2 (proj2 (numericField_paths d)))).
  rewrite fmap_cons. cbn [sum_list_with sum_list default].
  unfold sum_list, id in *. lia.
Qed.

(** No document has an [inProgressItems] path, so its sum is 0. *)
Lemma sumField_inProgressItems docs :
  Controller.sumField "inProgressItems" docs = 0%Z.
Proof.
  induction docs as [|d docs IH]; [done|].
  by rewrite sumField_cons, IH, (proj2 (proj2 (proj2 (numericField_paths d)))).
Qed.

Lemma completed_le_total docs :
  Forall counters_ok docs → (sumOf completedItems docs ≤ sumOf totalItems docs)%Z.
Proof.
  unfold sumOf. intros H. apply inj_le.
  induction H as [|d docs (Ht & Hc & _) _ IH]; [done|].
  rewrite !fmap_cons. cbn [sum_list_with sum_list]. unfold sum_list, id in *.
  pose proof (length_filter (λ it, status it = completed) (items d)). lia.
Qed.

Lemma overallStatus_cases c t :
  (0 ≤ c ≤ t)%Z →
  (Controller.overallStatus c t = "completed" ↔ c = t)
  ∧ (Controller.overallStatus c t = "in_progress" ↔ (0 < c < t)%Z)
  ∧ (Controller.overallStatus c t = "pending" ↔ c ≠ t ∧ ¬ (0 < c < t)%Z).
Proof.
  intros Hct. unfold Controller.overallStatus.
  destruct (c =? t)%Z eqn:He; [apply Z.eqb_eq in He|apply Z.eqb_neq in He];
    [|destruct (0 <? c)%Z eqn:Hp; [apply Z.ltb_lt in Hp|apply Z.ltb_ge in Hp]];
    (split; [|split]); split; intros H; try discriminate; try done; try lia.
Qed.

(** The documents that come out of the [$group] stage. *)
Lemma elem_of_groupByUpload docs d :
  d ∈ Controller.groupByUpload docs ↔
  ∃ first rest,
    filter (λ l, uploadId l = Controller.d_id d) docs = first :: rest
    ∧ d = Controller.groupOf (Controller.d_id d) first (first :: rest).
Proof.
  unfold Controller.groupByUpload. rewrite list_elem_of_omap. split.
  - intros (key & _ & Hd).
    destruct (filter (λ l, uploadId l = key) docs) as [|first rest] eqn:Hf; [done|].
    injection Hd as <-. simpl. by exists first, rest.
  - intros (first & rest & Hf & Hd). exists (Controller.d_id d). split.
    + apply elem_of_remove_dups, list_elem_of_fmap.
      exists first. assert (first ∈ filter (λ l, uploadId l = Controller.d_id d) docs)
        as Hin by (rewrite Hf; apply elem_of_cons; by left).
      apply list_elem_of_filter in Hin as [Hu Hin]. done.
    + by rewrite Hf, <- Hd.
Qed.

Lemma elem_of_page {A} (R : relation A) `{RelDecision A A R} skip limit (l : list A) x :
  x ∈ take limit (drop skip (merge_sort R l)) → x ∈ l.
Proof.
  intros Hx. rewrite <- (merge_sort_Permutation R l).
  eapply elem_of_sublist; [exact Hx|].
  transitivity (drop skip (merge_sort R l)); [apply sublist_take|apply sublist_drop].
Qed.

Lemma matchFilter_unfiltered status l :
  status = None ∨ status = Some "all" → Controller.matchFilter status l = true.
Proof. by intros [-> | ->]. Qed.

Lemma filter_all {A} (P : A → Prop) `{∀ x, Decision (P x)} (l : list A) :
  Forall P l → filter P l = l.
Proof.
  induction 1 as [|x l Hx _ IH]; [done|]. rewrite filter_cons_True by done.
  by f_equal.
Qed.

Lemma Forall_filter_keeps {A} (P Q : A → Prop) `{∀ x, Decision (Q x)} (l : list A) :
  Forall P l → Forall P (filter Q l).
Proof.
  rewrite !Forall_forall. intros HP x Hx.
  apply list_elem_of_filter in Hx as [_ Hx]. by apply HP.
Qed.

Lemma length_groupByUpload docs :
  length (Controller.groupByUpload docs) ≤ length (remove_dups (uploadId <$> docs)).
Proof.
  unfold Controller.groupByUpload. generalize (remove_dups (uploadId <$> docs)).
  intros keys. induction keys as [|k keys IH]; [done|].
  cbn [omap list_omap]. destruct (filter _ docs); simpl; lia.
Qed.

Lemma groupByUpload_has docs l :
  l ∈ docs → ∃ d, d ∈ Controller.groupByUpload docs ∧ Controller.d_id d = uploadId l.
Proof.
  intros Hl.
  destruct (filter (λ x, uploadId x = uploadId l) docs) as [|first rest] eqn:Hf.
  - exfalso. eapply (filter_nil_not_elem_of _ docs l Hf); done.
  - exists (Controller.groupOf (uploadId l) first (first :: rest)). split; [|done].
    apply elem_of_groupByUpload. exists first, rest. done.
Qed.

Lemma first_page_is_everything {A} (R : relation A) `{RelDecision A A R}
    limit (l : list A) x :
  length l ≤ limit → x ∈ l → x ∈ take limit (drop 0 (merge_sort R l)).
Proof.
  intros Hlen Hx. rewrite drop_0, take_ge.
  - by rewrite merge_sort_Permutation.
  - by rewrite merge_sort_Permutation.
Qed.

End Aggregates.

(** Asked for the status "pending", getAllDistributions reports the batch
    of five items, one of them completed, with the counters of its
    untouched Sub-List alone: two items, none completed, "pending". The
    sums over the Sub-Lists that share the uploadId are 5 and 1, which
    makes the batch "in_progress". *)
Lemma status_filter_reports_part_of_the_batch :
  ∃ d, Controller.getAllDistributions (Some "pending") 0 10 partlyDoneDb
       = Success ([d], 1)
       ∧ filter (λ l, uploadId l = Controller.d_id d) (lists partlyDoneDb)
         = [untouchedList; startedList]
       ∧ Controller.d_totalItems d = 2%Z
       ∧ sumOf totalItems [untouchedList; startedList] = 5%Z
       ∧ Controller.d_completedItems d = 0%Z
       ∧ sumOf completedItems [untouchedList; startedList] = 1%Z
       ∧ Controller.d_status d = "pending"
       ∧ Controller.overallStatus
           (sumOf completedItems [untouchedList; startedList])
           (sumOf totalItems [untouchedList; startedList]) = "in_progress"
       ∧ Controller.d_totalItems d ≠ sumOf totalItems [untouchedList; startedList]
       ∧ Controller.d_status d
         ≠ Controller.overallStatus
             (sumOf completedItems [untouchedList; startedList])
             (sumOf totalItems [untouchedList; startedList]).
Proof.
  exists (Controller.groupOf "batch-9" untouchedList [untouchedList]).
  split; [vm_compute; reflexivity|].
  split; [vm_compute; reflexivity|].
  repeat split; try (vm_compute; reflexivity); vm_compute; discriminate.
Qed.

(** C8. Every batch that getAllDistributions reports carries the sums of
    totalItems, completedItems and pendingItems over the Sub-Lists of its
    uploadId that pass the status filter (all of them when no filter is
    asked for) and, the stored counters being consistent, the status
    "completed" iff the summed completedItems equals the summed
    totalItems, "in_progress" iff it lies strictly between 0 and the
    summed totalItems, and "pending" otherwise; a first page that is long
    enough reports every batch. *)
Theorem getAllDistributions_sums_and_status
    (status : option string) (skip limit : nat) (db : DB)
    (ds : list Controller.Distribution) (total : nat) (d : Controller.Distribution) :
  Forall counters_ok (lists db) →
  Controller.getAllDistributions status skip limit db = Success (ds, total) →
  d ∈ ds →
  batchMembers status (Controller.d_id d) db ≠ []
  ∧ Controller.d_lists d = batchMembers status (Controller.d_id d) db
  ∧ Controller.d_totalItems d
    = sumOf totalItems (batchMembers status (Controller.d_id d) db)
  ∧ Controller.d_completedItems d
    = sumOf completedItems (batchMembers status (Controller.d_id d) db)
  ∧ Controller.d_pendingItems d
    = sumOf pendingItems (batchMembers status (Controller.d_id d) db)
  ∧ (Controller.d_status d = "completed"
     ↔ Controller.d_completedItems d = Controller.d_totalItems d)
  ∧ (Controller.d_status d = "in_progress"
     ↔ (0 < Controller.d_completedItems d < Controller.d_totalItems d)%Z)
  ∧ (Controller.d_status d = "pending"
     ↔ Controller.d_completedItems d ≠ Controller.d_totalItems d
       ∧ ¬ (0 < Controller.d_completedItems d < Controller.d_totalItems d)%Z)
  ∧ (status = None ∨ status = Some "all" →
     batchMembers status (Controller.d_id d) db
     = filter (λ l, uploadId l = Controller.d_id d) (lists db))
  ∧ (skip = 0 → total ≤ limit →
     ∀ l, l ∈ lists db → Controller.matchFilter status l = true →
          ∃ d', d' ∈ ds ∧ Controller.d_id d' = uploadId l).
Proof.
  intros Hok Hget Hd. unfold Controller.getAllDistributions in Hget.
  injection Hget as <- <-.
  pose proof Hd as Hd'. apply elem_of_page in Hd'.
  apply elem_of_groupByUpload in Hd' as (first & rest & Hf & Hgroup).
  fold (batchMembers status (Controller.d_id d) db) in Hf.
  assert (Forall counters_ok (batchMembers status (Controller.d_id d) db)) as Hmem.
  { unfold batchMembers. by do 2 apply Forall_filter_keeps. }
  pose proof (completed_le_total _ Hmem) as Hle.
  assert (0 ≤ sumOf completedItems (batchMembers status (Controller.d_id d) db))%Z
    as Hnn by (unfold sumOf; lia).
  rewrite Hf in *. rewrite Hgroup.
  cbn [Controller.groupOf Controller.d_lists Controller.d_totalItems
       Controller.d_completedItems Controller.d_pendingItems Controller.d_status
       Controller.d_id].
  rewrite sumField_totalItems, sumField_completedItems, sumField_pendingItems.
  destruct (overallStatus_cases _ _ (conj Hnn Hle)) as (H1 & H2 & H3).
  split; [done|]. split; [done|]. split; [done|]. split; [done|]. split; [done|].
  split; [exact H1|]. split; [exact H2|]. split; [exact H3|]. split.
  - intros Hall. rewrite <- Hf. unfold batchMembers. f_equal.
    apply filter_all, Forall_forall. intros l _. by apply matchFilter_unfiltered.
  - intros -> Hlim l Hl Hmatch.
    destruct (groupByUpload_has
                (filter (λ l, Controller.matchFilter status l = true) (lists db)) l)
      as (d' & Hd1 & Hd2); [by apply list_elem_of_filter|].
    exists d'. split; [|done].
    apply first_page_is_everything; [|done].
    etransitivity; [apply length_groupByUpload|done].
Qed.

(** C10. No Sub-List has a path inProgressItems, whatever the status of
    its items, so the figure summed from it is 0 in every report that is
    sent: in each batch that getAllDistributions answers, in the stats of
    getDistributions and in the dashboard. The per-agent report is never
    sent: getAgentLists answers 500 for every agent and every database,
    the cast of line 353 throwing before the pipeline is run. *)
Theorem inProgressItems_always_zero
    (db : DB) (status : option string) (skip limit : nat)
    (agent : ObjectId) (upload : string) :
  match Controller.getAllDistributions status skip limit db with
  | Success (ds, _) => Forall (λ d, Controller.d_inProgressItems d = 0%Z) ds
  | Failure _ _ => True
  end
  ∧ Controller.getAgentLists agent db
    = Failure 500 (Thrown "Failed to fetch agent lists")
  ∧ match Controller.getDistributions upload db with
    | Success (_, st) => Controller.s_inProgressItems st = 0%Z
    | Failure code _ => code = 404 ∧ filter (λ l, uploadId l = upload) (lists db) = []
    end
  ∧ (∃ st, Controller.getDashboardStats db = Success st
           ∧ Controller.ds_inProgressItems st = 0%Z)
  ∧ Forall (λ l, Controller.numericField "inProgressItems" l = None) (lists db).
Proof.
  assert (∀ docs, Controller.s_inProgressItems
                    (default Controller.zeroStats (head (Controller.groupAll docs)))
                  = 0%Z) as Hstats.
  { intros [|l docs]; [done|]. simpl. apply (sumField_inProgressItems (l :: docs)). }
  split; [|split; [|split; [|split]]].
  - unfold Controller.getAllDistributions.
    apply Forall_forall. intros d Hd. apply elem_of_page in Hd.
    apply elem_of_groupByUpload in Hd as (first & rest & _ & ->).
    apply sumField_inProgressItems.
  - unfold Controller.getAgentLists, Controller.schemaObjAgentIdCast. reflexivity.
  - unfold Controller.getDistributions.
    destruct (filter (λ l, uploadId l = upload) (lists db)) as [|l docs] eqn:Hf.
    + done.
    + cbn [length Nat.eqb]. apply (Hstats (l :: docs)).
  - eexists. split; [reflexivity|]. simpl.
    destruct (lists db) as [|l docs]; [done|].
    apply (sumField_inProgressItems (l :: docs)).
  - apply Forall_forall. intros l _. apply numericField_paths.
Qed.

(** ** C9: deleting a Sub-List *)

Section Delete.

Lemma findAgentById_replaceAgent id a a' db :
  Controller.findAgentById id db = Some a →
  agent_id a' = agent_id a →
  Controller.findAgentById id
    {| lists := lists db; agents := replaceAgent a' (agents db); nextId := nextId db |}
  = Some a'.
Proof.
  unfold Controller.findAgentById, replaceAgent. intros Hf Hid. simpl.
  destruct (list_find (λ b, agent_id b = id) (agents db)) as [[i b]|] eqn:Hfind;
    [|done].
  simpl in Hf. injection Hf as ->.
  apply list_find_Some in Hfind as (Hi & Hida & Hlt).
  erewrite (proj2 (list_find_Some _ _ i a')); [done|].
  split; [|split].
  - rewrite list_lookup_fmap, Hi. simpl. rewrite Hid.
    by rewrite bool_decide_eq_true_2.
  - congruence.
  - intros j y Hj Hji. rewrite list_lookup_fmap in Hj.
    destruct (agents db !! j) as [b|] eqn:Hb; [|done]. simpl in Hj.
    injection Hj as <-. specialize (Hlt j b Hb Hji).
    case_bool_decide; congruence.
Qed.

End Delete.

(** C9. Deleting a stored Sub-List whose agent exists answers with
    success, removes the Sub-List, and leaves the agent with
    assignedListsCount = max(0, old - 1) and
    totalItemsAssigned = max(0, old - k), k being the number of items of
    the Sub-List: the exact differences when the old counters are large
    enough, and never a negative number; the other agents are
    untouched. *)
Theorem deleteList_decrements_floored
    (listId : ObjectId) (db : DB) (pos : nat) (list : ListDoc) (agent : Agent) :
  Controller.findListById listId db = Some (pos, list) →
  Controller.findAgentById (agentId list) db = Some agent →
  counters_ok list →
  ∃ db' agent',
    Controller.deleteList listId db = (Success (), db')
    ∧ lists db' = delete pos (lists db)
    ∧ Controller.findAgentById (agentId list) db' = Some agent'
    ∧ assignedListsCount agent' = (0 `max` (assignedListsCount agent - 1))%Z
    ∧ totalItemsAssigned agent'
      = (0 `max` (totalItemsAssigned agent - Z.of_nat (length (items list))))%Z
    ∧ (0 ≤ assignedListsCount agent')%Z
    ∧ (0 ≤ totalItemsAssigned agent')%Z
    ∧ ((1 ≤ assignedListsCount agent)%Z →
       assignedListsCount agent' = (assignedListsCount agent - 1)%Z)
    ∧ ((Z.of_nat (length (items list)) ≤ totalItemsAssigned agent)%Z →
       totalItemsAssigned agent'
       = (totalItemsAssigned agent - Z.of_nat (length (items list)))%Z)
    ∧ ∀ j b, agents db !! j = Some b → agent_id b ≠ agentId list →
             agents db' !! j = Some b.
Proof.
  intros Hl Ha (Htot & _).
  unfold Controller.deleteList. rewrite Hl, Ha. cbn [saveAgent snd].
  eexists _, _. split; [reflexivity|]. cbn [lists agents].
  assert (agent_id agent = agentId list) as Hid.
  { unfold Controller.findAgentById in Ha.
    destruct (list_find _ (agents db)) as [[i b]|] eqn:Hf; [|done].
    simpl in Ha. injection Ha as ->. by apply list_find_Some in Hf as (_ & ? & _). }
  split; [done|]. split.
  { apply (findAgentById_replaceAgent _ agent _
             {| lists := delete pos (lists db); agents := agents db;
                nextId := nextId db |}); done. }
  cbn [assignedListsCount totalItemsAssigned]. rewrite Htot.
  split; [done|]. split; [done|]. split; [lia|]. split; [lia|].
  split; [lia|]. split; [lia|].
  intros j b Hj Hne. unfold replaceAgent. rewrite list_lookup_fmap, Hj. simpl.
  rewrite bool_decide_eq_false_2; [done|]. congruence.
Qed.

(** * Checks on the worked inputs *)

(** Seven contacts over three agents: Sub-Lists of 3, 2 and 2 items, for
    the agents in creation order. *)
Example seven_over_three :
  (λ l, (agentId l, totalItems l, firstName <$> items l)) <$> lists afterUpload
  = [ (2%N, 3, ["Ada"; "Bob"; "Cy"]);
      (3%N, 2, ["Di"; "Ed"]);
      (1%N, 2, ["Flo"; "Gus"]) ]
  ∧ (λ a, (agent_id a, assignedListsCount a, totalItemsAssigned a)) <$> agents afterUpload
    = [ (1%N, 1%Z, 2%Z); (2%N, 1%Z, 3%Z); (3%N, 1%Z, 2%Z) ].
Proof. split; vm_compute; reflexivity. Qed.

(** Two contacts over three agents: the third agent gets no Sub-List and
    keeps its counters. *)
Example two_over_three :
  let db := (distributeItems (take 2 sevenContacts) threeAgents batchOne 50
                             threeAgentDb).2 in
  (λ l, (agentId l, totalItems l)) <$> lists db = [ (2%N, 1); (3%N, 1) ]
  ∧ (λ a, (agent_id a, assignedListsCount a, totalItemsAssigned a)) <$> agents db
    = [ (1%N, 0%Z, 0%Z); (2%N, 1%Z, 1%Z); (3%N, 1%Z, 1%Z) ].
Proof. split; vm_compute; reflexivity. Qed.

(** Ten items, four completed, in two Sub-Lists of one upload. *)
Example ten_items_four_completed :
  (λ d, (Controller.d_id d, Controller.d_totalItems d, Controller.d_completedItems d,
         Controller.d_pendingItems d, Controller.d_inProgressItems d,
         Controller.d_status d)) <$> tenItemsPage
  = [ ("batch-9", 10%Z, 4%Z, 6%Z, 0%Z, "in_progress") ].
Proof. vm_compute. reflexivity. Qed.

(** The seven contacts and the three agents meet the assumptions of the
    fair-share theorem. *)
Lemma distributeItems_fair_slices_witness :
  1 ≤ length threeAgents
  ∧ Forall validated sevenContacts
  ∧ sum_list ((λ i, length (shareOf sevenContacts (length threeAgents) i))
                <$> seq 0 (length threeAgents))
    = length sevenContacts.
Proof.
  assert (1 ≤ length threeAgents) as H1 by (simpl; lia).
  assert (Forall validated sevenContacts) as H2.
  { let l := eval vm_compute in sevenContacts in change sevenContacts with l.
    apply Forall_cons; split;
      [exists 0, (default ∅ (sevenRows !! 0)); vm_compute; reflexivity|].
    apply Forall_cons; split;
      [exists 1, (default ∅ (sevenRows !! 1)); vm_compute; reflexivity|].
    apply Forall_cons; split;
      [exists 2, (default ∅ (sevenRows !! 2)); vm_compute; reflexivity|].
    apply Forall_cons; split;
      [exists 3, (default ∅ (sevenRows !! 3)); vm_compute; reflexivity|].
    apply Forall_cons; split;
      [exists 4, (default ∅ (sevenRows !! 4)); vm_compute; reflexivity|].
    apply Forall_cons; split;
      [exists 5, (default ∅ (sevenRows !! 5)); vm_compute; reflexivity|].
    apply Forall_cons; split;
      [exists 6, (default ∅ (sevenRows !! 6)); vm_compute; reflexivity|].
    apply Forall_nil_2. }
  split; [exact H1|]. split; [exact H2|].
  exact (proj1 (proj2 (proj2
    (distributeItems_fair_slices sevenContacts threeAgents batchOne 50 threeAgentDb
       _ _ H1 H2 (surjective_pairing _))))).
Defined.

(** The three agents have distinct ids. *)
Lemma distributeItems_sublists_and_counters_witness :
  1 ≤ length threeAgents
  ∧ NoDup (agent_id <$> threeAgents)
  ∧ ∃ new,
      lists (distributeItems sevenContacts threeAgents batchOne 50 threeAgentDb).2
      = lists threeAgentDb ++ new.
Proof.
  assert (1 ≤ length threeAgents) as H1 by (simpl; lia).
  assert (NoDup (agent_id <$> threeAgents)) as H2
    by (apply (bool_decide_unpack _); vm_compute; exact I).
  split; [exact H1|]. split; [exact H2|].
  destruct (distributeItems_sublists_and_counters sevenContacts threeAgents batchOne
              50 threeAgentDb _ _ H1 H2 (surjective_pairing _)) as (new & Hnew & _).
  exists new. exact Hnew.
Defined.

(** An upload, two status updates and a deletion, from a database
    without Sub-Lists. *)
Lemma counters_recomputed_on_every_save_witness :
  Forall counters_ok (lists threeAgentDb)
  ∧ Forall counters_ok
      (lists (foldl handle threeAgentDb
                [ Upload sevenRows contactsFile 7 "batch-1" 50;
                  UpdateItem 100 101 "completed" (Some "done") 60;
                  UpdateItem 100 102 "contacted" None 61;
                  DeleteList 104 ])).
Proof.
  assert (Forall counters_ok (lists threeAgentDb)) as H by constructor.
  split; [exact H|].
  exact (proj1 (counters_recomputed_on_every_save threeAgentDb _ H)).
Defined.

(** A single row with the phone "abc": row 2, invalid phone number
    format. *)
Lemma uploadAndDistribute_rejects_invalid_rows_witness :
  (∃ i row msg, [contactRow "Ann" "abc" ""] !! i = Some row
                ∧ Controller.validateRow i row = inl msg)
  ∧ Controller.uploadAndDistribute [contactRow "Ann" "abc" ""] contactsFile 7
                                   "batch-2" 50 threeAgentDb
    = (Failure 400
         (Thrown ("Data validation failed:" +:+ JS.nl
                  +:+ JS.join JS.nl (rowErrors [contactRow "Ann" "abc" ""]))),
       threeAgentDb).
Proof.
  assert (∃ i row msg, [contactRow "Ann" "abc" ""] !! i = Some row
                       ∧ Controller.validateRow i row = inl msg) as H.
  { exists 0, (contactRow "Ann" "abc" ""), "Row 2: Invalid phone number format".
    split; vm_compute; reflexivity. }
  split; [exact H|].
  apply (proj1 (proj2 (uploadAndDistribute_rejects_invalid_rows
                         [contactRow "Ann" "abc" ""] contactsFile 7 "batch-2" 50
                         threeAgentDb H))).
  vm_compute. reflexivity.
Defined.

Example contacted_twice_keeps_the_first_date :
  (λ l, (contactedAt <$> items l, totalItems l, completedItems l, pendingItems l))
    <$> [firstList; firstListContacted;
         match contactedTwice.1 with inr l => l | inl _ => firstList end]
  = [ ([None; None; None], 3, 0, 3);
      ([Some 60%Z; None; None], 3, 0, 2);
      ([Some 60%Z; None; None], 3, 0, 2) ].
Proof. vm_compute. reflexivity. Qed.

Example requests_keep_the_counters :
  (λ l, (list_id l, status <$> items l, totalItems l, completedItems l, pendingItems l))
    <$> lists (foldl handle threeAgentDb
                 [ Upload sevenRows contactsFile 7 "batch-1" 50;
                   UpdateItem 100 101 "completed" (Some "done") 60;
                   UpdateItem 100 102 "contacted" None 61;
                   DeleteList 104 ])
  = [ (100%N, [completed; contacted; pending], 3, 1, 1);
      (107%N, [pending; pending], 2, 0, 2) ].
Proof. vm_compute. reflexivity. Qed.

(** Marking the same item as contacted twice, without extra fields. *)
Lemma updateItemStatus_same_status_idempotent_witness :
  statusNeutral noPatch
  ∧ updateItemStatus firstList 101 contacted noPatch 60 afterUpload
    = (inr firstListContacted, contactedOnce.2)
  ∧ ∃ l2, contactedTwice.1 = inr l2.
Proof.
  assert (statusNeutral noPatch) as Hp by (repeat split).
  assert (updateItemStatus firstList 101 contacted noPatch 60 afterUpload
          = (inr firstListContacted, contactedOnce.2)) as H1
    by (vm_compute; reflexivity).
  split; [exact Hp|]. split; [exact H1|].
  destruct (updateItemStatus_same_status_idempotent
              firstList firstListContacted 101 contacted noPatch noPatch 60 90
              afterUpload contactedOnce.2 contactedTwice.2 contactedTwice.1
              Hp Hp H1 (surjective_pairing _))
    as (i & it0 & it1 & _ & _ & _ & _ & _ & _ & Hagain).
  apply Hagain. by left.
Defined.

(** The seven rows have the three columns and all pass. *)
Lemma notes_trimmed_not_truncated_witness :
  Controller.missingFields sevenRows = []
  ∧ rowErrors sevenRows = []
  ∧ c_notes <$> (Controller.forEachRow 0 sevenRows [] []).1
    = trimmedNotes <$> sevenRows.
Proof.
  assert (Controller.missingFields sevenRows = []) as H1 by (vm_compute; reflexivity).
  assert (rowErrors sevenRows = []) as H2 by (vm_compute; reflexivity).
  split; [exact H1|]. split; [exact H2|].
  exact (proj1 (notes_trimmed_not_truncated sevenRows contactsFile 7 "batch-1" 50
                  threeAgentDb H1 H2)).
Defined.

(** The batch of ten items is on the first page and is in progress. *)
Lemma getAllDistributions_sums_and_status_witness :
  Forall counters_ok (lists tenItemsDb)
  ∧ Controller.getAllDistributions None 0 10 tenItemsDb = Success (tenItemsPage, 1)
  ∧ tenItemsBatch ∈ tenItemsPage
  ∧ (Controller.d_status tenItemsBatch = "in_progress"
     ↔ (0 < Controller.d_completedItems tenItemsBatch
          < Controller.d_totalItems tenItemsBatch)%Z).
Proof.
  assert (Forall counters_ok (lists tenItemsDb)) as H1
    by (repeat constructor).
  assert (Controller.getAllDistributions None 0 10 tenItemsDb
          = Success (tenItemsPage, 1)) as H2 by (vm_compute; reflexivity).
  assert (tenItemsBatch ∈ tenItemsPage) as H3 by (vm_compute; constructor).
  split; [exact H1|]. split; [exact H2|]. split; [exact H3|].
  destruct (getAllDistributions_sums_and_status None 0 10 tenItemsDb tenItemsPage 1
              tenItemsBatch H1 H2 H3) as (_ & _ & _ & _ & _ & _ & Hin & _).
  exact Hin.
Defined.

(** Deleting a Sub-List of five items from an agent whose counters say
    one list and three items: both counters end at 0. *)
Lemma deleteList_decrements_floored_witness :
  Controller.findListById 200 tenItemsDb = Some (0, tenItemsFirst)
  ∧ counters_ok tenItemsFirst
  ∧ ∃ db' agent',
      Controller.deleteList 200 tenItemsDb = (Success (), db')
      ∧ Controller.findAgentById 1 db' = Some agent'
      ∧ assignedListsCount agent' = 0%Z
      ∧ totalItemsAssigned agent' = 0%Z.
Proof.
  assert (Controller.findListById 200 tenItemsDb = Some (0, tenItemsFirst)) as H1
    by (vm_compute; reflexivity).
  assert (Controller.findAgentById (agentId tenItemsFirst) tenItemsDb
          = Some {| agent_id := 1; name := "Bo"; email := "bo@example.org";
                    isActive := true; assignedListsCount := 1;
                    totalItemsAssigned := 3; agent_createdAt := 10 |}) as H2
    by (vm_compute; reflexivity).
  assert (counters_ok tenItemsFirst) as H3 by (repeat split).
  split; [exact H1|]. split; [exact H3|].
  destruct (deleteList_decrements_floored 200 tenItemsDb 0 tenItemsFirst _ H1 H2 H3)
    as (db' & agent' & Hdel & _ & Hfind & Hc & Ht & _).
  exists db', agent'. split; [exact Hdel|]. split; [exact Hfind|].
  split; [exact Hc|exact Ht].
Defined.

(** * Further properties of the code *)

(** ** The phone pattern *)

Section PhonePattern.

Lemma phoneClass_inSet c :
  phoneClass c = existsb (inSet c) [Digit; Space; Lit "("; Lit ")"; Lit "-"].
Proof. unfold phoneClass. simpl. by rewrite orb_false_r, !orb_assoc. Qed.

Lemma plus_not_in_class c :
  (nat_of_ascii c =? 43) = true → phoneClass c = false.
Proof.
  intros H. apply Nat.eqb_eq in H. unfold phoneClass, JS.isDigit, JS.isWhiteSpace.
  rewrite H. reflexivity.
Qed.

Lemma ascii_of_code c n : n < 256 → nat_of_ascii c = n → c = ascii_of_nat n.
Proof. intros Hn <-. by rewrite ascii_nat_embedding. Qed.

Lemma all_class_matches l s :
  s ≠ "" → JS.all (λ c, existsb (inSet c) l) s = true → matches (Plus (Class l)) s.
Proof.
  induction s as [|c r IH]; [done|]. intros _ Hall. simpl in Hall.
  apply andb_true_iff in Hall as [Hc Hr].
  destruct r as [|c' r'].
  - apply matches_plus_one. by constructor.
  - change (String c (String c' r')) with (String c "" +:+ String c' r').
    apply matches_plus_more; [by constructor|]. by apply IH.
Qed.

Lemma matches_class_all l s :
  matches (Plus (Class l)) s →
  s ≠ "" ∧ JS.all (λ c, existsb (inSet c) l) s = true.
Proof.
  remember (Plus (Class l)) as r eqn:Hr. intros H.
  induction H as [| | | |r0 s H _|r0 s1 s2 H1 _ H2 IH| ]; try discriminate.
  - injection Hr as ->. inversion H as [l0 c Hin| | | | | |]; subst.
    simpl. by rewrite Hin.
  - injection Hr as ->. inversion H1 as [l0 c Hin| | | | | |]; subst.
    destruct (IH eq_refl) as [_ IH']. simpl. by rewrite Hin.
Qed.

Lemma all_ext p q s : (∀ c, p c = q c) → JS.all p s = JS.all q s.
Proof. intros H. induction s as [|c r IH]; [done|]. simpl. by rewrite H, IH. Qed.

End PhonePattern.

(** X1. The test the controller and the schema apply to a phone accepts
    exactly the strings of the regular expression [^[+]?[\d\s()-]+$]: an
    optional leading plus sign, then one or more digits, white space,
    parentheses or hyphens, and nothing else. *)
Theorem phonePattern_is_the_regex (s : string) :
  phonePattern s = true ↔ matches phoneRegex s.
Proof.
  unfold phoneRegex. split.
  - destruct s as [|c r]; [discriminate|]. cbn [phonePattern].
    destruct (nat_of_ascii c =? 43) eqn:Hc.
    + intros Hbody. unfold phoneBody in Hbody.
      apply andb_true_iff in Hbody as [Hne Hall].
      apply Nat.eqb_eq, (ascii_of_code c 43 ltac:(lia)) in Hc. subst c.
      change (String (ascii_of_nat 43) r) with (String (ascii_of_nat 43) "" +:+ r).
      apply matches_seq.
      * apply matches_opt_some. by constructor.
      * apply all_class_matches; [by destruct r|].
        rewrite (all_ext _ phoneClass); [exact Hall|].
        intros c. symmetry. apply phoneClass_inSet.
    + intros Hbody. unfold phoneBody in Hbody.
      apply andb_true_iff in Hbody as [_ Hall].
      change (String c r) with ("" +:+ String c r).
      apply matches_seq; [apply matches_opt_none|].
      apply all_class_matches; [done|].
      rewrite (all_ext _ phoneClass); [exact Hall|].
      intros c'. symmetry. apply phoneClass_inSet.
  - intros H. inversion H as [|r1 r2 s1 s2 H1 H2| | | | |]; subst.
    apply matches_class_all in H2 as [Hne Hall].
    rewrite (all_ext _ phoneClass) in Hall
      by (intros c; symmetry; apply phoneClass_inSet).
    inversion H1 as [| |r0|r0 s0 Hplus| | |]; subst.
    + change ("" +:+ s2) with s2. destruct s2 as [|c r]; [done|].
      cbn [JS.all] in Hall. apply andb_true_iff in Hall as [Hc Hr].
      cbn [phonePattern].
      destruct (nat_of_ascii c =? 43) eqn:Hc43.
      * apply plus_not_in_class in Hc43. congruence.
      * unfold phoneBody. cbn [JS.isEmpty negb JS.all andb]. by rewrite Hc, Hr.
    + inversion Hplus as [l c Hin| | | | | |]; subst.
      cbn [existsb inSet] in Hin. rewrite orb_false_r in Hin.
      change (nat_of_ascii "+") with 43 in Hin.
      change (String c "" +:+ s2) with (String c s2).
      cbn [phonePattern]. rewrite Hin.
      unfold phoneBody. rewrite Hall. by destruct s2.
Qed.

(** ** The mobile pattern *)

Section MobilePattern.

Lemma iter_class l k s :
  iter (Class l) k s
  ↔ String.length s = k ∧ JS.all (λ c, existsb (inSet c) l) s = true.
Proof.
  split.
  - revert s. induction k as [|k IH]; intros s H.
    + inversion H; subst. done.
    + inversion H as [|r k' s1 s2 H1 H2]; subst.
      inversion H1 as [l0 c Hin| | | | | |]; subst.
      destruct (IH _ H2) as [Hlen Hall].
      change (String c "" +:+ s2) with (String c s2).
      cbn [String.length JS.all]. by rewrite Hlen, Hin, Hall.
  - revert k. induction s as [|c r IH]; intros k [Hlen Hall].
    + simpl in Hlen. subst k. constructor.
    + simpl in Hlen. subst k. cbn [JS.all] in Hall.
      apply andb_true_iff in Hall as [Hc Hr].
      change (String c r) with (String c "" +:+ r).
      constructor; [by constructor|]. by apply IH.
Qed.

Lemma trimEnd_visible s :
  JS.all (λ c, negb (JS.isWhiteSpace c)) s = true → JS.trimEnd s = s.
Proof.
  induction s as [|c r IH]; [done|]. cbn [JS.all JS.trimEnd].
  intros H. apply andb_true_iff in H as [Hc Hr].
  apply negb_true_iff in Hc. rewrite Hc. simpl. by rewrite IH.
Qed.

Lemma all_impl (p q : ascii → bool) s :
  (∀ c, p c = true → q c = true) → JS.all p s = true → JS.all q s = true.
Proof.
  intros Hpq. induction s as [|c r IH]; [done|]. cbn [JS.all].
  rewrite !andb_true_iff. intros [Hc Hr]. split; [by apply Hpq|by apply IH].
Qed.

Lemma digit_visible c : JS.isDigit c = true → negb (JS.isWhiteSpace c) = true.
Proof.
  unfold JS.isDigit, JS.isWhiteSpace. intros H.
  apply andb_true_iff in H as [H1 H2]. apply Nat.leb_le in H1, H2.
  apply negb_true_iff, orb_false_iff. split; [apply orb_false_iff; split|].
  - apply andb_false_iff. right. apply Nat.leb_gt. lia.
  - apply Nat.eqb_neq. lia.
  - apply Nat.eqb_neq. lia.
Qed.

End MobilePattern.

(** X2. The mobile test of the agent controller accepts exactly the
    strings of [^\+[1-9]\d{1,14}$]: a plus sign, a digit from 1 to 9, then
    1 to 14 digits. An accepted mobile is 3 to 16 characters long and
    [trim()] leaves it as it is, so the value that is stored is the value
    that was tested. *)
Theorem mobilePattern_is_the_regex (s : string) :
  (AgentController.mobilePattern s = true ↔ matches mobileRegex s)
  ∧ (AgentController.mobilePattern s = true →
     3 ≤ String.length s ≤ 16 ∧ JS.trim s = s).
Proof.
  split; [split|].
  - destruct s as [|p [|d rest]]; [discriminate..|].
    cbn [AgentController.mobilePattern]. rewrite !andb_true_iff.
    intros (((((Hp & Hd1) & Hd2) & Hl1) & Hl2) & Hall).
    apply Nat.eqb_eq, (ascii_of_code p 43 ltac:(lia)) in Hp. subst p.
    apply Nat.leb_le in Hl1, Hl2.
    change (String (ascii_of_nat 43) (String d rest))
      with (String (ascii_of_nat 43) "" +:+ (String d "" +:+ rest)).
    apply matches_seq; [by constructor|].
    apply matches_seq.
    + constructor. cbn [existsb inSet]. rewrite orb_false_r.
      change (nat_of_ascii "1") with 49. change (nat_of_ascii "9") with 57.
      by rewrite Hd1, Hd2.
    + apply (matches_rep 1 14 _ (String.length rest)); [done..|].
      apply iter_class. split; [done|].
      rewrite (all_ext _ JS.isDigit); [done|]. intros c. simpl. by rewrite orb_false_r.
  - intros H. unfold mobileRegex in H.
    inversion H as [|r1 r2 s1 s2 H1 H2| | | | |]; subst.
    inversion H1 as [l0 p Hp| | | | | |]; subst.
    inversion H2 as [|r1 r2 s3 s4 H3 H4| | | | |]; subst.
    inversion H3 as [l0 d Hd| | | | | |]; subst.
    inversion H4 as [| | | | | |lo hi r k s5 Hlo Hhi Hit]; subst.
    match goal with
    | Hi : iter _ _ ?t |- _ =>
        apply iter_class in Hi as [Hlen Hall];
        change (String p "" +:+ (String d "" +:+ t)) with (String p (String d t))
    end.
    rewrite (all_ext _ JS.isDigit) in Hall by (intros c; simpl; by rewrite orb_false_r).
    cbn [existsb inSet] in Hp, Hd. rewrite orb_false_r in Hp, Hd.
    change (nat_of_ascii "+") with 43 in Hp.
    change (nat_of_ascii "1") with 49 in Hd. change (nat_of_ascii "9") with 57 in Hd.
    apply andb_true_iff in Hd as [Hd1 Hd2].
    cbn [AgentController.mobilePattern]. rewrite Hp, Hd1, Hd2, Hall, Hlen.
    cbn [andb]. rewrite andb_true_r.
    apply andb_true_iff. split; apply Nat.leb_le; lia.
  - destruct s as [|p [|d rest]]; [discriminate..|].
    cbn [AgentController.mobilePattern]. rewrite !andb_true_iff.
    intros (((((Hp & Hd1) & Hd2) & Hl1) & Hl2) & Hall).
    apply Nat.leb_le in Hl1, Hl2, Hd1, Hd2. apply Nat.eqb_eq in Hp.
    split; [cbn [String.length]; lia|].
    unfold JS.trim.
    assert (JS.isWhiteSpace p = false) as Hpv
      by (unfold JS.isWhiteSpace; rewrite Hp; reflexivity).
    cbn [JS.trimStart]. rewrite Hpv.
    apply trimEnd_visible. cbn [JS.all]. rewrite Hpv. cbn [negb andb].
    apply andb_true_iff. split.
    + apply digit_visible. unfold JS.isDigit. apply andb_true_iff.
      split; apply Nat.leb_le; lia.
    + eapply all_impl; [|exact Hall]. apply digit_visible.
Qed.

(** ** getList *)

Section GetList.

Lemma take_clamp {A} (l : list A) n : take (n `min` length l) l = take n l.
Proof.
  destruct (Nat.le_ge_cases n (length l)).
  - by rewrite Nat.min_l.
  - rewrite Nat.min_r by done. by rewrite !take_ge.
Qed.

(** For indices that are not negative, [slice] is a [drop] and a
    [take]. *)
Lemma sliceZ_nonneg {A} (l : list A) (a n : nat) :
  JS.sliceZ (Z.of_nat a) (Z.of_nat a + Z.of_nat n) l = take n (drop a l).
Proof.
  unfold JS.sliceZ, JS.sliceIndex.
  destruct (Z.of_nat a <? 0)%Z eqn:Ha; [apply Z.ltb_lt in Ha; lia|].
  destruct (Z.of_nat a + Z.of_nat n <? 0)%Z eqn:Hb; [apply Z.ltb_lt in Hb; lia|].
  destruct (Nat.le_ge_cases (length l) a) as [Hge|Hlt].
  - rewrite (drop_ge l a) by done.
    rewrite drop_ge by lia. by rewrite !take_nil.
  - replace (Z.to_nat (Z.of_nat a `min` Z.of_nat (length l))) with a by lia.
    rewrite <- (take_clamp (drop a l) n), length_drop. f_equal. lia.
Qed.

(** A page before the first one is empty. *)
Lemma sliceZ_page0 {A} (l : list A) (m : positive) :
  JS.sliceZ (- Z.pos m) (- Z.pos m + Z.pos m) l = [].
Proof.
  unfold JS.sliceZ, JS.sliceIndex. rewrite Z.add_opp_diag_l.
  destruct (- Z.pos m <? 0)%Z eqn:Ha; [|apply Z.ltb_ge in Ha; lia].
  change (0 <? 0)%Z with false. cbv iota.
  replace (Z.to_nat (0 `min` Z.of_nat (length l)
                     - (Z.of_nat (length l) + - Z.pos m) `max` 0)) with 0 by lia.
  apply take_0.
Qed.

Lemma concat_chunks {A} (l : list A) (m n k : nat) :
  concat ((λ i, take m (drop (i * m) l)) <$> seq k n)
  = take (n * m) (drop (k * m) l).
Proof.
  revert k. induction n as [|n IH]; intros k; [by rewrite take_0|].
  cbn [seq fmap list_fmap concat]. rewrite IH.
  replace (S k * m) with (k * m + m) by lia.
  rewrite <- drop_drop, take_take_drop. f_equal; lia.
Qed.

Lemma ceilQuot_covers (n : nat) (d : positive) :
  (0 ≤ JS.ceilQuot n d)%Z
  ∧ n ≤ Z.to_nat (JS.ceilQuot n d) * Pos.to_nat d
  ∧ (∀ p : Z, (p < JS.ceilQuot n d)%Z ↔ (p * Z.pos d < Z.of_nat n)%Z).
Proof.
  unfold JS.ceilQuot.
  pose proof (Z.div_mod (Z.of_nat n + Z.pos d - 1) (Z.pos d) ltac:(lia)) as Hdm.
  pose proof (Z.mod_pos_bound (Z.of_nat n + Z.pos d - 1) (Z.pos d) ltac:(lia)) as Hm.
  set (q := ((Z.of_nat n + Z.pos d - 1) / Z.pos d)%Z) in *.
  assert (0 ≤ q)%Z as Hq by (apply Z.div_pos; lia).
  split; [done|]. split; [nia|]. intros p. split; nia.
Qed.

Lemma statusName_inj st q :
  Controller.statusName st = Controller.statusName q ↔ st = q.
Proof. split; [|by intros ->]. by destruct st, q. Qed.

Lemma getList_found listId p limit query db pos doc :
  Controller.findListById listId db = Some (pos, doc) →
  pageItems listId limit query db p
  = JS.sliceZ ((p - 1) * Z.pos limit) ((p - 1) * Z.pos limit + Z.pos limit)
              (Controller.filteredItems query doc)
  ∧ pageInfo listId limit query db p
    = Some {| Controller.currentPage := p;
              Controller.totalPages :=
                JS.ceilQuot (length (Controller.filteredItems query doc)) limit;
              Controller.pageTotalItems := length (Controller.filteredItems query doc);
              Controller.hasNext :=
                (p <? JS.ceilQuot (length (Controller.filteredItems query doc)) limit)%Z;
              Controller.hasPrev := (1 <? p)%Z |}.
Proof. intros H. unfold pageItems, pageInfo, Controller.getList. by rewrite H. Qed.

Lemma page_from_1 listId (k : nat) limit query db pos doc :
  Controller.findListById listId db = Some (pos, doc) →
  pageItems listId limit query db (Z.of_nat (S k))
  = take (Pos.to_nat limit)
         (drop (k * Pos.to_nat limit) (Controller.filteredItems query doc)).
Proof.
  intros H. rewrite (proj1 (getList_found _ _ _ _ _ _ _ H)).
  rewrite <- (positive_nat_Z limit).
  replace ((Z.of_nat (S k) - 1) * Z.of_nat (Pos.to_nat limit))%Z
    with (Z.of_nat (k * Pos.to_nat limit)) by (rewrite Nat2Z.inj_mul; lia).
  apply sliceZ_nonneg.
Qed.

End GetList.

(** X3. For a stored Sub-List, the pages 1 to totalPages that getList
    answers, one after the other, are exactly the items that pass the
    status filter, in their order; no page holds more than [limit] items;
    and page 0 and the pages after totalPages are empty. *)
Theorem getList_pages_partition
    (listId : ObjectId) (limit : positive) (query : option string) (db : DB)
    (pos : nat) (doc : ListDoc) :
  Controller.findListById listId db = Some (pos, doc) →
  concat (pageItems listId limit query db
            <$> (Z.of_nat
                   <$> seq 1 (Z.to_nat (JS.ceilQuot
                                          (length (Controller.filteredItems query doc))
                                          limit))))
  = Controller.filteredItems query doc
  ∧ (∀ k, length (pageItems listId limit query db (Z.of_nat k)) ≤ Pos.to_nat limit)
  ∧ pageItems listId limit query db 0 = []
  ∧ (∀ p, (JS.ceilQuot (length (Controller.filteredItems query doc)) limit < p)%Z →
          pageItems listId limit query db p = []).
Proof.
  intros Hfind.
  set (l := Controller.filteredItems query doc).
  destruct (ceilQuot_covers (length l) limit) as (Hq0 & Hcov & Hlt).
  split; [|split; [|split]].
  - rewrite <- list_fmap_compose.
    transitivity (concat ((λ i, take (Pos.to_nat limit) (drop (i * Pos.to_nat limit) l))
                            <$> seq 0 (Z.to_nat (JS.ceilQuot (length l) limit)))).
    + f_equal. rewrite <- (fmap_S_seq 0), <- list_fmap_compose.
      apply list_fmap_ext. intros _ k _. simpl.
      apply (page_from_1 _ _ _ _ _ _ _ Hfind).
    + rewrite concat_chunks. simpl. rewrite drop_0. by apply take_ge.
  - intros [|k].
    + rewrite (proj1 (getList_found _ _ _ _ _ _ _ Hfind)).
      replace ((Z.of_nat 0 - 1) * Z.pos limit)%Z with (- Z.pos limit)%Z by lia.
      rewrite sliceZ_page0. simpl. lia.
    + rewrite (page_from_1 _ _ _ _ _ _ _ Hfind), length_take. lia.
  - rewrite (proj1 (getList_found _ _ _ _ _ _ _ Hfind)).
    replace ((0 - 1) * Z.pos limit)%Z with (- Z.pos limit)%Z by lia.
    apply sliceZ_page0.
  - intros p Hp. destruct p as [|p|p]; [lia| |lia].
    destruct (Pos.to_nat p) as [|k] eqn:Hk; [lia|].
    replace (Z.pos p) with (Z.of_nat (S k)) by lia.
    rewrite (page_from_1 _ _ _ _ _ _ _ Hfind). fold l.
    rewrite drop_ge; [apply take_nil|].
    assert (¬ (Z.of_nat k < JS.ceilQuot (length l) limit)%Z) as Hnot by lia.
    rewrite Hlt in Hnot. nia.
Qed.

Section GetListNumbers.

Lemma chunk_nonempty {A} (l : list A) (k m : nat) :
  0 < m → take m (drop (k * m) l) ≠ [] ↔ k * m < length l.
Proof.
  intros Hm. rewrite nil_iff_length, length_take, length_drop. lia.
Qed.

Lemma filteredItems_none query doc :
  Controller.falsy query = true → Controller.filteredItems query doc = items doc.
Proof. intros H. unfold Controller.filteredItems. by rewrite H. Qed.

Lemma filteredItems_status st doc :
  Controller.filteredItems (Some (Controller.statusName st)) doc
  = filter (λ it, status it = st) (items doc).
Proof.
  unfold Controller.filteredItems.
  replace (Controller.falsy (Some (Controller.statusName st))) with false
    by (by destruct st).
  apply list_filter_iff. intros it. simpl. apply statusName_inj.
Qed.

Lemma filteredItems_unknown q doc :
  q ≠ "" → (∀ st, Controller.statusName st ≠ q) →
  Controller.filteredItems (Some q) doc = [].
Proof.
  intros Hq Hno. unfold Controller.filteredItems.
  replace (Controller.falsy (Some q)) with false by (by destruct q).
  apply filter_none, Forall_forall. intros it _. simpl. apply Hno.
Qed.

Lemma sliceZ_Forall {A} (P : A → Prop) a b (l : list A) :
  Forall P l → Forall P (JS.sliceZ a b l).
Proof. intros H. unfold JS.sliceZ. by apply Forall_take, Forall_drop. Qed.

End GetListNumbers.

(** X4. For a stored Sub-List and a page number that is not negative,
    getList reports as totalItems the number of items that pass the filter,
    its totalPages is 0 exactly when there is none, the page it answers is
    non-empty exactly when 1 <= page <= totalPages, and hasNext is true
    exactly when the following page is non-empty. *)
Theorem getList_pagination_numbers
    (listId : ObjectId) (limit : positive) (query : option string) (db : DB)
    (pos : nat) (doc : ListDoc) (p : Z) :
  Controller.findListById listId db = Some (pos, doc) →
  (0 ≤ p)%Z →
  ∃ pg, pageInfo listId limit query db p = Some pg
        ∧ Controller.currentPage pg = p
        ∧ Controller.pageTotalItems pg = length (Controller.filteredItems query doc)
        ∧ (Controller.totalPages pg = 0%Z ↔ Controller.filteredItems query doc = [])
        ∧ (pageItems listId limit query db p ≠ []
           ↔ (1 ≤ p ≤ Controller.totalPages pg)%Z)
        ∧ (Controller.hasNext pg = true
           ↔ pageItems listId limit query db (p + 1) ≠ [])
        ∧ (Controller.hasPrev pg = true ↔ (1 < p)%Z).
Proof.
  intros Hfind Hp.
  destruct (getList_found listId p limit query db pos doc Hfind) as [Hitems Hinfo].
  set (l := Controller.filteredItems query doc) in *.
  destruct (ceilQuot_covers (length l) limit) as (Hq0 & Hcov & Hlt).
  eexists. split; [exact Hinfo|]. cbn [Controller.currentPage Controller.totalPages
    Controller.pageTotalItems Controller.hasNext Controller.hasPrev].
  assert (∀ k : nat, pageItems listId limit query db (Z.of_nat (S k)) ≠ []
                     ↔ (Z.of_nat k < JS.ceilQuot (length l) limit)%Z) as Hpage.
  { intros k. rewrite (page_from_1 _ _ _ _ _ _ _ Hfind). fold l.
    rewrite chunk_nonempty by lia. rewrite Hlt. nia. }
  split; [done|]. split; [done|]. split; [|split; [|split]].
  - rewrite nil_iff_length. specialize (Hlt 0%Z). lia.
  - destruct p as [|q|q]; [|clear Hp|lia].
    + split; [|lia]. intros Hne. exfalso. apply Hne.
      rewrite Hitems. replace ((0 - 1) * Z.pos limit)%Z with (- Z.pos limit)%Z by lia.
      apply sliceZ_page0.
    + destruct (Pos.to_nat q) as [|k] eqn:Hk; [lia|].
      replace (Z.pos q) with (Z.of_nat (S k)) by lia.
      rewrite Hpage. lia.
  - rewrite Z.ltb_lt.
    replace (p + 1)%Z with (Z.of_nat (S (Z.to_nat p))) by lia.
    rewrite Hpage. lia.
  - apply Z.ltb_lt.
Qed.

(** X5. For a stored Sub-List with consistent counters, the totalItems
    that getList reports is the stored totalItems without a status filter,
    the stored completedItems under the filter "completed" and the stored
    pendingItems under "pending"; under the name of a status every item of
    every page has that status; and under any other non-empty string every
    page is empty and totalItems is 0. *)
Theorem getList_filter_agrees_with_counters
    (listId : ObjectId) (limit : positive) (db : DB)
    (pos : nat) (doc : ListDoc) (p : Z) :
  Controller.findListById listId db = Some (pos, doc) →
  counters_ok doc →
  (∀ query, Controller.falsy query = true →
     Controller.pageTotalItems <$> pageInfo listId limit query db p
     = Some (totalItems doc))
  ∧ Controller.pageTotalItems <$> pageInfo listId limit (Some "completed") db p
    = Some (completedItems doc)
  ∧ Controller.pageTotalItems <$> pageInfo listId limit (Some "pending") db p
    = Some (pendingItems doc)
  ∧ (∀ st, Forall (λ it, status it = st)
             (pageItems listId limit (Some (Controller.statusName st)) db p))
  ∧ (∀ q, q ≠ "" → (∀ st, Controller.statusName st ≠ q) →
          pageItems listId limit (Some q) db p = []
          ∧ Controller.pageTotalItems <$> pageInfo listId limit (Some q) db p = Some 0).
Proof.
  intros Hfind (Ht & Hc & Hpend).
  split; [|split; [|split; [|split]]].
  - intros query Hq.
    rewrite (proj2 (getList_found _ p limit query _ _ _ Hfind)). simpl.
    by rewrite filteredItems_none, Ht.
  - rewrite (proj2 (getList_found _ p limit _ _ _ _ Hfind)). simpl.
    change "completed" with (Controller.statusName completed).
    by rewrite filteredItems_status, Hc.
  - rewrite (proj2 (getList_found _ p limit _ _ _ _ Hfind)). simpl.
    change "pending" with (Controller.statusName pending).
    by rewrite filteredItems_status, Hpend.
  - intros st. rewrite (proj1 (getList_found _ p limit _ _ _ _ Hfind)).
    apply sliceZ_Forall. rewrite filteredItems_status.
    apply Forall_forall. intros it Hit. by apply list_elem_of_filter in Hit as [? _].
  - intros q Hq Hno.
    rewrite (proj1 (getList_found _ p limit _ _ _ _ Hfind)).
    rewrite (proj2 (getList_found _ p limit _ _ _ _ Hfind)). simpl.
    rewrite (filteredItems_unknown q doc Hq Hno). split; [|done].
    unfold JS.sliceZ. rewrite drop_nil. apply take_nil.
Qed.

Lemma getList_pages_partition_witness :
  Controller.findListById 200 tenItemsDb = Some (0, tenItemsFirst)
  ∧ concat (pageItems 200 2 None tenItemsDb <$> [1; 2; 3]%Z) = items tenItemsFirst.
Proof.
  split; [reflexivity|].
  exact (proj1 (getList_pages_partition 200 2 None tenItemsDb 0 tenItemsFirst
                  eq_refl)).
Defined.

Lemma getList_pagination_numbers_witness :
  Controller.findListById 200 tenItemsDb = Some (0, tenItemsFirst)
  ∧ (0 ≤ 2)%Z
  ∧ ∃ pg, pageInfo 200 2 (Some "completed") tenItemsDb 2 = Some pg
          ∧ Controller.currentPage pg = 2%Z.
Proof.
  split; [reflexivity|]. split; [lia|].
  destruct (getList_pagination_numbers 200 2 (Some "completed") tenItemsDb 0
              tenItemsFirst 2 eq_refl ltac:(lia)) as (pg & Hpg & Hcur & _).
  exists pg. split; [exact Hpg | exact Hcur].
Defined.

Lemma getList_filter_agrees_with_counters_witness :
  Controller.findListById 200 tenItemsDb = Some (0, tenItemsFirst)
  ∧ counters_ok tenItemsFirst
  ∧ Controller.pageTotalItems <$> pageInfo 200 2 (Some "completed") tenItemsDb 1
    = Some 3.
Proof.
  split; [reflexivity|]. split; [vm_compute; repeat split|].
  exact (proj1 (proj2 (getList_filter_agrees_with_counters 200 2 tenItemsDb 0
                         tenItemsFirst 1 eq_refl
                         ltac:(vm_compute; repeat split)))).
Defined.


(** ** The status-update handler *)

Section UpdateHandler.

Lemma replaceList_insert l' ls : ∀ pos d,
  NoDup (list_id <$> ls) → ls !! pos = Some d → list_id l' = list_id d →
  replaceList l' ls = <[pos := l']> ls.
Proof.
  unfold replaceList. induction ls as [|x ls IH]; intros pos d Hnd Hpos Hid; [done|].
  rewrite fmap_cons in Hnd. apply NoDup_cons in Hnd as [Hx Hnd].
  destruct pos as [|pos]; simpl in *.
  - injection Hpos as ->. rewrite bool_decide_eq_true_2 by done. f_equal.
    rewrite <- (list_fmap_id ls) at 2. apply list_fmap_ext.
    intros j y Hy. simpl. case_bool_decide as Hc; [|done].
    exfalso. apply Hx. rewrite <- Hid, <- Hc.
    apply list_elem_of_fmap. exists y. split; [done|].
    by eapply list_elem_of_lookup_2.
  - rewrite bool_decide_eq_false_2.
    + f_equal. by eapply IH.
    + intros Hc. apply Hx. rewrite Hc, Hid.
      apply list_elem_of_fmap. exists d. split; [done|].
      by eapply list_elem_of_lookup_2.
Qed.

Lemma findListById_found listId db pos doc :
  Controller.findListById listId db = Some (pos, doc) →
  lists db !! pos = Some doc ∧ list_id doc = listId.
Proof.
  unfold Controller.findListById. intros H.
  apply list_find_Some in H. tauto.
Qed.

Lemma parseStatus_name s st :
  Controller.parseStatus s = Some st ↔ s = Controller.statusName st.
Proof.
  unfold Controller.parseStatus. split.
  - repeat case_bool_decide; intros [= <-]; done.
  - intros ->. by destruct st.
Qed.

(** The item that a status update leaves, field by field. *)
Lemma updated_item_fields now st it note :
  let it' := assignPatch (stampStatus now st it)
               {| p_firstName := None; p_phone := None;
                  p_notes := if Controller.falsy note then None else note;
                  p_status := None; p_contactedAt := None; p_completedAt := None |} in
  item_id it' = item_id it ∧ status it' = st
  ∧ firstName it' = firstName it ∧ phone it' = phone it
  ∧ notes it' = (if Controller.falsy note then notes it
                 else JS.trim (default "" note))
  ∧ contactedAt it'
    = (if bool_decide (st = contacted) && unset (contactedAt it)
       then Some now else contactedAt it)
  ∧ completedAt it'
    = (if bool_decide (st = completed) && unset (completedAt it)
       then Some now else completedAt it).
Proof.
  destruct it as [id f p n s c d], note as [x|]; simpl;
    try destruct (JS.isEmpty x); unfold stampStatus; simpl;
    destruct st, c, d; simpl; done.
Qed.

End UpdateHandler.


(** X6. A status update that is refused changes nothing in the database,
    and it is refused for one of four reasons: 400 when the status is not
    one of the four names; 404 "List not found" when the status is valid
    and no Sub-List has the id; 404 "Item not found" when the Sub-List has
    no item of that id; 500 when the save is rejected. If the stored
    Sub-List passes the schema, the save is rejected only for notes that
    are longer than 500 characters after trimming. *)
Theorem updateItemStatus_refusals
    (listId itemId : ObjectId) (statusText : string) (note : option string)
    (now : Date) (db : DB) (code : nat) (e : Error) (db' : DB) :
  Controller.updateItemStatus listId itemId statusText note now db
  = (Failure code e, db') →
  db' = db
  ∧ ((code = 400 ∧ Controller.parseStatus statusText = None)
     ∨ (code = 404 ∧ e = Thrown "List not found"
        ∧ is_Some (Controller.parseStatus statusText)
        ∧ Controller.findListById listId db = None)
     ∨ (code = 404 ∧ e = Thrown "Item not found"
        ∧ is_Some (Controller.parseStatus statusText)
        ∧ ∃ pos doc, Controller.findListById listId db = Some (pos, doc)
                     ∧ itemsId itemId (items doc) = None)
     ∨ (code = 500 ∧ e = Thrown "Failed to update item status"
        ∧ is_Some (Controller.parseStatus statusText)
        ∧ ∃ pos doc i it,
            Controller.findListById listId db = Some (pos, doc)
            ∧ itemsId itemId (items doc) = Some (i, it)
            ∧ (validate doc = [] →
               ∃ n, note = Some n ∧ n ≠ ""
                    ∧ 500 < String.length (JS.trim n)))).
Proof.
  intros H. unfold Controller.updateItemStatus in H.
  destruct (Controller.parseStatus statusText) as [st|] eqn:Hp.
  2: { injection H as <- <- <-. split; [done|]. by left. }
  destruct (Controller.findListById listId db) as [[pos doc]|] eqn:Hf.
  2: { injection H as <- <- <-. split; [done|]. right; left. by eauto. }
  unfold updateItemStatus in H.
  destruct (itemsId itemId (items doc)) as [[i it]|] eqn:Hi.
  2: { simpl in H. injection H as <- <- <-. split; [done|].
       right; right; left. by eauto 10. }
  match type of H with
  | context [save false now ?l db] =>
      destruct (save false now l db) as [r db1] eqn:Hs
  end.
  apply save_run in Hs as [(Hv & -> & _)|(fs & Hv & Hne & -> & ->)]; [done|].
  simpl in H. injection H as <- <- <-. split; [done|].
  right; right; right. do 3 (split; [by eauto|]).
  exists pos, doc, i, it. do 2 (split; [done|]).
  intros Hdoc. apply validate_nil in Hdoc as [Hu Hits].
  destruct (updated_item_fields now st it note) as (_ & _ & Hfn & Hph & Hno & _).
  apply itemsId_found in Hi as [Hi _].
  assert (itemOk it = true) as Hok by (by eapply (proj1 (Forall_lookup _ _) Hits)).
  destruct (decide (Controller.falsy note = false
                    ∧ 500 < String.length (JS.trim (default "" note))))
    as [[Hfalsy Hlong]|Hshort].
  - destruct note as [n|]; [|done]. exists n. split; [done|].
    split; [|done]. intros ->. done.
  - exfalso. apply Hne. rewrite <- Hv. apply validate_nil. split; [done|].
    simpl. apply Forall_insert; [done|].
    unfold itemOk in *. rewrite Hfn, Hph, Hno.
    rewrite !andb_true_iff in Hok. destruct Hok as [[[[H1 H2] H3] H4] H5].
    rewrite H1, H2, H3, H4. simpl.
    destruct (Controller.falsy note); [done|].
    apply negb_true_iff, Nat.ltb_ge. apply not_and_l in Hshort as [?|?]; [done|lia].
Qed.

(** X7. A status update that is accepted with unique Sub-List ids writes
    exactly one document: the returned Sub-List replaces the stored one at
    its position, agents and the id source stay as they were. In the
    returned Sub-List only the addressed item differs: it has the new
    status, its name and phone are kept, its notes are the trimmed notes of
    the request when the request has non-empty notes, contactedAt
    (completedAt) takes the current time only when the new status is
    "contacted" ("completed") and the date was not set, and the counters
    are consistent with the items. *)
Theorem updateItemStatus_writes_one_item
    (listId itemId : ObjectId) (statusText : string) (note : option string)
    (now : Date) (db : DB) (l : ListDoc) (db' : DB) :
  NoDup (list_id <$> lists db) →
  Controller.updateItemStatus listId itemId statusText note now db
  = (Success l, db') →
  ∃ st pos doc i it it',
    statusText = Controller.statusName st
    ∧ Controller.findListById listId db = Some (pos, doc)
    ∧ itemsId itemId (items doc) = Some (i, it)
    ∧ lists db' = <[pos := l]> (lists db)
    ∧ agents db' = agents db ∧ nextId db' = nextId db
    ∧ l = preSave now (withItems (<[i := it']> (items doc)) doc)
    ∧ counters_ok l
    ∧ length (items l) = length (items doc)
    ∧ item_id it' = itemId ∧ status it' = st
    ∧ firstName it' = firstName it ∧ phone it' = phone it
    ∧ notes it' = (if Controller.falsy note then notes it
                   else JS.trim (default "" note))
    ∧ contactedAt it'
      = (if bool_decide (st = contacted) && unset (contactedAt it)
         then Some now else contactedAt it)
    ∧ completedAt it'
      = (if bool_decide (st = completed) && unset (completedAt it)
         then Some now else completedAt it).
Proof.
  intros Hnd H. unfold Controller.updateItemStatus in H.
  destruct (Controller.parseStatus statusText) as [st|] eqn:Hp; [|done].
  destruct (Controller.findListById listId db) as [[pos doc]|] eqn:Hf; [|done].
  unfold updateItemStatus in H.
  destruct (itemsId itemId (items doc)) as [[i it]|] eqn:Hi; [|done].
  match type of H with
  | context [save false now (withItems (<[i := ?x]> _) _) db] => set (it' := x) in *
  end.
  destruct (save false now (withItems (<[i := it']> (items doc)) doc) db)
    as [r db1] eqn:Hs.
  pose proof Hs as Hrun.
  apply save_run in Hrun as [(Hv & -> & Hl & Ha)|(fs & Hv & Hne & -> & ->)]; [|done].
  injection H as <- <-.
  exists st, pos, doc, i, it, it'.
  apply parseStatus_name in Hp.
  apply findListById_found in Hf as Hpos. destruct Hpos as [Hpos Hid].
  destruct (updated_item_fields now st it note)
    as (Hiid & Hst & Hfn & Hph & Hno & Hc & Hd).
  apply itemsId_found in Hi as Hit. destruct Hit as [_ Hitid].
  split; [done|]. split; [done|]. split; [done|]. split.
  { rewrite Hl. by apply (replaceList_insert _ _ pos doc). }
  split; [done|]. split.
  { unfold save in Hs. rewrite Hv in Hs. by injection Hs as <-. }
  split; [done|]. split; [apply preSave_counters_ok|].
  split; [simpl; by rewrite length_insert|].
  split; [by rewrite <- Hitid|]. done.
Qed.


(** Notes of 501 characters for an item of a valid stored Sub-List. *)
Lemma updateItemStatus_refusals_witness :
  Controller.updateItemStatus 200 204 "contacted" (Some (JS.repeatChar "x" 501)) 70
    tenItemsDb
  = (Failure 500 (Thrown "Failed to update item status"), tenItemsDb)
  ∧ ∃ n, Some (JS.repeatChar "x" 501) = Some n ∧ n ≠ ""
         ∧ 500 < String.length (JS.trim n).
Proof.
  assert (Controller.updateItemStatus 200 204 "contacted"
            (Some (JS.repeatChar "x" 501)) 70 tenItemsDb
          = (Failure 500 (Thrown "Failed to update item status"), tenItemsDb)) as H
    by (vm_compute; reflexivity).
  split; [exact H|].
  destruct (updateItemStatus_refusals _ _ _ _ _ _ _ _ _ H)
    as [_ [[Hc _]|[[Hc _]|[[Hc _]|(_ & _ & _ & pos & doc & i & it & Hf & _ & Hlong)]]]];
    [lia|lia|lia|].
  apply Hlong.
  assert (Controller.findListById 200 tenItemsDb = Some (0, tenItemsFirst)) as Hf'
    by reflexivity.
  rewrite Hf' in Hf. injection Hf as _ <-. vm_compute. reflexivity.
Defined.

(** The fourth item of the first Sub-List is marked as contacted, with
    notes. *)
Lemma updateItemStatus_writes_one_item_witness :
  NoDup (list_id <$> lists tenItemsDb)
  ∧ ∃ l db',
      Controller.updateItemStatus 200 204 "contacted" (Some " called ") 70 tenItemsDb
      = (Success l, db')
      ∧ lists db' = <[0 := l]> (lists tenItemsDb).
Proof.
  assert (NoDup (list_id <$> lists tenItemsDb)) as Hnd
    by (apply (bool_decide_unpack _); vm_compute; exact I).
  split; [exact Hnd|].
  destruct (Controller.updateItemStatus 200 204 "contacted" (Some " called ") 70
              tenItemsDb) as [[l|code e] db'] eqn:Hrun; [|vm_compute in Hrun; discriminate].
  exists l, db'. split; [reflexivity|].
  destruct (updateItemStatus_writes_one_item _ _ _ _ _ _ _ _ Hnd Hrun)
    as (st & pos & doc & i & it & it' & _ & Hf & _ & Hl & _).
  assert (Controller.findListById 200 tenItemsDb = Some (0, tenItemsFirst)) as Hf'
    by reflexivity.
  rewrite Hf' in Hf. injection Hf as <- _. exact Hl.
Defined.


(** ** Consistency of Sub-Lists and agents *)

Section Consistency.

Lemma sumOf_cons f d docs :
  sumOf f (d :: docs) = (Z.of_nat (f d) + sumOf f docs)%Z.
Proof.
  unfold sumOf. rewrite fmap_cons. cbn [sum_list_with sum_list].
  unfold sum_list, id in *. lia.
Qed.

Lemma sumOf_app f l1 l2 : sumOf f (l1 ++ l2) = (sumOf f l1 + sumOf f l2)%Z.
Proof.
  induction l1 as [|d l1 IH]; [done|].
  rewrite <- app_comm_cons, !sumOf_cons, IH. lia.
Qed.

Lemma sumOf_fmap_eq (l1 l2 : list ListDoc) :
  totalItems <$> l1 = totalItems <$> l2 →
  length l1 = length l2 ∧ sumOf totalItems l1 = sumOf totalItems l2.
Proof.
  intros H. split; [|unfold sumOf; by rewrite H].
  by rewrite <- (length_fmap totalItems l1), H, length_fmap.
Qed.

Lemma agentCountersOk_ext db db' a :
  totalItems <$> listsOf (agent_id a) db' = totalItems <$> listsOf (agent_id a) db →
  agentCountersOk db a → agentCountersOk db' a.
Proof.
  unfold agentCountersOk. intros H [Hc Ht].
  apply sumOf_fmap_eq in H as [-> ->]. done.
Qed.

Lemma assigned_insert id (ls : list ListDoc) pos d d' :
  ls !! pos = Some d → agentId d' = agentId d → totalItems d' = totalItems d →
  totalItems <$> filter (λ l, agentId l = id) (<[pos := d']> ls)
  = totalItems <$> filter (λ l, agentId l = id) ls.
Proof.
  intros Hpos Ha Ht.
  rewrite insert_take_drop by (by eapply lookup_lt_Some).
  pose proof (take_drop_middle ls pos d Hpos) as Hmid.
  set (l1 := take pos ls) in *. set (l2 := drop (S pos) ls) in *.
  clearbody l1 l2. subst ls.
  rewrite !filter_app, !fmap_app. f_equal.
  destruct (decide (agentId d = id)).
  - rewrite !filter_cons_True by congruence. rewrite !fmap_cons. congruence.
  - rewrite !filter_cons_False by congruence. done.
Qed.

Lemma assigned_delete id (ls : list ListDoc) pos d :
  ls !! pos = Some d →
  length (filter (λ l, agentId l = id) ls)
  = (if decide (agentId d = id) then 1 else 0)
    + length (filter (λ l, agentId l = id) (delete pos ls))
  ∧ sumOf totalItems (filter (λ l, agentId l = id) ls)
    = (Z.of_nat (if decide (agentId d = id) then totalItems d else 0)
       + sumOf totalItems (filter (λ l, agentId l = id) (delete pos ls)))%Z.
Proof.
  intros Hpos. rewrite delete_take_drop.
  pose proof (take_drop_middle ls pos d Hpos) as Hmid.
  set (l1 := take pos ls) in *. set (l2 := drop (S pos) ls) in *.
  clearbody l1 l2. subst ls.
  rewrite !filter_app, !length_app, !sumOf_app.
  destruct (decide (agentId d = id)).
  - rewrite !filter_cons_True by done. rewrite sumOf_cons. simpl. lia.
  - rewrite !filter_cons_False by done. lia.
Qed.

Lemma assigned_snoc id (ls : list ListDoc) d :
  filter (λ l, agentId l = id) (ls ++ [d])
  = filter (λ l, agentId l = id) ls ++ (if decide (agentId d = id) then [d] else []).
Proof.
  rewrite filter_app. f_equal.
Qed.

Lemma agent_ids_replaceAgent a ags :
  agent_id <$> replaceAgent a ags = agent_id <$> ags.
Proof.
  unfold replaceAgent. rewrite <- list_fmap_compose.
  apply list_fmap_ext. intros i b _. simpl. by case_bool_decide.
Qed.

(** A stored Sub-List is replaced by one of the same id, agent and size. *)
Lemma consistent_update db pos d d' :
  consistent db → lists db !! pos = Some d →
  list_id d' = list_id d → agentId d' = agentId d →
  totalItems d' = totalItems d → counters_ok d' →
  consistent {| lists := <[pos := d']> (lists db); agents := agents db;
                nextId := nextId db |}.
Proof.
  intros [Ha Hl Hu Hc Hag Has] Hpos Hid Hagent Htot Hd'.
  constructor; simpl.
  - done.
  - rewrite list_fmap_insert, Hid, list_insert_id; [done|].
    by rewrite list_lookup_fmap, Hpos.
  - apply Forall_insert; [done|]. rewrite Hid.
    by apply (proj1 (Forall_lookup _ _) Hu pos d).
  - by apply Forall_insert.
  - eapply Forall_impl; [exact Hag|]. intros a. apply agentCountersOk_ext.
    unfold listsOf. simpl. by eapply assigned_insert.
  - apply Forall_insert; [done|]. rewrite Hagent.
    by apply (proj1 (Forall_lookup _ _) Has pos d).
Qed.

(** The source of ids moves on. *)
Lemma consistent_nextId db n :
  consistent db → (nextId db ≤ n)%N →
  consistent {| lists := lists db; agents := agents db; nextId := n |}.
Proof.
  intros [Ha Hl Hu Hc Hag Has] Hn. constructor; simpl; try done.
  eapply Forall_impl; [exact Hu|]. simpl. intros l. lia.
Qed.

Lemma consistent_sum_nonneg f (docs : list ListDoc) : (0 ≤ sumOf f docs)%Z.
Proof. unfold sumOf. lia. Qed.

(** A Sub-List is removed and its agent's counters are lowered as
    deleteList lowers them. *)
Lemma consistent_delete_list db pos d a :
  consistent db → lists db !! pos = Some d →
  a ∈ agents db → agent_id a = agentId d →
  let a' := {| agent_id := agent_id a; name := name a; email := email a;
               isActive := isActive a;
               assignedListsCount := Z.max 0 (assignedListsCount a - 1);
               totalItemsAssigned :=
                 Z.max 0 (totalItemsAssigned a - Z.of_nat (totalItems d));
               agent_createdAt := agent_createdAt a |} in
  consistent {| lists := delete pos (lists db);
                agents := replaceAgent a' (agents db);
                nextId := nextId db |}
  ∧ (1 ≤ assignedListsCount a)%Z
  ∧ (Z.of_nat (totalItems d) ≤ totalItemsAssigned a)%Z.
Proof.
  intros [Ha Hl Hu Hc Hag Has] Hpos Hin Hid a'.
  destruct (proj1 (Forall_forall _ _) Hag a Hin) as [Hcnt Htot].
  destruct (assigned_delete (agent_id a) (lists db) pos d Hpos) as [Hlen Hsum].
  rewrite decide_True in Hlen, Hsum by done.
  pose proof (consistent_sum_nonneg totalItems
                (filter (λ l, agentId l = agent_id a) (delete pos (lists db)))).
  unfold listsOf in Hcnt, Htot.
  split; [|lia].
  constructor; simpl.
  - by rewrite agent_ids_replaceAgent.
  - eapply sublist_NoDup; [exact Hl|]. apply fmap_sublist, sublist_delete.
  - by apply Forall_delete.
  - by apply Forall_delete.
  - unfold replaceAgent. apply Forall_fmap.
    eapply Forall_impl; [exact Hag|]. intros b [Hb1 Hb2]. simpl.
    unfold agentCountersOk, listsOf. simpl.
    case_bool_decide as Hba.
    + simpl. lia.
    + destruct (assigned_delete (agent_id b) (lists db) pos d Hpos) as [Hlen' Hsum'].
      rewrite decide_False in Hlen', Hsum' by congruence.
      unfold listsOf in Hb1, Hb2. simpl in Hsum'. lia.
  - rewrite agent_ids_replaceAgent. by apply Forall_delete.
Qed.

(** An agent without Sub-Lists is removed. *)
Lemma consistent_delete_agent db pos a :
  consistent db → agents db !! pos = Some a → (assignedListsCount a ≤ 0)%Z →
  consistent {| lists := lists db; agents := delete pos (agents db);
                nextId := nextId db |}
  ∧ listsOf (agent_id a) db = [].
Proof.
  intros [Ha Hl Hu Hc Hag Has] Hpos Hle.
  destruct (proj1 (Forall_lookup _ _) Hag pos a Hpos) as [Hcnt _].
  assert (listsOf (agent_id a) db = []) as Hnone by (apply nil_iff_length; lia).
  split; [|done].
  constructor; simpl; try done.
  - eapply sublist_NoDup; [exact Ha|]. apply fmap_sublist, sublist_delete.
  - apply Forall_delete. eapply Forall_impl; [exact Hag|]. intros b Hb. exact Hb.
  - apply Forall_forall. intros l Hl'.
    pose proof (proj1 (Forall_forall _ _) Has l Hl') as Hin. simpl in Hin.
    apply list_elem_of_fmap in Hin as (b & Hbid & Hb).
    apply list_elem_of_fmap. exists b. split; [done|].
    rewrite delete_take_drop.
    rewrite <- (take_drop_middle (agents db) pos a Hpos) in Hb.
    rewrite elem_of_app, elem_of_cons in Hb. rewrite elem_of_app.
    destruct Hb as [Hb|[->|Hb]]; [by left| |by right].
    exfalso. assert (l ∈ listsOf (agent_id a) db) as Hl2.
    { unfold listsOf. by apply list_elem_of_filter. }
    rewrite Hnone in Hl2. by apply elem_of_nil in Hl2.
Qed.

(** A new Sub-List is stored under a fresh id and its agent is credited
    with it. *)
Lemma consistent_assign db a l n :
  consistent db → a ∈ agents db →
  list_id l = nextId db → agentId l = agent_id a → counters_ok l →
  (nextId db < n)%N →
  consistent {| lists := lists db ++ [l];
                agents := replaceAgent (bump a (totalItems l)) (agents db);
                nextId := n |}.
Proof.
  intros [Ha Hl Hu Hc Hag Has] Hin Hid Hagent Hl' Hn.
  constructor; simpl.
  - by rewrite agent_ids_replaceAgent.
  - rewrite fmap_app. apply NoDup_app. split; [done|]. split.
    + intros x Hx Hx'. simpl in Hx'. apply list_elem_of_singleton in Hx'.
      apply list_elem_of_fmap in Hx as (d & -> & Hd).
      pose proof (proj1 (Forall_forall _ _) Hu d Hd) as Hlt. simpl in Hlt. lia.
    + simpl. apply NoDup_singleton.
  - apply Forall_app. split.
    + eapply Forall_impl; [exact Hu|]. simpl. intros d. lia.
    + apply Forall_singleton. lia.
  - apply Forall_app. split; [done|]. by apply Forall_singleton.
  - unfold replaceAgent. apply Forall_fmap.
    pose proof (proj1 (Forall_forall _ _) Hag a Hin) as [Hacnt Hatot].
    eapply Forall_impl; [exact Hag|]. intros b [Hb1 Hb2]. simpl.
    unfold agentCountersOk, listsOf in *. simpl.
    case_bool_decide as Hba; simpl; rewrite assigned_snoc.
    + rewrite decide_True by done. rewrite length_app, sumOf_app, sumOf_cons.
      simpl. unfold sumOf at 2. simpl. lia.
    + rewrite decide_False by congruence. rewrite app_nil_r. done.
  - rewrite agent_ids_replaceAgent. apply Forall_app. split; [done|].
    apply Forall_singleton. rewrite Hagent.
    apply list_elem_of_fmap. by exists a.
Qed.

(** Every iteration of the distribution loop keeps the collections
    consistent, also the one whose save is rejected. *)
Lemma distributeLoop_consistent contacts base rem ud now ags : ∀ i cur dists db,
  consistent db → Forall (λ a, a ∈ agents db) ags → NoDup (agent_id <$> ags) →
  consistent (distributeLoop contacts base rem ud now i cur ags dists db).2.
Proof.
  induction ags as [|a rest IH]; intros i cur dists db Hdb Hin Hnd; [done|].
  cbn [distributeLoop].
  set (cnt := base + (if i <? rem then 1 else 0)).
  set (sl := JS.slice cur (cur + cnt) contacts).
  apply Forall_cons in Hin as [Ha Hrest].
  rewrite fmap_cons in Hnd. apply NoDup_cons in Hnd as [Hfresh Hnd].
  destruct (0 <? length sl) eqn:Hne; [|by apply IH].
  unfold bind at 1. rewrite newList_run.
  unfold bind at 1. unfold save at 1.
  destruct (validate (docFor ud now a sl (nextId db))) as [|f fs] eqn:Hval.
  - unfold bind at 1. cbn [incrementAssignedCount saveAgent].
    apply IH; [| |done]; simpl.
    + match goal with
      | |- consistent {| lists := _; agents := replaceAgent ?x _; nextId := _ |} =>
          replace x
            with (bump a (totalItems (preSave now (docFor ud now a sl (nextId db)))))
            by (unfold bump; simpl; by rewrite length_castItems)
      end.
      apply consistent_assign; [done|done|done|done|apply preSave_counters_ok|lia].
    + apply Forall_forall. intros b Hb.
      pose proof (proj1 (Forall_forall _ _) Hrest b Hb) as Hstored.
      unfold replaceAgent. apply list_elem_of_fmap. exists b. split; [|done].
      rewrite bool_decide_eq_false_2; [done|]. simpl. intros Heq.
      apply Hfresh. rewrite <- Heq. apply list_elem_of_fmap. by exists b.
  - simpl. apply consistent_nextId; [done|simpl; lia].
Qed.

Lemma activeAgents_stored db :
  Forall (λ a, a ∈ agents db ∧ isActive a = true) (activeAgents db)
  ∧ (NoDup (agent_id <$> agents db) → NoDup (agent_id <$> activeAgents db)).
Proof.
  unfold activeAgents. split.
  - apply Forall_forall. intros a Ha.
    rewrite merge_sort_Permutation in Ha.
    apply list_elem_of_filter in Ha. tauto.
  - intros Hnd. rewrite merge_sort_Permutation.
    eapply sublist_NoDup; [exact Hnd|]. apply fmap_sublist, sublist_filter.
Qed.

Lemma ingest_consistent data file user uuid now db :
  consistent db → consistent (Controller.ingest data file user uuid now db).2.
Proof.
  intros Hdb. rewrite ingest_unfold.
  repeat (match goal with |- context [if ?b then _ else _] => destruct b end;
          [done|]).
  destruct (distributeItems _ _ _ _ _) as [r db1] eqn:Hrun.
  assert (consistent db1) as Hdb1.
  { change db1 with (r, db1).2. rewrite <- Hrun. unfold distributeItems.
    destruct (activeAgents_stored db) as [Hst Hnd].
    apply distributeLoop_consistent; [done| |apply Hnd, Hdb].
    eapply Forall_impl; [exact Hst|]. simpl. tauto. }
  destruct r as [e|ds]; [done|].
  match goal with
  | |- context [Controller.mapM ?f ds db1] =>
      pose proof (mapM_summarize_db (activeAgents db) ds db1) as Hsame;
      destruct (Controller.mapM f ds db1) as [[e|summary] db2]
  end; simpl in Hsame; subst db2; done.
Qed.

(** What the status-update handler leaves in the database. *)
Lemma updateItemStatus_db listId itemId statusText note now db :
  (Controller.updateItemStatus listId itemId statusText note now db).2 = db
  ∨ ∃ pos doc i it it',
      Controller.findListById listId db = Some (pos, doc)
      ∧ itemsId itemId (items doc) = Some (i, it)
      ∧ (Controller.updateItemStatus listId itemId statusText note now db).2
        = {| lists := replaceList
                        (preSave now (withItems (<[i := it']> (items doc)) doc))
                        (lists db);
             agents := agents db; nextId := nextId db |}.
Proof.
  unfold Controller.updateItemStatus.
  destruct (Controller.parseStatus statusText) as [st|]; [|by left].
  destruct (Controller.findListById listId db) as [[pos doc]|] eqn:Hf; [|by left].
  unfold updateItemStatus.
  destruct (itemsId itemId (items doc)) as [[i it]|] eqn:Hi; [|by left].
  unfold save.
  match goal with
  | |- context [validate (withItems (<[i := ?x]> _) _)] => set (it' := x)
  end.
  destruct (validate (withItems (<[i := it']> (items doc)) doc)); [|by left].
  right. exists pos, doc, i, it, it'. done.
Qed.

Lemma updateItemStatus_consistent listId itemId statusText note now db :
  consistent db →
  consistent (Controller.updateItemStatus listId itemId statusText note now db).2.
Proof.
  intros Hdb.
  destruct (updateItemStatus_db listId itemId statusText note now db)
    as [->|(pos & doc & i & it & it' & Hf & Hi & ->)]; [done|].
  apply findListById_found in Hf as [Hpos Hid].
  rewrite (replaceList_insert _ _ pos doc); [|apply Hdb|done|done].
  apply consistent_update with (d := doc);
    [done|done|done|done| |apply preSave_counters_ok].
  simpl. rewrite length_insert.
  symmetry. apply (proj1 (Forall_lookup _ _) (lists_counted _ Hdb) pos doc Hpos).
Qed.

(** Under consistency the agent of a stored Sub-List is stored. *)
Lemma agent_of_list db d :
  consistent db → d ∈ lists db →
  ∃ a, Controller.findAgentById (agentId d) db = Some a
       ∧ a ∈ agents db ∧ agent_id a = agentId d.
Proof.
  intros Hdb Hd. unfold Controller.findAgentById.
  pose proof (proj1 (Forall_forall _ _) (lists_assigned _ Hdb) d Hd) as Hin.
  simpl in Hin. apply list_elem_of_fmap in Hin as (b & Hbid & Hb).
  destruct (list_find (λ a, agent_id a = agentId d) (agents db)) as [[j a]|] eqn:Hfind.
  - apply list_find_Some in Hfind as (Hj & Hja & _).
    exists a. split; [done|]. split; [|done]. by eapply list_elem_of_lookup_2.
  - exfalso. apply list_find_None in Hfind.
    by apply (proj1 (Forall_forall _ _) Hfind b Hb).
Qed.

Lemma deleteList_consistent listId db :
  consistent db → consistent (Controller.deleteList listId db).2.
Proof.
  intros Hdb. unfold Controller.deleteList.
  destruct (Controller.findListById listId db) as [[pos d]|] eqn:Hf; [|done].
  apply findListById_found in Hf as [Hpos _].
  destruct (agent_of_list db d Hdb) as (a & -> & Ha & Hid);
    [by eapply list_elem_of_lookup_2|].
  simpl. by apply consistent_delete_list.
Qed.

Lemma deleteAgent_consistent id db :
  consistent db → consistent (AgentController.deleteAgent id db).2.
Proof.
  intros Hdb. unfold AgentController.deleteAgent.
  destruct (list_find _ _) as [[pos a]|] eqn:Hfind; [|done].
  apply list_find_Some in Hfind as (Hpos & _).
  destruct (0 <? assignedListsCount a)%Z eqn:Hcnt; [done|].
  apply Z.ltb_ge in Hcnt. simpl.
  by apply consistent_delete_agent with (a := a).
Qed.

Lemma serve_consistent db c : consistent db → consistent (serve db c).
Proof.
  intros Hdb. destruct c as [[data file user uuid now|listId itemId st note now|listId]|id];
    simpl.
  - unfold Controller.uploadAndDistribute.
    pose proof (ingest_consistent data file user uuid now db Hdb) as H.
    by destruct (Controller.ingest data file user uuid now db) as [[e|r] db'].
  - by apply updateItemStatus_consistent.
  - by apply deleteList_consistent.
  - by apply deleteAgent_consistent.
Qed.

End Consistency.


(** X8. The two collections stay consistent under every sequence of
    uploads, status updates, Sub-List deletions and agent deletions,
    whether the requests succeed or are refused: ids stay unique, every
    Sub-List keeps counters that agree with its items and belongs to a
    stored agent, and every agent's assignedListsCount and
    totalItemsAssigned are the number and the total size of the Sub-Lists
    stored for it. A database without Sub-Lists whose agents have unique
    ids and zero counters is consistent. *)
Theorem counters_consistent_under_requests (db : DB) (cmds : list Command) :
  consistent db →
  consistent (foldl serve db cmds)
  ∧ ∀ ags n,
      NoDup (agent_id <$> ags) →
      Forall (λ a, assignedListsCount a = 0%Z ∧ totalItemsAssigned a = 0%Z) ags →
      consistent (foldl serve {| lists := []; agents := ags; nextId := n |} cmds).
Proof.
  assert (∀ db0, consistent db0 → consistent (foldl serve db0 cmds)) as Hall.
  { induction cmds as [|c cmds IH]; intros db0 H0; [done|].
    simpl. apply IH. by apply serve_consistent. }
  intros Hdb. split; [by apply Hall|].
  intros ags n Hnd Hzero. apply Hall.
  constructor; simpl; [done|constructor|constructor|constructor| |constructor].
  eapply Forall_impl; [exact Hzero|]. intros a [H1 H2].
  unfold agentCountersOk, listsOf. simpl. by rewrite H1, H2.
Qed.


(** An upload, a status update, a refused agent deletion, a Sub-List
    deletion and an agent deletion, from a database without Sub-Lists. *)
Lemma counters_consistent_under_requests_witness :
  consistent threeAgentDb
  ∧ consistent
      (foldl serve threeAgentDb
         [ OnLists (Upload sevenRows contactsFile 7 "batch-1" 50);
           OnLists (UpdateItem 100 101 "completed" (Some "done") 60);
           DeleteAgent 1;
           OnLists (DeleteList 104);
           DeleteAgent 1 ]).
Proof.
  assert (consistent threeAgentDb) as H.
  { constructor; simpl; try (by constructor).
    - apply (bool_decide_unpack _). vm_compute. exact I.
    - repeat constructor. }
  split; [exact H|].
  exact (proj1 (counters_consistent_under_requests threeAgentDb _ H)).
Defined.


Section Deletion.

(** With unique keys, deleting the element at a position is filtering
    its key out. *)
Lemma delete_unique_filter {A B} `{EqDecision B} (f : A → B) (l : list A) :
  ∀ pos d, NoDup (f <$> l) → l !! pos = Some d →
           delete pos l = filter (λ x, f x ≠ f d) l.
Proof.
  induction l as [|x l IH]; intros pos d Hnd Hpos; [done|].
  rewrite fmap_cons in Hnd. apply NoDup_cons in Hnd as [Hx Hnd].
  destruct pos as [|pos]; simpl in Hpos.
  - injection Hpos as ->. rewrite filter_cons_False by (intros H; by apply H).
    simpl. symmetry. apply filter_all. apply Forall_forall. intros y Hy Heq.
    apply Hx. rewrite <- Heq. apply list_elem_of_fmap. by exists y.
  - rewrite filter_cons_True.
    + simpl. f_equal. by apply IH.
    + intros Heq. apply Hx. rewrite Heq. apply list_elem_of_fmap.
      exists d. split; [done|]. by eapply list_elem_of_lookup_2.
Qed.

Lemma list_find_key {A B} `{EqDecision B} (f : A → B) (v : B) (l : list A) :
  v ∈ f <$> l → ∃ pos d, list_find (λ x, f x = v) l = Some (pos, d).
Proof.
  intros Hin. apply list_elem_of_fmap in Hin as (d & -> & Hd).
  destruct (list_find_elem_of (λ x, f x = f d) l d Hd eq_refl) as [[pos d'] H].
  by exists pos, d'.
Qed.

Lemma list_find_filtered_out {A B} `{EqDecision B} (f : A → B) (v : B) (l : list A) :
  list_find (λ x, f x = v) (filter (λ x, f x ≠ v) l) = None.
Proof.
  apply list_find_None, Forall_forall. intros x Hx.
  by apply list_elem_of_filter in Hx as [Hx _].
Qed.

End Deletion.

(** X9. In a consistent database, deleting a stored Sub-List succeeds,
    its agent is stored, and the floors at 0 are never needed: the agent's
    assignedListsCount goes down by exactly one and its totalItemsAssigned
    by exactly the number of items of the Sub-List. The stored Sub-Lists
    afterwards are the ones with another id, and the id is no longer
    found. *)
Theorem deleteList_decrements_exactly
    (listId : ObjectId) (db : DB) (pos : nat) (doc : ListDoc) :
  consistent db →
  Controller.findListById listId db = Some (pos, doc) →
  ∃ agent agent' db',
    Controller.findAgentById (agentId doc) db = Some agent
    ∧ Controller.deleteList listId db = (Success (), db')
    ∧ lists db' = filter (λ l, list_id l ≠ listId) (lists db)
    ∧ Controller.findListById listId db' = None
    ∧ Controller.findAgentById (agentId doc) db' = Some agent'
    ∧ (1 ≤ assignedListsCount agent)%Z
    ∧ assignedListsCount agent' = (assignedListsCount agent - 1)%Z
    ∧ totalItemsAssigned agent'
      = (totalItemsAssigned agent - Z.of_nat (length (items doc)))%Z
    ∧ (0 ≤ totalItemsAssigned agent')%Z.
Proof.
  intros Hdb Hf.
  apply findListById_found in Hf as Hfound. destruct Hfound as [Hpos Hid].
  assert (doc ∈ lists db) as Hin by (by eapply list_elem_of_lookup_2).
  destruct (agent_of_list db doc Hdb Hin) as (a & Hfa & Ha & Haid).
  destruct (consistent_delete_list db pos doc a Hdb Hpos Ha Haid) as (_ & Hc1 & Hc2).
  pose proof (proj1 (Forall_forall _ _) (lists_counted _ Hdb) doc Hin) as (Htot & _).
  unfold Controller.deleteList. rewrite Hf, Hfa. simpl.
  eexists a, _, _. split; [done|]. split; [reflexivity|]. simpl.
  assert (delete pos (lists db) = filter (λ l, list_id l ≠ listId) (lists db)) as Hdel.
  { rewrite <- Hid. apply delete_unique_filter; [apply Hdb|done]. }
  split; [done|]. split.
  { unfold Controller.findListById. simpl. rewrite Hdel.
    apply list_find_filtered_out. }
  split.
  { apply (findAgentById_replaceAgent (agentId doc) a _ db Hfa). done. }
  simpl. rewrite <- Htot. lia.
Qed.

(** X10. In a consistent database the agent handler deletes an agent
    exactly when the agent is stored and no Sub-List is assigned to it:
    an unknown id is answered with 404, an agent that still has a Sub-List
    with 400, both without any change, and otherwise the agent, and
    nothing else, is removed. *)
Theorem deleteAgent_only_without_lists (id : ObjectId) (db : DB) :
  consistent db →
  (id ∉ agent_id <$> agents db →
   AgentController.deleteAgent id db
   = (Failure 404 (Thrown "Agent not found"), db))
  ∧ (id ∈ agent_id <$> agents db → listsOf id db ≠ [] →
     ∃ e, AgentController.deleteAgent id db = (Failure 400 e, db))
  ∧ (id ∈ agent_id <$> agents db → listsOf id db = [] →
     AgentController.deleteAgent id db
     = (Success (),
        {| lists := lists db;
           agents := filter (λ a, agent_id a ≠ id) (agents db);
           nextId := nextId db |})).
Proof.
  intros Hdb. unfold AgentController.deleteAgent.
  split; [|split].
  - intros Hno.
    destruct (list_find (λ a, agent_id a = id) (agents db)) as [[pos a]|] eqn:Hfind;
      [|done].
    exfalso. apply list_find_Some in Hfind as (Hpos & Hida & _).
    apply Hno. apply list_elem_of_fmap. exists a. split; [done|].
    by eapply list_elem_of_lookup_2.
  - intros Hin Hsome.
    destruct (list_find_key agent_id id (agents db) Hin) as (pos & a & Hfind).
    rewrite Hfind. apply list_find_Some in Hfind as (Hpos & <- & _).
    destruct (proj1 (Forall_lookup _ _) (agents_counted _ Hdb) pos a Hpos) as [Hcnt _].
    apply (not_iff_compat (nil_iff_length _)) in Hsome.
    replace (0 <? assignedListsCount a)%Z with true by (symmetry; apply Z.ltb_lt; lia).
    by eexists.
  - intros Hin Hnone.
    destruct (list_find_key agent_id id (agents db) Hin) as (pos & a & Hfind).
    rewrite Hfind. apply list_find_Some in Hfind as (Hpos & <- & _).
    destruct (proj1 (Forall_lookup _ _) (agents_counted _ Hdb) pos a Hpos) as [Hcnt _].
    rewrite Hnone in Hcnt. simpl in Hcnt.
    replace (0 <? assignedListsCount a)%Z with false by (symmetry; apply Z.ltb_ge; lia).
    do 2 f_equal. apply delete_unique_filter; [apply Hdb|done].
Qed.


(** The database after the upload of seven rows is consistent. *)
Lemma deleteList_decrements_exactly_witness :
  consistent afterUpload
  ∧ (∃ doc, Controller.findListById 104 afterUpload = Some (1, doc))
  ∧ ∃ db', Controller.deleteList 104 afterUpload = (Success (), db')
           ∧ Controller.findListById 104 db' = None.
Proof.
  assert (consistent afterUpload) as H
    by (constructor; unfold agentCountersOk, counters_ok;
        apply (bool_decide_unpack _); vm_compute; exact I).
  destruct (Controller.findListById 104 afterUpload) as [[pos doc]|] eqn:Hf;
    [|vm_compute in Hf; discriminate].
  assert (pos = 1) as -> by (vm_compute in Hf; congruence).
  split; [exact H|]. split; [by exists doc|].
  destruct (deleteList_decrements_exactly 104 afterUpload 1 doc H Hf)
    as (agent & agent' & db' & _ & Hrun & _ & Hgone & _).
  exists db'. split; [exact Hrun | exact Hgone].
Defined.

Lemma deleteAgent_only_without_lists_witness :
  consistent afterUpload
  ∧ ∃ e, AgentController.deleteAgent 2 afterUpload = (Failure 400 e, afterUpload).
Proof.
  assert (consistent afterUpload) as H
    by (constructor; unfold agentCountersOk, counters_ok;
        apply (bool_decide_unpack _); vm_compute; exact I).
  split; [exact H|].
  apply (proj1 (proj2 (deleteAgent_only_without_lists 2 afterUpload H))).
  - apply (bool_decide_unpack _). vm_compute. exact I.
  - vm_compute. discriminate.
Defined.


(** ** Reports and agent counters *)

Section Reports.

Lemma foldr_sum_ext {A} (f g : A → Z) (l : list A) :
  Forall (λ a, f a = g a) l →
  foldr (λ a acc, f a + acc)%Z 0%Z l = foldr (λ a acc, g a + acc)%Z 0%Z l.
Proof. induction 1 as [|a l Ha _ IH]; simpl; congruence. Qed.

Lemma foldr_sum_add {A} (f g : A → Z) (l : list A) :
  foldr (λ a acc, (f a + g a) + acc)%Z 0%Z l
  = (foldr (λ a acc, f a + acc)%Z 0%Z l + foldr (λ a acc, g a + acc)%Z 0%Z l)%Z.
Proof. induction l as [|a l IH]; simpl; lia. Qed.

Lemma foldr_sum_absent (ags : list Agent) (v : ObjectId) (t : Z) :
  v ∉ agent_id <$> ags →
  foldr (λ a acc, (if decide (v = agent_id a) then t else 0) + acc)%Z 0%Z ags = 0%Z.
Proof.
  induction ags as [|a ags IH]; intros Hv; [done|].
  rewrite fmap_cons in Hv. apply not_elem_of_cons in Hv as [Hva Hv].
  simpl. rewrite decide_False by done. rewrite IH by done. done.
Qed.

Lemma foldr_sum_unique (ags : list Agent) (v : ObjectId) (t : Z) :
  NoDup (agent_id <$> ags) → v ∈ agent_id <$> ags →
  foldr (λ a acc, (if decide (v = agent_id a) then t else 0) + acc)%Z 0%Z ags = t.
Proof.
  induction ags as [|a ags IH]; intros Hnd Hv.
  - by apply elem_of_nil in Hv.
  - rewrite fmap_cons in Hnd, Hv. apply NoDup_cons in Hnd as [Ha Hnd].
    simpl. destruct (decide (v = agent_id a)) as [->|Hne].
    + rewrite foldr_sum_absent by done. lia.
    + apply elem_of_cons in Hv as [?|Hv]; [done|]. rewrite IH by done. lia.
Qed.

(** Summing, over agents with unique ids, the sizes of the Sub-Lists of
    each agent counts every Sub-List that has a stored agent once. *)
Lemma sum_by_agent (ags : list Agent) (ls : list ListDoc) :
  NoDup (agent_id <$> ags) →
  Forall (λ l, agentId l ∈ agent_id <$> ags) ls →
  foldr (λ a acc,
           sumOf totalItems (filter (λ l, agentId l = agent_id a) ls) + acc)%Z 0%Z ags
  = sumOf totalItems ls.
Proof.
  intros Hnd. induction 1 as [|l ls Hl _ IH].
  - clear. induction ags as [|a ags IH]; [done|]. simpl. by rewrite IH.
  - rewrite (foldr_sum_ext _
               (λ a, (if decide (agentId l = agent_id a)
                      then Z.of_nat (totalItems l) else 0)
                     + sumOf totalItems (filter (λ l, agentId l = agent_id a) ls))%Z).
    + rewrite foldr_sum_add, foldr_sum_unique, IH, sumOf_cons by done. done.
    + apply Forall_forall. intros a _.
      destruct (decide (agentId l = agent_id a)).
      * rewrite filter_cons_True by done. by rewrite sumOf_cons.
      * rewrite filter_cons_False by done. lia.
Qed.

Lemma getAgentStats_total db :
  AgentController.st_totalAssignedItems (AgentController.getAgentStats db)
  = foldr (λ a acc, totalItemsAssigned a + acc)%Z 0%Z (agents db).
Proof. unfold AgentController.getAgentStats. by destruct (agents db). Qed.

Lemma getAgentStats_active db :
  AgentController.st_activeAgents (AgentController.getAgentStats db)
  = Z.of_nat (length (filter (λ a, isActive a = true) (agents db))).
Proof.
  unfold AgentController.getAgentStats.
  transitivity (foldr (λ a acc, (if isActive a then 1 else 0) + acc)%Z 0%Z (agents db));
    [by destruct (agents db)|].
  induction (agents db) as [|a ags IH]; [done|].
  simpl. rewrite IH. destruct (isActive a) eqn:Ha.
  - rewrite filter_cons_True by done. simpl. lia.
  - rewrite filter_cons_False by (by rewrite Ha). lia.
Qed.

Lemma dashboard_totals db ds :
  Controller.getDashboardStats db = Success ds →
  Controller.ds_totalItems ds = sumOf totalItems (lists db)
  ∧ Controller.ds_totalLists ds = Z.of_nat (length (lists db)).
Proof.
  unfold Controller.getDashboardStats. intros [= <-]. simpl.
  destruct (lists db) as [|l ls]; [done|]. simpl.
  by rewrite <- sumField_totalItems.
Qed.

Lemma createdBefore_total : Total createdBefore.
Proof. intros a b. unfold createdBefore. lia. Qed.

Lemma createdBefore_trans : Transitive createdBefore.
Proof. intros a b c. unfold createdBefore. lia. Qed.

End Reports.

(** X11. In a consistent database the agent statistics agree with the
    dashboard: the totalAssignedItems that getAgentStats sums from the
    agent documents is the totalItems that getDashboardStats sums from the
    Sub-Lists, every Sub-List being counted for exactly one stored
    agent. *)
Theorem reports_agree_with_agent_counters (db : DB) :
  consistent db →
  ∃ ds, Controller.getDashboardStats db = Success ds
        ∧ AgentController.st_totalAssignedItems (AgentController.getAgentStats db)
          = Controller.ds_totalItems ds
        ∧ Controller.ds_totalItems ds = sumOf totalItems (lists db).
Proof.
  intros Hdb. eexists. split; [reflexivity|].
  rewrite (proj1 (dashboard_totals db _ eq_refl)). split; [|done].
  rewrite getAgentStats_total.
  rewrite (foldr_sum_ext _ (λ a, sumOf totalItems (listsOf (agent_id a) db))).
  - apply sum_by_agent; apply Hdb.
  - eapply Forall_impl; [apply (agents_counted _ Hdb)|]. by intros a [_ H].
Qed.

(** X12. findActiveAgents changes nothing and returns the stored agents
    that are active, each once, in ascending order of creation; unique
    agent ids stay unique in the result; and the activeAgents figure of
    the agent statistics is the number of agents it returns. *)
Theorem findActiveAgents_sorted_active (db : DB) :
  ∃ team,
    findActiveAgents db = (inr team, db)
    ∧ StronglySorted createdBefore team
    ∧ team ≡ₚ filter (λ a, isActive a = true) (agents db)
    ∧ (∀ a, a ∈ team ↔ a ∈ agents db ∧ isActive a = true)
    ∧ (NoDup (agent_id <$> agents db) → NoDup (agent_id <$> team))
    ∧ AgentController.st_activeAgents (AgentController.getAgentStats db)
      = Z.of_nat (length team).
Proof.
  exists (activeAgents db). split; [done|]. unfold activeAgents.
  split; [apply StronglySorted_merge_sort;
          [apply createdBefore_trans | apply createdBefore_total]|].
  split; [apply merge_sort_Permutation|].
  split.
  { intros a. rewrite merge_sort_Permutation, list_elem_of_filter. tauto. }
  split; [apply activeAgents_stored|].
  rewrite getAgentStats_active. by rewrite merge_sort_Permutation.
Qed.


Lemma reports_agree_with_agent_counters_witness :
  consistent afterUpload
  ∧ ∃ ds, Controller.getDashboardStats afterUpload = Success ds
          ∧ AgentController.st_totalAssignedItems
              (AgentController.getAgentStats afterUpload)
            = Controller.ds_totalItems ds.
Proof.
  assert (consistent afterUpload) as H
    by (constructor; unfold agentCountersOk, counters_ok;
        apply (bool_decide_unpack _); vm_compute; exact I).
  split; [exact H|].
  destruct (reports_agree_with_agent_counters afterUpload H) as (ds & Hds & Heq & _).
  exists ds. split; [exact Hds | exact Heq].
Defined.


(** ** Outcomes of an upload *)

Section Upload.

Lemma distributeItems_accepts contacts team ud now db :
  sliceOk ud contacts →
  ∃ ds db', distributeItems contacts team ud now db = (inr ds, db').
Proof.
  intros [Hu Hc].
  destruct (distributeItems contacts team ud now db) as [r db'] eqn:Hrun.
  unfold distributeItems in Hrun.
  apply distributeLoop_run in Hrun as (got & new & Hpre & Hper & _ & _ & Hr).
  rewrite shares_fair in Hpre, Hr.
  destruct r as [e|ds]; [|by eauto].
  destruct Hr as (p & fs & Hp & _ & Hbad). exfalso. apply Hbad.
  split; [done|].
  assert (Forall (λ q, Forall (λ c, contactOk c = true) q.2) (got ++ [p])) as HF
    by (by eapply prefix_nonEmptyShares_Forall).
  apply Forall_app in HF as [_ HF]. rewrite Forall_singleton in HF. exact HF.
Qed.

Lemma distributeItems_inr_ok contacts team ud now db ds db' :
  1 ≤ length team → contacts ≠ [] →
  distributeItems contacts team ud now db = (inr ds, db') →
  sliceOk ud contacts.
Proof.
  intros HM Hne Hd.
  apply distributeItems_run in Hd as (got & new & _ & Hper & _ & _ & ->).
  assert (Forall (λ p, sliceOk ud p.2) (nonEmptyShares (fairShares contacts team)))
    as Hok.
  { eapply Forall2_Forall_r; [exact Hper|].
    apply Forall_forall. intros l _ p [_ Hp]. exact Hp. }
  pose proof (concat_nonEmptyShares (fairShares contacts team)) as Hcat.
  rewrite concat_fairShares in Hcat by done.
  clear Hper. split.
  - destruct (nonEmptyShares (fairShares contacts team)) as [|p ps];
      [exfalso; apply Hne; by rewrite <- Hcat|].
    apply Forall_cons in Hok as [[Hu _] _]. exact Hu.
  - rewrite <- Hcat. clear Hcat.
    induction Hok as [|p ps [_ Hp] _ IH]; [constructor|].
    rewrite fmap_cons. cbn [concat]. apply Forall_app. by split.
Qed.

Lemma mapM_summarize_ok team ds db :
  Forall (λ d, agentId d ∈ agent_id <$> team) ds →
  ∃ ys, Controller.mapM (Controller.summarize team) ds db = (inr ys, db).
Proof.
  induction 1 as [|d ds Hd _ [ys IH]]; [by eexists|].
  cbn [Controller.mapM]. unfold bind at 1. unfold Controller.summarize at 1.
  destruct (list_find_key agent_id (agentId d) team Hd) as (pos & a & ->).
  unfold ret at 1. unfold bind at 1. rewrite IH. by eexists.
Qed.

Lemma persisted_agents ud now contacts team new got :
  got `prefix_of` nonEmptyShares (fairShares contacts team) →
  Forall2 (persistedAs ud now) new got →
  Forall (λ p, p.1 ∈ team) got
  ∧ Forall (λ d, agentId d ∈ agent_id <$> team) new.
Proof.
  intros Hpre Hper.
  assert (Forall (λ p, p.1 ∈ team) got) as Hgot.
  { apply prefix_nonEmptyShares_sublist in Hpre.
    apply Forall_forall. intros p Hp.
    rewrite <- (fst_fairShares contacts team).
    apply list_elem_of_fmap. exists p. split; [done|].
    eapply elem_of_sublist; [exact Hp|exact Hpre]. }
  split; [done|].
  clear Hpre. induction Hper as [|d p new got Hdp _ IH]; [constructor|].
  apply Forall_cons in Hgot as [Hp Hgot]. constructor; [|by apply IH].
  rewrite (persistedAs_agentId _ _ _ _ Hdp).
  apply list_elem_of_fmap. by exists p.1.
Qed.

End Upload.

(** X13. Beside a refusal for invalid rows, an upload has four outcomes,
    decided in this order. A missing required column: 400 with the list of
    missing columns, nothing written. No active agent: 400 with "No active
    agents available for distribution", nothing written. Otherwise the
    upload succeeds exactly when the upload id, both file names and every
    contact pass the List schema, and else it is answered with 400 and the
    validation error of the first Sub-List that does not pass. *)
Theorem uploadAndDistribute_outcomes
    (data : list Row) (file : Controller.File) (user : ObjectId)
    (uuid : string) (now : Date) (db : DB) :
  let ud := {| ud_uploadId := uuid;
               ud_fileName := Controller.filename file;
               ud_originalFileName := Controller.originalname file;
               ud_uploadedBy := user |} in
  let answer := Controller.uploadAndDistribute data file user uuid now db in
  (Controller.missingFields data ≠ [] →
   answer = (Failure 400
               (Thrown ("Missing required columns: "
                        +:+ JS.join ", " (Controller.missingFields data)
                        +:+ ". Expected: FirstName, Phone, Notes")), db))
  ∧ (Controller.missingFields data = [] → rowErrors data = [] →
     (activeAgents db = [] →
      answer = (Failure 400 (Thrown "No active agents available for distribution"),
                db))
     ∧ (activeAgents db ≠ [] →
        (sliceOk ud (rowContacts data) ↔ ∃ res db', answer = (Success res, db'))
        ∧ (¬ sliceOk ud (rowContacts data) ↔
           ∃ fs db', answer = (Failure 400 (ValidationError fs), db')))).
Proof.
  intros ud answer. subst answer. unfold Controller.uploadAndDistribute.
  rewrite ingest_unfold, forEachRow_all. cbn [fst snd].
  split.
  - intros Hm. apply (not_iff_compat (nil_iff_length _)) in Hm.
    replace (0 <? length (Controller.missingFields data)) with true
      by (symmetry; apply Nat.ltb_lt; lia).
    done.
  - intros Hm He.
    pose proof (missingFields_nil_data data Hm) as Hdata.
    destruct (rowErrors_nil data He) as [_ Hlen].
    rewrite Hm, He. cbn [length Nat.ltb Nat.leb].
    replace (length (rowContacts data) =? 0) with false
      by (symmetry; apply Nat.eqb_neq; lia).
    split.
    { intros ->. done. }
    intros Hags. apply (not_iff_compat (nil_iff_length _)) in Hags.
    replace (length (activeAgents db) =? 0) with false
      by (symmetry; apply Nat.eqb_neq; lia).
    fold ud.
    destruct (distributeItems (rowContacts data) (activeAgents db) ud now db)
      as [r db1] eqn:Hd.
    assert (rowContacts data ≠ []) as Hne.
    { intros H0. rewrite H0 in Hlen. simpl in Hlen. lia. }
    assert (sliceOk ud (rowContacts data) ↔ ∃ ds, r = inr ds) as Hiff.
    { split.
      - intros Hok. destruct (distributeItems_accepts _ (activeAgents db) _ now db Hok)
          as (ds & db2 & Hrun). rewrite Hrun in Hd. injection Hd as <- _. by eexists.
      - intros [ds ->]. eapply distributeItems_inr_ok; [|done|exact Hd]. lia. }
    destruct r as [e|ds].
    + apply distributeItems_error in Hd as [fs ->].
      split; split.
      * intros Hok. apply Hiff in Hok as [ds [=]].
      * intros (res & db' & [=]).
      * intros _. by eexists _, _.
      * intros _ Hok. apply Hiff in Hok as [ds [=]].
    + apply distributeItems_run in Hd as (got & new & Hpre & Hper & _ & -> & ->).
      destruct (persisted_agents _ _ _ _ _ _ Hpre Hper) as [_ Hteam].
      destruct (mapM_summarize_ok _ _ db1 Hteam) as [ys ->].
      split; split.
      * intros _. by eexists _, _.
      * intros _. apply Hiff. by eexists.
      * intros Hbad. exfalso. apply Hbad, Hiff. by eexists.
      * intros (fs & db' & [=]).
Qed.


(** X14. The row checks of the controller subsume the required and
    phone validators of the item schema: the item cast from a contact that
    the row validator produced holds the contact's three strings unchanged,
    and the only validators that can fail on it are the two length limits,
    100 characters for the first name and 500 for the notes. *)
Theorem row_checks_subsume_item_validators
    (index : nat) (row : Row) (c : ContactRecord) (id : ObjectId) (i : nat) :
  Controller.validateRow index row = inr c →
  contactOf (castItem id c) = c
  ∧ validateItem i (castItem id c)
    = (if 100 <? String.length (c_firstName c)
       then [(itemPath i "firstName", "First name cannot exceed 100 characters")]
       else [])
      ++ (if 500 <? String.length (c_notes c)
          then [(itemPath i "notes", "Notes cannot exceed 500 characters")]
          else [])
  ∧ (contactOk c = true
     ↔ String.length (c_firstName c) ≤ 100 ∧ String.length (c_notes c) ≤ 500).
Proof.
  intros Hrow.
  assert (castContact c = c) as Hcast by (apply validated_cast; by exists index, row).
  apply validateRow_inr in Hrow as (_ & _ & _ & Hf & Hp & Hpat).
  destruct c as [f p n]. unfold castContact in Hcast. simpl in *.
  injection Hcast as Hf' Hp' Hn'.
  split; [unfold contactOf; simpl; congruence|].
  assert (JS.isEmpty f = false) as Hfe by (by destruct f).
  assert (JS.isEmpty p = false) as Hpe by (by destruct p).
  split.
  - unfold validateItem. simpl. rewrite Hf', Hp', Hn', Hfe, Hpe, Hpat. simpl.
    by destruct (100 <? String.length f).
  - unfold contactOk, itemOk. simpl. rewrite Hf', Hp', Hn', Hfe, Hpe, Hpat. simpl.
    rewrite !andb_true_r, andb_true_iff, !negb_true_iff, !Nat.ltb_ge. done.
Qed.

Lemma row_checks_subsume_item_validators_witness :
  (∃ c, Controller.validateRow 0 longNotesRow = inr c)
  ∧ ∀ c, Controller.validateRow 0 longNotesRow = inr c →
         validateItem 0 (castItem 5 c)
         = [(itemPath 0 "notes", "Notes cannot exceed 500 characters")].
Proof.
  split; [eexists; vm_compute; reflexivity|].
  intros c Hc.
  rewrite (proj1 (proj2 (row_checks_subsume_item_validators 0 longNotesRow c 5 0 Hc))).
  vm_compute in Hc. injection Hc as <-. vm_compute. reflexivity.
Defined.


Section Summary.

Lemma filter_imap_prefix {A B} (P : B → Prop) `{∀ x, Decision (P x)} (l : list A) :
  ∀ (f : nat → A → B) k,
    (∀ i a, l !! i = Some a → P (f i a) ↔ i < k) →
    filter P (imap f l) = take k (imap f l).
Proof.
  induction l as [|x l IH]; intros f k Hk; [by destruct k|].
  rewrite imap_cons. destruct k as [|k].
  - rewrite filter_cons_False by (rewrite (Hk 0 x eq_refl); lia).
    rewrite (IH (f ∘ S) 0); [done|].
    intros i a Hi. simpl. rewrite (Hk (S i) a Hi). lia.
  - rewrite filter_cons_True by (rewrite (Hk 0 x eq_refl); lia).
    simpl. f_equal. apply IH.
    intros i a Hi. simpl. rewrite (Hk (S i) a Hi). lia.
Qed.

(** The agents that receive a Sub-List are the first min(N, M) of the
    team. *)
Lemma nonEmptyShares_take (contacts : list ContactRecord) (team : list Agent) :
  1 ≤ length team →
  nonEmptyShares (fairShares contacts team)
  = take (length contacts `min` length team) (fairShares contacts team).
Proof.
  intros HM. unfold nonEmptyShares, fairShares.
  apply filter_imap_prefix. intros i a Hi. simpl.
  apply lookup_lt_Some in Hi.
  rewrite length_shareOf by lia.
  pose proof (shareSize_0 (length contacts) (length team) i HM). lia.
Qed.

Lemma list_find_unique {A B} `{EqDecision B} (f : A → B) (l : list A) x :
  NoDup (f <$> l) → x ∈ l → ∃ i, list_find (λ y, f y = f x) l = Some (i, x).
Proof.
  intros Hnd Hx. apply list_elem_of_lookup in Hx as [i Hi].
  exists i. apply list_find_Some. split; [done|]. split; [done|].
  intros j y Hj Hlt Heq.
  assert (j = i); [|lia].
  eapply (NoDup_lookup _ _ _ _ Hnd); rewrite list_lookup_fmap.
  - by rewrite Hj.
  - rewrite Hi. simpl. by rewrite Heq.
Qed.

Lemma mapM_summarize_shares ud now team new got db :
  NoDup (agent_id <$> team) →
  Forall (λ p, p.1 ∈ team) got →
  Forall2 (persistedAs ud now) new got →
  Controller.mapM (Controller.summarize team) new db = (inr (summaryOf <$> got), db).
Proof.
  intros Hnd Hteam Hper. induction Hper as [|d p new got Hdp _ IH]; [done|].
  apply Forall_cons in Hteam as [Hp Hteam].
  cbn [Controller.mapM]. unfold bind at 1. unfold Controller.summarize at 1.
  rewrite (persistedAs_agentId _ _ _ _ Hdp).
  destruct (list_find_unique agent_id team p.1 Hnd Hp) as [i ->].
  unfold ret at 1. unfold bind at 1. rewrite (IH Hteam).
  unfold ret.
  destruct (persistedAs_items _ _ _ _ Hdp) as (Hlen & _ & (Htot & _) & _).
  unfold summaryOf. by rewrite Htot, Hlen.
Qed.

Lemma sum_itemsCount (got : list (Agent * list ContactRecord)) :
  sum_list (Controller.itemsCount <$> (summaryOf <$> got))
  = length (concat (snd <$> got)).
Proof.
  induction got as [|p got IH]; [done|].
  rewrite !fmap_cons. cbn [concat sum_list_with sum_list].
  rewrite length_app. unfold sum_list, id in *. simpl. lia.
Qed.

End Summary.

(** X15. The response of a successful upload (agent ids unique): it
    reports the number of data rows as totalItems and the number of active
    agents as totalAgents, and its distributions are the lines, in order,
    of the first min(rows, agents) active agents in creation order, each
    with the agent's id, name and email and the size of its fair share.
    The itemsCount of the lines add up to the number of rows. *)
Theorem uploadAndDistribute_summary
    (data : list Row) (file : Controller.File) (user : ObjectId)
    (uuid : string) (now : Date) (db : DB)
    (res : Controller.UploadResult) (db' : DB) :
  NoDup (agent_id <$> agents db) →
  Controller.uploadAndDistribute data file user uuid now db = (Success res, db') →
  let team := activeAgents db in
  let n := length data `min` length team in
  Controller.res_uploadId res = uuid
  ∧ Controller.res_totalItems res = length data
  ∧ Controller.res_totalAgents res = length team
  ∧ 1 ≤ n
  ∧ Controller.res_distributions res
    = summaryOf <$> take n (fairShares (rowContacts data) team)
  ∧ length (Controller.res_distributions res) = n
  ∧ sum_list (Controller.itemsCount <$> Controller.res_distributions res)
    = length data.
Proof.
  intros Hnd Hrun team n. subst team n.
  unfold Controller.uploadAndDistribute in Hrun.
  rewrite ingest_unfold, forEachRow_all in Hrun. cbn [fst snd] in Hrun.
  destruct (0 <? length (Controller.missingFields data)) eqn:Hm; [done|].
  destruct (0 <? length (rowErrors data)) eqn:He; [done|].
  destruct (length (rowContacts data) =? 0) eqn:Hz; [done|].
  destruct (length (activeAgents db) =? 0) eqn:Ha; [done|].
  apply Nat.ltb_ge in Hm, He. apply Nat.eqb_neq in Hz, Ha.
  assert (rowErrors data = []) as He' by (apply nil_iff_length; lia).
  destruct (rowErrors_nil data He') as [_ Hlen].
  destruct (distributeItems _ _ _ _ _) as [[e|ds] db1] eqn:Hd; [done|].
  apply distributeItems_run in Hd as (got & new & Hpre & Hper & _ & -> & ->).
  destruct (persisted_agents _ _ _ _ _ _ Hpre Hper) as [Hteam _].
  destruct (activeAgents_stored db) as [_ Hnd'].
  rewrite (mapM_summarize_shares _ _ _ _ _ db1 (Hnd' Hnd) Hteam Hper) in Hrun.
  injection Hrun as <- _. simpl.
  rewrite sum_itemsCount, concat_nonEmptyShares, concat_fairShares by lia.
  rewrite nonEmptyShares_take by lia. rewrite Hlen.
  split; [done|]. split; [done|]. split; [done|]. split; [lia|].
  split; [done|]. split; [|done].
  rewrite length_fmap, length_take. unfold fairShares. rewrite length_imap. lia.
Qed.

Lemma uploadAndDistribute_summary_witness :
  NoDup (agent_id <$> agents threeAgentDb)
  ∧ ∃ res db',
      Controller.uploadAndDistribute sevenRows contactsFile 7 "batch-1" 50 threeAgentDb
      = (Success res, db')
      ∧ sum_list (Controller.itemsCount <$> Controller.res_distributions res) = 7.
Proof.
  assert (NoDup (agent_id <$> agents threeAgentDb)) as Hnd
    by (apply (bool_decide_unpack _); vm_compute; exact I).
  split; [exact Hnd|].
  destruct (Controller.uploadAndDistribute sevenRows contactsFile 7 "batch-1" 50
              threeAgentDb) as [[res|code e] db'] eqn:Hrun;
    [|vm_compute in Hrun; discriminate].
  exists res, db'. split; [reflexivity|].
  exact (proj2 (proj2 (proj2 (proj2 (proj2 (proj2
           (uploadAndDistribute_summary _ _ _ _ _ _ _ _ Hnd Hrun))))))).
Defined.


(** ** Pages of getAllDistributions *)

Section Batches.

Lemma groupByUpload_keys docs :
  Controller.d_id <$> Controller.groupByUpload docs = remove_dups (uploadId <$> docs).
Proof.
  unfold Controller.groupByUpload.
  assert (Forall (λ key, key ∈ uploadId <$> docs) (remove_dups (uploadId <$> docs)))
    as Hkeys.
  { apply Forall_forall. intros key. by rewrite elem_of_remove_dups. }
  induction Hkeys as [|key keys Hkey _ IH]; [done|].
  cbn [omap list_omap].
  destruct (filter (λ l, uploadId l = key) docs) as [|first rest] eqn:Hf.
  - exfalso. apply list_elem_of_fmap in Hkey as (l & -> & Hl).
    by eapply (filter_nil_not_elem_of _ docs l Hf).
  - rewrite fmap_cons. simpl. f_equal. exact IH.
Qed.

Lemma newerFirst_total : Total Controller.newerFirst.
Proof. intros a b. unfold Controller.newerFirst. lia. Qed.

Lemma newerFirst_trans : Transitive Controller.newerFirst.
Proof. intros a b c. unfold Controller.newerFirst. lia. Qed.

Lemma StronglySorted_page {A} (R : relation A) skip limit (l : list A) :
  StronglySorted R l → StronglySorted R (take limit (drop skip l)).
Proof.
  intros H. rewrite <- (take_drop skip l) in H.
  apply StronglySorted_app_1_r in H.
  rewrite <- (take_drop limit (drop skip l)) in H.
  by apply StronglySorted_app_1_l in H.
Qed.

Lemma sumOf_zero f (docs : list ListDoc) :
  Forall (λ l, f l = 0) docs → sumOf f docs = 0%Z.
Proof.
  induction 1 as [|d docs Hd _ IH]; [done|]. rewrite sumOf_cons, IH, Hd. done.
Qed.

Lemma sumOf_eq f g (docs : list ListDoc) :
  Forall (λ l, f l = g l) docs → sumOf f docs = sumOf g docs.
Proof.
  induction 1 as [|d docs Hd _ IH]; [done|]. rewrite !sumOf_cons, IH, Hd. done.
Qed.

Lemma sumOf_between f g (d : ListDoc) (docs : list ListDoc) :
  Forall (λ l, 0 < f l < g l) (d :: docs) →
  (0 < sumOf f (d :: docs) < sumOf g (d :: docs))%Z.
Proof.
  intros H. apply Forall_cons in H as [Hd H]. rewrite !sumOf_cons.
  assert (0 ≤ sumOf f docs ≤ sumOf g docs)%Z; [|lia].
  induction H as [|x docs Hx _ IH]; [done|]. rewrite !sumOf_cons. lia.
Qed.

End Batches.

(** X16. A page of getAllDistributions holds at most limit uploads, each
    upload once, ordered from the newest to the oldest; the reported total
    is the number of uploads that have a Sub-List passing the status
    filter, and the page holds min(limit, total - skip) of them. *)
Theorem getAllDistributions_page_order
    (status : option string) (skip limit : nat) (db : DB)
    (ds : list Controller.Distribution) (total : nat) :
  Controller.getAllDistributions status skip limit db = Success (ds, total) →
  StronglySorted Controller.newerFirst ds
  ∧ NoDup (Controller.d_id <$> ds)
  ∧ total = length (Controller.groupByUpload
                      (filter (λ l, Controller.matchFilter status l = true) (lists db)))
  ∧ length ds = limit `min` (total - skip)
  ∧ (∀ key, key ∈ Controller.d_id <$> ds → batchMembers status key db ≠ []).
Proof.
  unfold Controller.getAllDistributions. intros [= <- <-].
  set (matched := filter (λ l, Controller.matchFilter status l = true) (lists db)).
  pose proof (groupByUpload_keys matched) as Hkeys.
  split.
  { apply StronglySorted_page, StronglySorted_merge_sort;
      [apply newerFirst_trans | apply newerFirst_total]. }
  split.
  { eapply sublist_NoDup.
    2: { apply fmap_sublist. etransitivity; [apply sublist_take|apply sublist_drop]. }
    rewrite merge_sort_Permutation, Hkeys. apply NoDup_remove_dups. }
  split.
  { by rewrite <- Hkeys, length_fmap. }
  split.
  { rewrite length_take, length_drop, merge_sort_Permutation.
    by rewrite <- Hkeys, length_fmap. }
  intros key Hkey. apply list_elem_of_fmap in Hkey as (d & -> & Hd).
  apply elem_of_page, elem_of_groupByUpload in Hd as (first & rest & Hf & _).
  unfold batchMembers. fold matched. by rewrite Hf.
Qed.

Lemma getAllDistributions_page_order_witness :
  Controller.getAllDistributions None 0 10 tenItemsDb = Success (tenItemsPage, 1)
  ∧ length tenItemsPage = 10 `min` (1 - 0).
Proof.
  assert (Controller.getAllDistributions None 0 10 tenItemsDb
          = Success (tenItemsPage, 1)) as H by (vm_compute; reflexivity).
  split; [exact H|].
  exact (proj1 (proj2 (proj2 (proj2
           (getAllDistributions_page_order None 0 10 tenItemsDb _ _ H))))).
Defined.

(** X17. The status filter of getAllDistributions is applied to the
    Sub-Lists before they are grouped, and the status of every group it
    returns agrees with it: under "completed" every returned upload has
    status "completed", under "in_progress" status "in_progress", and
    under "pending" its completedItems is 0 and its status is "pending"
    unless its totalItems is 0. Every Sub-List of a returned upload passes
    the filter, so an upload is shown with its matching Sub-Lists only. *)
Theorem getAllDistributions_status_filter
    (query : string) (skip limit : nat) (db : DB)
    (ds : list Controller.Distribution) (total : nat) (d : Controller.Distribution) :
  Controller.getAllDistributions (Some query) skip limit db = Success (ds, total) →
  d ∈ ds →
  Forall (λ l, Controller.matchFilter (Some query) l = true) (Controller.d_lists d)
  ∧ (query = "completed" → Controller.d_status d = "completed")
  ∧ (query = "in_progress" → Controller.d_status d = "in_progress")
  ∧ (query = "pending" →
     Controller.d_completedItems d = 0%Z
     ∧ (Controller.d_status d = "pending"
        ∨ (Controller.d_totalItems d = 0%Z ∧ Controller.d_status d = "completed"))).
Proof.
  unfold Controller.getAllDistributions. intros [= <- <-] Hd.
  apply elem_of_page, elem_of_groupByUpload in Hd as (first & rest & Hf & ->).
  set (matched := filter (λ l, Controller.matchFilter (Some query) l = true) (lists db))
    in *.
  assert (Forall (λ l, Controller.matchFilter (Some query) l = true) (first :: rest))
    as Hall.
  { rewrite <- Hf. apply Forall_forall. intros l Hl.
    apply list_elem_of_filter in Hl as [_ Hl]. unfold matched in Hl.
    by apply list_elem_of_filter in Hl as [Hl _]. }
  split; [exact Hall|]. cbn [Controller.d_status Controller.d_completedItems
                             Controller.d_totalItems Controller.groupOf].
  rewrite sumField_completedItems, sumField_totalItems.
  unfold Controller.overallStatus.
  split; [|split].
  - intros ->.
    rewrite (sumOf_eq completedItems totalItems).
    + by rewrite Z.eqb_refl.
    + eapply Forall_impl; [exact Hall|]. intros l Hl. simpl in Hl.
      by apply Nat.eqb_eq in Hl.
  - intros ->.
    destruct (sumOf_between completedItems totalItems first rest) as [H1 H2].
    + eapply Forall_impl; [exact Hall|]. intros l Hl. simpl in Hl.
      apply andb_true_iff in Hl as [Ha Hb].
      apply Nat.ltb_lt in Ha, Hb. lia.
    + replace (sumOf completedItems (first :: rest) =? sumOf totalItems (first :: rest))%Z
        with false by (symmetry; apply Z.eqb_neq; lia).
      by replace (0 <? sumOf completedItems (first :: rest))%Z
        with true by (symmetry; apply Z.ltb_lt; lia).
  - intros ->.
    rewrite (sumOf_zero completedItems).
    + split; [done|].
      destruct (0 =? sumOf totalItems (first :: rest))%Z eqn:Hz.
      * right. apply Z.eqb_eq in Hz. by rewrite <- Hz.
      * by left.
    + eapply Forall_impl; [exact Hall|]. intros l Hl. simpl in Hl.
      by apply Nat.eqb_eq in Hl.
Qed.

Lemma getAllDistributions_status_filter_witness :
  Controller.getAllDistributions (Some "in_progress") 0 10 tenItemsDb
  = Success ([Controller.groupOf "batch-9" tenItemsFirst [tenItemsFirst; tenItemsSecond]], 1)
  ∧ Controller.groupOf "batch-9" tenItemsFirst [tenItemsFirst; tenItemsSecond]
    ∈ [Controller.groupOf "batch-9" tenItemsFirst [tenItemsFirst; tenItemsSecond]]
  ∧ Controller.d_status
      (Controller.groupOf "batch-9" tenItemsFirst [tenItemsFirst; tenItemsSecond])
    = "in_progress".
Proof.
  assert (Controller.getAllDistributions (Some "in_progress") 0 10 tenItemsDb
          = Success ([Controller.groupOf "batch-9" tenItemsFirst
                        [tenItemsFirst; tenItemsSecond]], 1)) as H
    by (vm_compute; reflexivity).
  assert (Controller.groupOf "batch-9" tenItemsFirst [tenItemsFirst; tenItemsSecond]
          ∈ [Controller.groupOf "batch-9" tenItemsFirst [tenItemsFirst; tenItemsSecond]])
    as Hin by (apply list_elem_of_singleton; reflexivity).
  split; [exact H|]. split; [exact Hin|].
  exact (proj1 (proj2 (proj2
           (getAllDistributions_status_filter _ _ _ _ _ _ _ H Hin))) eq_refl).
Defined.


(** ** Agreement of the reports on uploads *)

Section Overview.

Lemma unfiltered_all (ls : list ListDoc) :
  filter (λ l, Controller.matchFilter None l = true) ls = ls.
Proof. apply filter_all, Forall_forall. done. Qed.

Lemma page_is_everything {A} (R : relation A) `{RelDecision A A R} limit (l : list A) :
  length l ≤ limit → take limit (drop 0 (merge_sort R l)) = merge_sort R l.
Proof.
  intros Hlen. rewrite drop_0. apply take_ge. by rewrite merge_sort_Permutation.
Qed.

Lemma foldr_sum_perm {A} (g : A → Z) (l k : list A) :
  l ≡ₚ k →
  foldr (λ a acc, g a + acc)%Z 0%Z l = foldr (λ a acc, g a + acc)%Z 0%Z k.
Proof. induction 1; simpl; lia. Qed.

Lemma key_sum_absent {K} `{EqDecision K} (keys : list K) (v : K) (t : Z) :
  v ∉ keys →
  foldr (λ key acc, (if decide (v = key) then t else 0) + acc)%Z 0%Z keys = 0%Z.
Proof.
  induction keys as [|a keys IH]; intros Hv; [done|].
  apply not_elem_of_cons in Hv as [Hva Hv].
  simpl. rewrite decide_False by done. rewrite IH by done. done.
Qed.

Lemma key_sum_unique {K} `{EqDecision K} (keys : list K) (v : K) (t : Z) :
  NoDup keys → v ∈ keys →
  foldr (λ key acc, (if decide (v = key) then t else 0) + acc)%Z 0%Z keys = t.
Proof.
  induction keys as [|a keys IH]; intros Hnd Hv.
  - by apply elem_of_nil in Hv.
  - apply NoDup_cons in Hnd as [Ha Hnd].
    simpl. destruct (decide (v = a)) as [->|Hne].
    + rewrite key_sum_absent by done. lia.
    + apply elem_of_cons in Hv as [?|Hv]; [done|]. rewrite IH by done. lia.
Qed.

(** Grouping by a key loses nothing and counts nothing twice. *)
Lemma sum_by_key {K} `{EqDecision K} (owner : ListDoc → K) (h : ListDoc → nat)
    (keys : list K) (docs : list ListDoc) :
  NoDup keys → Forall (λ l, owner l ∈ keys) docs →
  foldr (λ key acc, sumOf h (filter (λ l, owner l = key) docs) + acc)%Z 0%Z keys
  = sumOf h docs.
Proof.
  intros Hnd. induction 1 as [|l ls Hl _ IH].
  - clear. induction keys as [|a keys IH]; [done|]. simpl. by rewrite IH.
  - rewrite (foldr_sum_ext _
               (λ key, (if decide (owner l = key) then Z.of_nat (h l) else 0)
                       + sumOf h (filter (λ l, owner l = key) ls))%Z).
    + rewrite foldr_sum_add, key_sum_unique, IH, sumOf_cons by done. done.
    + apply Forall_forall. intros a _.
      destruct (decide (owner l = a)).
      * rewrite filter_cons_True by done. by rewrite sumOf_cons.
      * rewrite filter_cons_False by done. lia.
Qed.

Lemma sum_groups (g : Controller.Distribution → Z) (h : ListDoc → nat) docs :
  (∀ key first members, g (Controller.groupOf key first members) = sumOf h members) →
  foldr (λ d acc, g d + acc)%Z 0%Z (Controller.groupByUpload docs) = sumOf h docs.
Proof.
  intros Hg.
  rewrite <- (sum_by_key uploadId h (remove_dups (uploadId <$> docs)) docs).
  - unfold Controller.groupByUpload.
    induction (remove_dups (uploadId <$> docs)) as [|key keys IH]; [done|].
    cbn [omap list_omap foldr].
    destruct (filter (λ l, uploadId l = key) docs) as [|first rest] eqn:Hf.
    + rewrite IH. unfold sumOf at 2. simpl. lia.
    + cbn [foldr]. rewrite IH, Hg. done.
  - apply NoDup_remove_dups.
  - apply Forall_forall. intros l Hl. apply elem_of_remove_dups.
    apply list_elem_of_fmap. by exists l.
Qed.

Lemma sumOf_one (docs : list ListDoc) : sumOf (λ _, 1) docs = Z.of_nat (length docs).
Proof.
  induction docs as [|d docs IH]; [done|]. rewrite sumOf_cons, IH. simpl length. lia.
Qed.

End Overview.

(** X18. getDistributions agrees with the unfiltered overview of
    getAllDistributions when that fits on one page: for an upload with
    Sub-Lists, the overview has an entry of that id with the same
    Sub-Lists and the same totalItems, completedItems and pendingItems as
    the stats of getDistributions, whose totalLists is the number of these
    Sub-Lists; and getDistributions answers 404 exactly for the ids that
    the overview does not list. *)
Theorem getDistributions_agrees_with_overview
    (upload : string) (db : DB) (limit : nat)
    (ds : list Controller.Distribution) (total : nat) :
  Controller.getAllDistributions None 0 limit db = Success (ds, total) →
  total ≤ limit →
  match Controller.getDistributions upload db with
  | Success (docs, st) =>
      docs ≠ []
      ∧ Controller.s_totalLists st = Z.of_nat (length docs)
      ∧ ∃ d, d ∈ ds ∧ Controller.d_id d = upload
             ∧ Controller.d_lists d = docs
             ∧ Controller.d_totalItems d = Controller.s_totalItems st
             ∧ Controller.d_completedItems d = Controller.s_completedItems st
             ∧ Controller.d_pendingItems d = Controller.s_pendingItems st
  | Failure code _ => code = 404 ∧ upload ∉ Controller.d_id <$> ds
  end.
Proof.
  unfold Controller.getAllDistributions. rewrite unfiltered_all.
  intros [= <- <-] Hfit.
  rewrite <- groupByUpload_keys, length_fmap in Hfit.
  rewrite page_is_everything by done.
  unfold Controller.getDistributions.
  destruct (filter (λ l, uploadId l = upload) (lists db)) as [|first rest] eqn:Hf.
  - simpl. split; [done|]. intros Hin.
    apply list_elem_of_fmap in Hin as (d & -> & Hd).
    rewrite merge_sort_Permutation in Hd.
    apply elem_of_groupByUpload in Hd as (f & r & Hfr & _). congruence.
  - simpl. split; [done|]. split; [done|].
    exists (Controller.groupOf upload first (first :: rest)).
    split; [|done].
    rewrite merge_sort_Permutation. apply elem_of_groupByUpload.
    exists first, rest. done.
Qed.

Lemma getDistributions_agrees_with_overview_witness :
  Controller.getAllDistributions None 0 10 tenItemsDb = Success (tenItemsPage, 1)
  ∧ 1 ≤ 10
  ∧ match Controller.getDistributions "batch-9" tenItemsDb with
    | Success (docs, st) => Controller.s_totalLists st = Z.of_nat (length docs)
    | Failure _ _ => False
    end.
Proof.
  assert (Controller.getAllDistributions None 0 10 tenItemsDb
          = Success (tenItemsPage, 1)) as H by (vm_compute; reflexivity).
  assert (1 ≤ 10) as Hfit by lia.
  split; [exact H|]. split; [exact Hfit|].
  pose proof (getDistributions_agrees_with_overview "batch-9" tenItemsDb 10 _ _ H Hfit)
    as Hagree.
  destruct (Controller.getDistributions "batch-9" tenItemsDb) as [[docs st]|code e] eqn:Hg.
  - exact (proj1 (proj2 Hagree)).
  - vm_compute in Hg. discriminate.
Defined.

(** X19. The dashboard agrees with the unfiltered overview of
    getAllDistributions when that fits on one page: activeDistributions is
    the number of entries of the overview, and totalItems, completedItems,
    pendingItems and totalLists are the sums over the entries of their
    totalItems, completedItems, pendingItems and numbers of Sub-Lists. *)
Theorem dashboard_agrees_with_overview
    (db : DB) (limit : nat) (ds : list Controller.Distribution) (total : nat) :
  Controller.getAllDistributions None 0 limit db = Success (ds, total) →
  total ≤ limit →
  ∃ st, Controller.getDashboardStats db = Success st
    ∧ Controller.ds_activeDistributions st = total
    ∧ length ds = total
    ∧ Controller.ds_totalItems st
      = foldr (λ d acc, Controller.d_totalItems d + acc)%Z 0%Z ds
    ∧ Controller.ds_completedItems st
      = foldr (λ d acc, Controller.d_completedItems d + acc)%Z 0%Z ds
    ∧ Controller.ds_pendingItems st
      = foldr (λ d acc, Controller.d_pendingItems d + acc)%Z 0%Z ds
    ∧ Controller.ds_totalLists st
      = foldr (λ d acc, Z.of_nat (length (Controller.d_lists d)) + acc)%Z 0%Z ds.
Proof.
  unfold Controller.getAllDistributions. rewrite unfiltered_all.
  intros [= <- <-] Hfit.
  pose proof (groupByUpload_keys (lists db)) as Hkeys.
  rewrite <- Hkeys, length_fmap in Hfit.
  rewrite page_is_everything by done.
  eexists. split; [reflexivity|]. simpl.
  split; [done|].
  split; [by rewrite merge_sort_Permutation, <- Hkeys, length_fmap|].
  rewrite !(foldr_sum_perm _ _ _ (merge_sort_Permutation _ _)).
  rewrite (sum_groups _ totalItems), (sum_groups _ completedItems),
    (sum_groups _ pendingItems), (sum_groups _ (λ _, 1)), sumOf_one.
  - destruct (lists db) as [|l ls] eqn:Hl; [done|]. simpl.
    rewrite <- sumField_totalItems, <- sumField_completedItems,
      <- sumField_pendingItems. done.
  - intros key first members. simpl. by rewrite sumOf_one.
  - intros key first members. simpl. apply sumField_pendingItems.
  - intros key first members. simpl. apply sumField_completedItems.
  - intros key first members. simpl. apply sumField_totalItems.
Qed.

Lemma dashboard_agrees_with_overview_witness :
  Controller.getAllDistributions None 0 10 tenItemsDb = Success (tenItemsPage, 1)
  ∧ 1 ≤ 10
  ∧ ∃ st, Controller.getDashboardStats tenItemsDb = Success st
          ∧ Controller.ds_activeDistributions st = 1.
Proof.
  assert (Controller.getAllDistributions None 0 10 tenItemsDb
          = Success (tenItemsPage, 1)) as H by (vm_compute; reflexivity).
  assert (1 ≤ 10) as Hfit by lia.
  split; [exact H|]. split; [exact Hfit|].
  destruct (dashboard_agrees_with_overview tenItemsDb 10 _ _ H Hfit)
    as (st & Hst & Hact & _).
  exists st. split; [exact Hst | exact Hact].
Defined.


(** ** An upload and the report on it *)

Section FreshUpload.

Lemma persistedAs_fresh ud now l p :
  persistedAs ud now l p →
  uploadId l = ud_uploadId ud ∧ createdAt l = now ∧ uploadedBy l = ud_uploadedBy ud
  ∧ totalItems l = length p.2 ∧ completedItems l = 0 ∧ pendingItems l = length p.2
  ∧ Forall (λ it, status it = pending ∧ contactedAt it = None ∧ completedAt it = None)
           (items l).
Proof.
  intros [[id ->] _]. simpl.
  pose proof (castItems_pending (id + 1)%N p.2) as Hpend.
  rewrite length_castItems.
  rewrite (filter_none (λ it, status it = completed)).
  - rewrite (filter_all (λ it, status it = pending)).
    + by rewrite length_castItems.
    + eapply Forall_impl; [exact Hpend|]. by intros it (-> & _).
  - eapply Forall_impl; [exact Hpend|]. by intros it (-> & _).
Qed.

Lemma persisted_sums ud now new got :
  Forall2 (persistedAs ud now) new got →
  sumOf totalItems new = Z.of_nat (length (concat (snd <$> got)))
  ∧ sumOf completedItems new = 0%Z
  ∧ sumOf pendingItems new = Z.of_nat (length (concat (snd <$> got)))
  ∧ length new = length got.
Proof.
  induction 1 as [|l p new got Hlp _ (IH1 & IH2 & IH3 & IH4)]; [done|].
  destruct (persistedAs_fresh _ _ _ _ Hlp) as (_ & _ & _ & Ht & Hc & Hp & _).
  rewrite !sumOf_cons, IH1, IH2, IH3, Ht, Hc, Hp, fmap_cons.
  cbn [concat length]. rewrite length_app. lia.
Qed.

End FreshUpload.

(** X20. After a successful upload under an upload id that no stored
    Sub-List has, getDistributions for that id returns exactly the
    Sub-Lists the upload appended, and its stats show every row of the file
    as pending: totalItems and pendingItems are the number of data rows,
    completedItems is 0, and totalLists is min(rows, active agents). Every
    item of these Sub-Lists is pending with no dates, and the Sub-Lists
    carry the time and the user of the upload. *)
Theorem upload_then_getDistributions
    (data : list Row) (file : Controller.File) (user : ObjectId)
    (uuid : string) (now : Date) (db : DB)
    (res : Controller.UploadResult) (db' : DB) :
  uuid ∉ uploadId <$> lists db →
  Controller.uploadAndDistribute data file user uuid now db = (Success res, db') →
  ∃ new st,
    lists db' = lists db ++ new
    ∧ Controller.getDistributions uuid db' = Success (new, st)
    ∧ Controller.s_totalItems st = Z.of_nat (length data)
    ∧ Controller.s_completedItems st = 0%Z
    ∧ Controller.s_pendingItems st = Z.of_nat (length data)
    ∧ Controller.s_totalLists st
      = Z.of_nat (length data `min` length (activeAgents db))
    ∧ Forall (λ l, createdAt l = now ∧ uploadedBy l = user
                   ∧ Forall (λ it, status it = pending ∧ contactedAt it = None
                                   ∧ completedAt it = None) (items l)) new.
Proof.
  intros Hfresh Hrun.
  unfold Controller.uploadAndDistribute in Hrun.
  rewrite ingest_unfold, forEachRow_all in Hrun. cbn [fst snd] in Hrun.
  destruct (0 <? length (Controller.missingFields data)) eqn:Hm; [done|].
  destruct (0 <? length (rowErrors data)) eqn:He; [done|].
  destruct (length (rowContacts data) =? 0) eqn:Hz; [done|].
  destruct (length (activeAgents db) =? 0) eqn:Ha; [done|].
  apply Nat.ltb_ge in Hm, He. apply Nat.eqb_neq in Hz, Ha.
  assert (rowErrors data = []) as He' by (apply nil_iff_length; lia).
  destruct (rowErrors_nil data He') as [_ Hlen].
  destruct (distributeItems _ _ _ _ _) as [[e|ds] db1] eqn:Hd; [done|].
  apply distributeItems_run in Hd as (got & new & Hpre & Hper & Hlists & -> & ->).
  pose proof (mapM_summarize_db (activeAgents db) new db1) as Hs.
  destruct (Controller.mapM _ new db1) as [[e|ys] db2]; [done|].
  simpl in Hs. subst db2. injection Hrun as _ <-.
  destruct (persisted_sums _ _ _ _ Hper) as (Ht & Hc & Hp & Hn).
  rewrite concat_nonEmptyShares, concat_fairShares in Ht, Hp by lia.
  rewrite nonEmptyShares_take, length_take in Hn by lia.
  unfold fairShares in Hn. rewrite length_imap in Hn.
  assert (Forall (λ l, uploadId l = uuid ∧ createdAt l = now ∧ uploadedBy l = user
                       ∧ Forall (λ it, status it = pending ∧ contactedAt it = None
                                       ∧ completedAt it = None) (items l)) new) as Hnew.
  { clear -Hper. induction Hper as [|l p new got Hlp _ IH]; [constructor|].
    constructor; [|exact IH].
    destruct (persistedAs_fresh _ _ _ _ Hlp) as (H1 & H2 & H3 & _ & _ & _ & H4).
    done. }
  assert (filter (λ l, uploadId l = uuid) (lists db1) = new) as Hfilter.
  { rewrite Hlists, filter_app.
    rewrite (filter_none (λ l, uploadId l = uuid) (lists db)).
    - simpl. apply filter_all. eapply Forall_impl; [exact Hnew|]. by intros l [-> _].
    - apply Forall_forall. intros l Hl Heq. apply Hfresh.
      apply list_elem_of_fmap. by exists l. }
  exists new. unfold Controller.getDistributions. rewrite Hfilter.
  destruct new as [|l new]; [simpl in Hn; lia|].
  eexists. split; [done|]. split; [reflexivity|]. simpl.
  rewrite sumField_totalItems, sumField_completedItems, sumField_pendingItems.
  rewrite !sumOf_cons in Ht, Hc, Hp. simpl in Hn. rewrite <- Hlen.
  split; [lia|]. split; [lia|]. split; [lia|].
  split; [f_equal; lia|].
  eapply Forall_impl; [exact Hnew|]. simpl. tauto.
Qed.

Lemma upload_then_getDistributions_witness :
  ("batch-1" ∉ uploadId <$> lists threeAgentDb)
  ∧ ∃ new st,
      Controller.getDistributions "batch-1" afterUpload = Success (new, st)
      ∧ Controller.s_pendingItems st = 7%Z.
Proof.
  assert ("batch-1" ∉ uploadId <$> lists threeAgentDb) as Hfresh
    by (vm_compute; apply not_elem_of_nil).
  split; [exact Hfresh|].
  destruct (Controller.uploadAndDistribute sevenRows contactsFile 7 "batch-1" 50
              threeAgentDb) as [[res|code e] db'] eqn:Hrun;
    [|vm_compute in Hrun; discriminate].
  destruct (upload_then_getDistributions _ _ _ _ _ _ _ _ Hfresh Hrun)
    as (new & st & _ & Hget & _ & _ & Hpend & _).
  exists new, st. unfold afterUpload. rewrite Hrun. split; [exact Hget | exact Hpend].
Defined.


(** ** Agent profiles under list requests *)

Section Profiles.

Lemma replaceAgent_profile a' ags :
  NoDup (agent_id <$> ags) → profile a' ∈ profile <$> ags →
  profile <$> replaceAgent a' ags = profile <$> ags.
Proof.
  intros Hnd Hin. apply list_elem_of_fmap in Hin as (b' & Hpb & Hb').
  unfold replaceAgent. rewrite <- list_fmap_compose. apply list_fmap_ext.
  intros i b Hb. simpl. case_bool_decide as Hid; [|done].
  apply list_elem_of_lookup in Hb' as [j Hj].
  assert (agent_id b' = agent_id a') as Hid' by (unfold profile in Hpb; congruence).
  assert (i = j) as ->.
  { eapply (NoDup_lookup _ _ _ _ Hnd); rewrite list_lookup_fmap.
    - by rewrite Hb.
    - rewrite Hj. simpl. congruence. }
  congruence.
Qed.

Lemma foldl_applyShare_profile (given : list (Agent * list ContactRecord)) :
  ∀ ags, NoDup (agent_id <$> ags) →
         Forall (λ p, profile p.1 ∈ profile <$> ags) given →
         profile <$> foldl applyShare ags given = profile <$> ags.
Proof.
  induction given as [|p given IH]; intros ags Hnd Hall; [done|].
  apply Forall_cons in Hall as [Hp Hall]. simpl.
  assert (profile <$> applyShare ags p = profile <$> ags) as Hstep
    by (by apply replaceAgent_profile).
  rewrite IH.
  - exact Hstep.
  - unfold applyShare. by rewrite agent_ids_replaceAgent.
  - by rewrite Hstep.
Qed.

Lemma ingest_agents data file user uuid now db :
  ∃ given, Forall (λ p, p.1 ∈ agents db) given
           ∧ agents (Controller.ingest data file user uuid now db).2
             = foldl applyShare (agents db) given.
Proof.
  rewrite ingest_unfold.
  repeat (match goal with |- context [if ?b then _ else _] => destruct b end;
          [by exists []|]).
  destruct (distributeItems _ _ _ _ _) as [r db1] eqn:Hd.
  unfold distributeItems in Hd.
  apply distributeLoop_run in Hd as (given & new & Hpre & Hper & _ & Hags & _).
  rewrite shares_fair in Hpre.
  destruct (persisted_agents _ _ _ _ _ _ Hpre Hper) as [Hteam _].
  exists given. split.
  - eapply Forall_impl; [exact Hteam|]. intros p Hp. simpl in Hp.
    apply (proj1 (Forall_forall _ _) (proj1 (activeAgents_stored db))) in Hp. tauto.
  - destruct r as [e|ds]; [done|].
    pose proof (mapM_summarize_db (activeAgents db) ds db1) as Hs.
    destruct (Controller.mapM _ ds db1) as [[e|ys] db2]; simpl in Hs; by subst db2.
Qed.

Lemma items_by_status (its : list ListItem) :
  length its
  = length (filter (λ it, status it = completed) its)
    + length (filter (λ it, status it = pending) its)
    + length (filter underWay its).
Proof.
  induction its as [|it its IH]; [done|].
  assert ((status it = completed ∧ status it ≠ pending ∧ ¬ underWay it)
          ∨ (status it ≠ completed ∧ status it = pending ∧ ¬ underWay it)
          ∨ (status it ≠ completed ∧ status it ≠ pending ∧ underWay it)) as Hcases
    by (unfold underWay; destruct (status it);
        [right; left|right; right|left|right; right];
        repeat split; try congruence; try (by left); try (by right);
        intros [?|?]; congruence).
  destruct Hcases as [(H1 & H2 & H3)|[(H1 & H2 & H3)|(H1 & H2 & H3)]].
  - rewrite (filter_cons_True (λ it, status it = completed)) by done.
    rewrite (filter_cons_False (λ it, status it = pending)) by done.
    rewrite (filter_cons_False underWay) by done. simpl. lia.
  - rewrite (filter_cons_False (λ it, status it = completed)) by done.
    rewrite (filter_cons_True (λ it, status it = pending)) by done.
    rewrite (filter_cons_False underWay) by done. simpl. lia.
  - rewrite (filter_cons_False (λ it, status it = completed)) by done.
    rewrite (filter_cons_False (λ it, status it = pending)) by done.
    rewrite (filter_cons_True underWay) by done. simpl. lia.
Qed.

End Profiles.

(** X21. The requests on lists, accepted or refused, never add, remove,
    rename, activate or deactivate an agent: with unique agent ids, the
    agents after an upload, a status update or a Sub-List deletion are the
    same documents in the same order, up to their two counters. *)
Theorem list_requests_keep_agent_profiles (db : DB) (req : Request) :
  NoDup (agent_id <$> agents db) →
  profile <$> agents (handle db req) = profile <$> agents db
  ∧ NoDup (agent_id <$> agents (handle db req)).
Proof.
  intros Hnd.
  assert (profile <$> agents (handle db req) = profile <$> agents db) as Hsame.
  { destruct req as [data file user uuid now|listId itemId st note now|listId]; simpl.
    - unfold Controller.uploadAndDistribute.
      destruct (ingest_agents data file user uuid now db) as (given & Hgiven & Hags).
      destruct (Controller.ingest data file user uuid now db) as [[e|r] db1];
        simpl in *; rewrite Hags; apply foldl_applyShare_profile; try done;
        (eapply Forall_impl; [exact Hgiven|]); intros p Hp; simpl;
        apply list_elem_of_fmap; by exists p.1.
    - destruct (updateItemStatus_db listId itemId st note now db)
        as [->|(pos & doc & i & it & it' & _ & _ & ->)]; done.
    - unfold Controller.deleteList.
      destruct (Controller.findListById listId db) as [[pos doc]|]; [|done].
      unfold Controller.findAgentById.
      destruct (list_find (λ a, agent_id a = agentId doc) (agents db))
        as [[j a]|] eqn:Hfind; [|done].
      simpl. apply replaceAgent_profile; [done|].
      apply list_find_Some in Hfind as (Hj & _).
      apply list_elem_of_fmap. exists a. split; [done|].
      by eapply list_elem_of_lookup_2. }
  split; [exact Hsame|].
  replace (agent_id <$> agents (handle db req))
    with ((λ q : ObjectId * string * string * bool * Date, q.1.1.1.1)
            <$> (profile <$> agents (handle db req)))
    by (rewrite <- list_fmap_compose; by apply list_fmap_ext).
  rewrite Hsame, <- list_fmap_compose. exact Hnd.
Qed.

Lemma list_requests_keep_agent_profiles_witness :
  NoDup (agent_id <$> agents threeAgentDb)
  ∧ profile <$> agents afterUpload = profile <$> agents threeAgentDb.
Proof.
  assert (NoDup (agent_id <$> agents threeAgentDb)) as Hnd
    by (apply (bool_decide_unpack _); vm_compute; exact I).
  split; [exact Hnd|].
  exact (proj1 (list_requests_keep_agent_profiles threeAgentDb
                  (Upload sevenRows contactsFile 7 "batch-1" 50) Hnd)).
Defined.

(** X22. With consistent Sub-List counters, the dashboard's totalItems
    is its completedItems plus its pendingItems plus the number of stored
    items whose status is "contacted" or "failed": these items are counted
    in the total and in no other figure, inProgressItems being 0. *)
Theorem dashboard_leaves_out_items_under_way (db : DB) :
  Forall counters_ok (lists db) →
  ∃ st, Controller.getDashboardStats db = Success st
    ∧ Controller.ds_totalItems st
      = (Controller.ds_completedItems st + Controller.ds_pendingItems st
         + Z.of_nat (length (filter underWay (concat (items <$> lists db)))))%Z
    ∧ Controller.ds_inProgressItems st = 0%Z.
Proof.
  intros Hok. eexists. split; [reflexivity|].
  assert (sumOf totalItems (lists db)
          = (sumOf completedItems (lists db) + sumOf pendingItems (lists db)
             + Z.of_nat (length (filter underWay (concat (items <$> lists db)))))%Z)
    as Hsum.
  { induction Hok as [|l ls (Ht & Hc & Hp) _ IH]; [done|].
    rewrite !sumOf_cons, IH, fmap_cons. cbn [concat].
    rewrite filter_app, length_app, Ht, Hc, Hp.
    rewrite (items_by_status (items l)) at 1. lia. }
  unfold Controller.getDashboardStats. simpl.
  destruct (lists db) as [|l ls] eqn:Hl; [done|].
  cbn [Controller.groupAll head fmap option_fmap option_map Controller.orZero default
       Controller.s_totalItems Controller.s_completedItems Controller.s_pendingItems
       Controller.s_inProgressItems].
  rewrite sumField_totalItems, sumField_completedItems, sumField_pendingItems,
    sumField_inProgressItems.
  split; [exact Hsum | done].
Qed.

Lemma dashboard_leaves_out_items_under_way_witness :
  Forall counters_ok (lists tenItemsDb)
  ∧ ∃ st, Controller.getDashboardStats tenItemsDb = Success st
          ∧ Controller.ds_inProgressItems st = 0%Z.
Proof.
  assert (Forall counters_ok (lists tenItemsDb)) as H
    by (unfold counters_ok; apply (bool_decide_unpack _); vm_compute; exact I).
  split; [exact H|].
  destruct (dashboard_leaves_out_items_under_way tenItemsDb H) as (st & Hst & _ & Hz).
  exists st. split; [exact Hst | exact Hz].
Defined.
